(** * NoverThinker backend: player analytics derivation, caching and comparison

    A shallow embedding of
      - [src/config/redis.js]                 (the [cache] helpers),
      - [src/middleware/errorHandler.js]      ([AppError], [errorHandler], [asyncHandler]),
      - [src/controllers/playersController.js]
          ([getPlayerAnalytics], [calculatePlayerAnalytics], [comparePlayers]).

    JavaScript numbers are IEEE-754 binary64 values, modelled by Rocq's
    primitive floats, so that [player.discipline_score * 0.3] below is the
    very product the runtime computes.  A NUMERIC column reaches a handler
    as the driver hands it over, as text or as a number ([JS.numeric]).
    Asynchronous handlers are written in
    a state-and-exception monad over a [world] that holds the module-level
    Redis variables, the PostgreSQL tables the handlers read and write, the
    clock, and a log of the SQL statements issued.  [query] (from
    [config/database.js]) is taken to send one statement to the store and to
    resolve to its rows, or to reject with the store's error. *)

From Stdlib Require Import ZArith Lia Floats.PrimFloat Floats.FloatOps Floats.SpecFloat Uint63.
From Stdlib Require Floats.FloatAxioms.
From Stdlib Require Import Ascii.
From stdpp Require Import gmap strings list.
From stdpp Require Import pretty.

Set Warnings "-inexact-float".
Local Open Scope Z_scope.

(* ===================================================================== *)
(** ** JavaScript numbers *)
(* ===================================================================== *)

Module JS.

Definition number := float.

(** The number that an integer literal or an INTEGER column denotes
    (exact for magnitudes below 2^53). *)
Definition of_Z (z : Z) : number :=
  if z <? 0 then PrimFloat.opp (PrimFloat.of_uint63 (Uint63.of_Z (- z)))
  else PrimFloat.of_uint63 (Uint63.of_Z z).

(** The integer a number denotes, when it is finite and integral. *)
Definition to_Z (x : number) : option Z :=
  match Prim2SF x with
  | S754_zero _ => Some 0
  | S754_finite s m e =>
      let n := if s then Z.neg m else Z.pos m in
      if 0 <=? e then Some (n * 2 ^ e)
      else if n mod 2 ^ (- e) =? 0 then Some (n / 2 ^ (- e)) else None
  | _ => None
  end.

(** The number a DECIMAL(4,1) column denotes, from its value in tenths:
    the binary64 value closest to [tenths / 10]. *)
Definition of_tenths (tenths : Z) : number :=
  PrimFloat.div (of_Z tenths) (of_Z 10).

(** [Math.round(x)]: the integral number closest to [x], the one closer to
    +infinity on a tie; NaN, the infinities and the zeros are returned
    unchanged, and a result of zero keeps the sign of [x].
    For [x = n * 2^e] with [e < 0] the result is
    [floor (x + 1/2) = floor ((2n + 2^-e) / 2^(1-e))], computed exactly. *)
Definition Math_round (x : number) : number :=
  match Prim2SF x with
  | S754_finite s m e =>
      if 0 <=? e then x
      else
        let n := if s then Z.neg m else Z.pos m in
        let r := (2 * n + 2 ^ (- e)) / 2 ^ (1 - e) in
        if (r =? 0) && s then PrimFloat.neg_zero else of_Z r
  | _ => x
  end.

(** [x >= y] on numbers. *)
Definition ge (x y : number) : bool := PrimFloat.leb y x.

(** A value of a NUMERIC (DECIMAL) column as the driver hands it to the
    handlers.  node-pg hands over the text of the column ("72.5") unless a
    parser for NUMERIC is installed where the pool is created, in
    config/database.js, which is not among the sources; then it hands over a
    number.  Both are kept.  [Text tenths] is the text of a value with one
    decimal, given by its tenths: 725 for "72.5". *)
Inductive numeric :=
| Text (tenths : Z)
| Parsed (x : number).

(** The characters of [Text tenths]. *)
Definition text_of_tenths (tenths : Z) : string :=
  (if tenths <? 0 then "-" else "")
  +:+ pretty (Z.abs tenths / 10) +:+ "." +:+ pretty (Z.abs tenths mod 10).

(** [ToNumber] of such a value, which [*] and [>=] apply to a text operand:
    the binary64 number closest to the decimal. *)
Definition numeric_value (v : numeric) : number :=
  match v with
  | Text tenths => of_tenths tenths
  | Parsed x => x
  end.

(** Neither NaN nor an infinity. *)
Definition is_finite (x : number) : bool :=
  match Prim2SF x with
  | S754_zero _ | S754_finite _ _ _ => true
  | _ => false
  end.

(** A finite number after [JSON.parse(JSON.stringify(x))]: itself, except
    that [-0] is written "0" and comes back as [+0].  (NaN and the infinities
    are written "null".) *)
Definition json_number (x : number) : number :=
  if PrimFloat.eqb x 0 then 0%float else x.

(** The same for a NUMERIC value: a text comes back as the same text. *)
Definition json_numeric (v : numeric) : numeric :=
  match v with
  | Text tenths => Text tenths
  | Parsed x => Parsed (json_number x)
  end.

(** [ToNumber] of a nullable numeric column: [null] converts to [+0]. *)
Definition ToNumber (v : option number) : number :=
  match v with Some x => x | None => PrimFloat.zero end.

(** [a + b] where both operands are numbers or [null]. *)
Definition add (a b : option number) : option number :=
  Some (PrimFloat.add (ToNumber a) (ToNumber b)).

End JS.

Infix ">=?" := JS.ge (at level 70, no associativity) : float_scope.

(** A bounded universal quantifier over integers, decided by enumeration. *)
Definition all_between (lo hi : Z) (P : Z -> bool) : bool :=
  forallb P (seqZ lo (hi - lo + 1)).

(* ===================================================================== *)
(** ** Data: the rows and objects the handlers manipulate *)
(* ===================================================================== *)

(** A JavaScript [Date] object, or the ISO string it turns into when it goes
    through [JSON.stringify]; both carry the instant in milliseconds. *)
Inductive timestamp :=
| DateObj (ms : Z)
| IsoString (ms : Z).

(** [SELECT id, nova_score, discipline_score FROM player_profiles]: the row
    that [getPlayerAnalytics] passes on as [player].  [nova_score] is a
    DECIMAL(4,1) column and comes as the driver hands it over;
    [discipline_score] is an INTEGER column and comes as a number. *)
Module Profile.

Record scores := {
  id : string;
  nova_score : JS.numeric;
  discipline_score : JS.number
}.

End Profile.

Module Analytics.

Record performance := {
  overall : JS.numeric;          (* [player.nova_score], passed on as it came *)
  matchScore : JS.number;
  taskScore : JS.number;
  videoScore : JS.number;
  physicalScore : JS.number
}.

Record breakdown := {
  attendance : JS.number;
  taskCompletion : JS.number;
  uploadFrequency : JS.number;
  discipline : JS.number
}.

Record factors := {
  consistency : string;
  discipline_factor : string;   (* [risk_factors.discipline] *)
  engagement : string
}.

(** The [analytics] object of [calculatePlayerAnalytics]; a row of
    [agent_analytics_cache] read back by [SELECT *] has the same fields
    (those that the handlers read). *)
Record t := {
  performance_data : performance;
  consistency_score : JS.number;
  consistency_level : string;
  consistency_trend : string;
  work_rate_score : JS.number;
  work_rate_level : string;
  work_rate_breakdown : breakdown;
  risk_score : JS.number;
  risk_level : string;
  risk_factors : factors;
  last_calculated_at : timestamp
}.

Definition with_timestamp (a : t) (ts : timestamp) : t :=
  {| performance_data := performance_data a;
     consistency_score := consistency_score a;
     consistency_level := consistency_level a;
     consistency_trend := consistency_trend a;
     work_rate_score := work_rate_score a;
     work_rate_level := work_rate_level a;
     work_rate_breakdown := work_rate_breakdown a;
     risk_score := risk_score a;
     risk_level := risk_level a;
     risk_factors := risk_factors a;
     last_calculated_at := ts |}.

(** Agreement on every field but [last_calculated_at]. *)
Definition same_except_timestamp (a b : t) : Prop :=
  performance_data a = performance_data b /\
  consistency_score a = consistency_score b /\
  consistency_level a = consistency_level b /\
  consistency_trend a = consistency_trend b /\
  work_rate_score a = work_rate_score b /\
  work_rate_level a = work_rate_level b /\
  work_rate_breakdown a = work_rate_breakdown b /\
  risk_score a = risk_score b /\
  risk_level a = risk_level b /\
  risk_factors a = risk_factors b.

(** Every number of the record is finite.  The records the handlers meet
    are: the INTEGER and JSONB columns of the store hold no NaN and no
    infinity, and the derivation from scores within the CHECK constraints of
    the schema produces none. *)
Definition finite (a : t) : bool :=
  let p := performance_data a in
  let b := work_rate_breakdown a in
  match overall p with JS.Text _ => true | JS.Parsed x => JS.is_finite x end
  && JS.is_finite (matchScore p) && JS.is_finite (taskScore p)
  && JS.is_finite (videoScore p) && JS.is_finite (physicalScore p)
  && JS.is_finite (consistency_score a) && JS.is_finite (work_rate_score a)
  && JS.is_finite (attendance b) && JS.is_finite (taskCompletion b)
  && JS.is_finite (uploadFrequency b) && JS.is_finite (discipline b)
  && JS.is_finite (risk_score a).

(** [JSON.parse(JSON.stringify(a))] for a record whose numbers are
    [finite]: strings survive, a number survives except that [-0] comes back
    as [+0], and the [Date] comes back as its ISO string.  (A NaN or an
    infinity would come back as null, which no field here can hold: the
    statements that use this on an arbitrary record assume [finite].) *)
Definition json_roundtrip (a : t) : t :=
  let p := performance_data a in
  let b := work_rate_breakdown a in
  {| performance_data :=
       {| overall := JS.json_numeric (overall p);
          matchScore := JS.json_number (matchScore p);
          taskScore := JS.json_number (taskScore p);
          videoScore := JS.json_number (videoScore p);
          physicalScore := JS.json_number (physicalScore p) |};
     consistency_score := JS.json_number (consistency_score a);
     consistency_level := consistency_level a;
     consistency_trend := consistency_trend a;
     work_rate_score := JS.json_number (work_rate_score a);
     work_rate_level := work_rate_level a;
     work_rate_breakdown :=
       {| attendance := JS.json_number (attendance b);
          taskCompletion := JS.json_number (taskCompletion b);
          uploadFrequency := JS.json_number (uploadFrequency b);
          discipline := JS.json_number (discipline b) |};
     risk_score := JS.json_number (risk_score a);
     risk_level := risk_level a;
     risk_factors := risk_factors a;
     last_calculated_at :=
       match last_calculated_at a with
       | DateObj ms => IsoString ms
       | IsoString ms => IsoString ms
       end |}.

(** The object literal built by [calculatePlayerAnalytics]
    (playersController.js, lines 333-360); [date] is [new Date()]. *)
Definition literal (player : Profile.scores) (date : timestamp) : t :=
  let nova := JS.numeric_value (Profile.nova_score player) in
  let disc := Profile.discipline_score player in
  {| performance_data :=
       {| overall := Profile.nova_score player;
          matchScore := (nova * 0.45)%float;
          taskScore := (nova * 0.25)%float;
          videoScore := (nova * 0.15)%float;
          physicalScore := (nova * 0.15)%float |};
     consistency_score := JS.Math_round (nova * 0.9)%float;
     consistency_level :=
       if (nova >=? 80)%float then "high"
       else if (nova >=? 60)%float then "medium" else "low";
     consistency_trend := "stable";
     work_rate_score := disc;
     work_rate_level :=
       if (disc >=? 90)%float then "elite"
       else if (disc >=? 75)%float then "high" else "medium";
     work_rate_breakdown :=
       {| attendance := JS.Math_round (disc * 0.4)%float;
          taskCompletion := JS.Math_round (disc * 0.3)%float;
          uploadFrequency := JS.Math_round (disc * 0.2)%float;
          discipline := JS.Math_round (disc * 0.1)%float |};
     risk_score := (100 - JS.Math_round ((100 - disc) * 0.5))%float;
     risk_level :=
       if (disc >=? 80)%float then "low"
       else if (disc >=? 60)%float then "medium" else "high";
     risk_factors :=
       {| consistency := if (nova >=? 70)%float then "low" else "medium";
          discipline_factor := if (disc >=? 80)%float then "low" else "medium";
          engagement := "medium" |};
     last_calculated_at := date |}.

End Analytics.

(** A player of [player_profiles] with an integer discipline score, the
    nova score being handed over as text. *)
Definition scores_of (pid : string) (nova_tenths disc : Z) : Profile.scores :=
  {| Profile.id := pid;
     Profile.nova_score := JS.Text nova_tenths;
     Profile.discipline_score := JS.of_Z disc |}.


(** A row of the comparison query of [comparePlayers]: [pp.*] joined with the
    user, the attribute set, the active team and its club.  Columns that come
    from a LEFT JOIN, and nullable columns, are [None] when SQL gives NULL. *)
Module Compare.

Record row := {
  id : string;
  first_name : option string;
  last_name : option string;
  avatar_url : option string;
  primary_position : option string;
  age_group : option string;
  team_name : option string;
  club_name : option string;
  club_logo : option string;
  nova_score : option JS.numeric;         (* DECIMAL(4,1) *)
  nova_score_trend : option JS.numeric;   (* DECIMAL(4,1) *)
  stars : option JS.numeric;              (* DECIMAL(2,1) *)
  star_type : option string;
  match_score : option JS.numeric;        (* DECIMAL(4,1) *)
  task_score : option JS.numeric;         (* DECIMAL(4,1) *)
  video_score : option JS.numeric;        (* DECIMAL(4,1) *)
  physical_score : option JS.numeric;     (* DECIMAL(4,1) *)
  pace : option JS.number;
  shooting : option JS.number;
  passing : option JS.number;
  dribbling : option JS.number;
  defending : option JS.number;
  physical : option JS.number
}.

Record rating := { score : JS.number; level : string }.

Record performanceBreakdown := {
  matchScore : option JS.numeric;
  taskScore : option JS.numeric;
  videoScore : option JS.numeric;
  physicalScore : option JS.numeric
}.

Record attributes := {
  a_pace : option JS.number;
  a_shooting : option JS.number;
  a_passing : option JS.number;
  a_dribbling : option JS.number;
  a_defending : option JS.number;
  a_physical : option JS.number
}.

(** One element of [comparison]; a field of type [option] is [null] when
    [None]. *)
Record view := {
  v_id : string;
  firstName : option string;
  lastName : option string;
  avatarUrl : option string;
  position : option string;
  ageGroup : option string;
  team : option string;
  club : option string;
  clubLogo : option string;
  novaScore : option JS.numeric;
  trend : option JS.numeric;
  v_stars : option JS.numeric;
  starType : option string;
  overall : option JS.number;
  v_performanceBreakdown : performanceBreakdown;
  v_attributes : attributes;
  consistency : option rating;
  workRate : option rating;
  risk : option rating
}.

(** An element of [analyticsData]: [analytics] is [rows[0] || null]. *)
Record fetched := {
  playerId : string;
  analytics : option Analytics.t
}.

Record data := {
  players : list view;
  comparedAt : timestamp
}.

(** [player.pace + player.shooting + player.passing + player.dribbling +
    player.defending + player.physical], left to right. *)
Definition attribute_sum (player : row) : option JS.number :=
  JS.add (JS.add (JS.add (JS.add (JS.add (pace player) (shooting player))
    (passing player)) (dribbling player)) (defending player)) (physical player).

(** The callback of [playersResult.rows.map] that formats one player
    (playersController.js, lines 652-698). *)
Definition format (analyticsData : list fetched) (player : row) : view :=
  let playerAnalytics :=
    match List.find (fun a => String.eqb (playerId a) (id player)) analyticsData with
    | Some a => analytics a
    | None => None
    end in
  {| v_id := id player;
     firstName := first_name player;
     lastName := last_name player;
     avatarUrl := avatar_url player;
     position := primary_position player;
     ageGroup := age_group player;
     team := team_name player;
     club := club_name player;
     clubLogo := club_logo player;
     novaScore := nova_score player;
     trend := nova_score_trend player;
     v_stars := stars player;
     starType := star_type player;
     overall :=
       Some (JS.Math_round
               (PrimFloat.div (JS.ToNumber (attribute_sum player)) (JS.of_Z 6)));
     v_performanceBreakdown :=
       {| matchScore := match_score player;
          taskScore := task_score player;
          videoScore := video_score player;
          physicalScore := physical_score player |};
     v_attributes :=
       {| a_pace := pace player;
          a_shooting := shooting player;
          a_passing := passing player;
          a_dribbling := dribbling player;
          a_defending := defending player;
          a_physical := physical player |};
     consistency :=
       match playerAnalytics with
       | Some a => Some {| score := Analytics.consistency_score a;
                           level := Analytics.consistency_level a |}
       | None => None
       end;
     workRate :=
       match playerAnalytics with
       | Some a => Some {| score := Analytics.work_rate_score a;
                           level := Analytics.work_rate_level a |}
       | None => None
       end;
     risk :=
       match playerAnalytics with
       | Some a => Some {| score := Analytics.risk_score a;
                           level := Analytics.risk_level a |}
       | None => None
       end |}.

End Compare.

(** A row of the recent-matches query of [getPlayerAnalytics]. *)
Record match_row := {
  match_date : Z;
  opponent_name : string;
  team_score : Z;
  opponent_score : Z;
  result : string;
  minutes_played : Z;
  goals : Z;
  assists : Z;
  performance_credits : Z
}.

(* ===================================================================== *)
(** ** Errors and the HTTP error boundary (errorHandler.js) *)
(* ===================================================================== *)

(** What an asynchronous call can reject with. *)
Inductive error :=
| AppError (message : string) (statusCode : Z) (code : option string)
| PgError (sqlstate : string)      (* a failed [query]: [err.code] is the SQLSTATE *)
| JsError (name : string).         (* any other exception: no [statusCode], no [code] *)

Definition err_statusCode (err : error) : option Z :=
  match err with AppError _ sc _ => Some sc | _ => None end.

Definition err_code (err : error) : option string :=
  match err with
  | AppError _ _ c => c
  | PgError sqlstate => Some sqlstate
  | JsError _ => None
  end.

Definition err_name (err : error) : string :=
  match err with JsError n => n | _ => "Error" end.

(** What the client receives: [res.json({success: true, data})] with the
    default status 200, or the body written by [errorHandler]. *)
Inductive response (A : Type) :=
| Success (data : A)
| Failure (status : Z) (code : string).
Arguments Success {A} data.
Arguments Failure {A} status code.

Definition http_status {A} (r : response A) : Z :=
  match r with Success _ => 200 | Failure st _ => st end.

(** [x || d] on a possibly missing status: [undefined] and [0] are falsy. *)
Definition or_status (x : option Z) (d : Z) : Z :=
  match x with Some v => if v =? 0 then d else v | None => d end.

(** [x || d] on a possibly missing string: [null] and [''] are falsy. *)
Definition or_string (x : option string) (d : string) : string :=
  match x with Some v => if String.eqb v "" then d else v | None => d end.

(** [errorHandler]: status and code of the error response (the message,
    which depends on NODE_ENV, is left out). *)
Definition errorHandler {A} (err : error) : response A :=
  let statusCode := or_status (err_statusCode err) 500 in
  let code := or_string (err_code err) "INTERNAL_ERROR" in
  let '(statusCode, code) :=
    if String.eqb (err_name err) "ValidationError"
    then (400, "VALIDATION_ERROR") else (statusCode, code) in
  let '(statusCode, code) :=
    if bool_decide (err_code err = Some "23505")
    then (409, "DUPLICATE_ERROR") else (statusCode, code) in
  let '(statusCode, code) :=
    if bool_decide (err_code err = Some "23503")
    then (400, "REFERENCE_ERROR") else (statusCode, code) in
  Failure statusCode code.

(* ===================================================================== *)
(** ** The world: Redis variables, PostgreSQL tables, clock *)
(* ===================================================================== *)

(** A Redis string value: the JSON text of an analytics object (kept in
    parsed form), or a text that [JSON.parse] rejects. *)
Inductive stored :=
| JsonText (a : Analytics.t)
| Malformed.

(** The client object behind [redisClient]. *)
Record redis := {
  entries : gmap string (stored * Z);   (* value and expiry instant, in ms *)
  rejecting : bool                      (* its commands reject (socket closed, timeout) *)
}.

(** A row of [users], with the columns the authentication middleware
    selects. *)
Module Users.

Record row := {
  id : string;
  email : string;
  user_type : string;
  first_name : string;
  last_name : string;
  is_active : bool
}.

End Users.

(** The SQL statements of the two handlers and of the authentication
    middleware. *)
Inductive statement :=
| SelectPlayer (id : string)
| SelectAnalytics (player_id : string)
| UpsertAnalytics (player_id : string)
| SelectMatches (player_id : string)
| SelectComparison (playerIds : list string)
| SelectUser (id : string)          (* [... FROM users WHERE id = $1] *)
| SelectActiveUser (id : string).   (* [... FROM users WHERE id = $1 AND is_active = true] *)

Record database := {
  player_profiles : list Profile.scores;
  comparison_rows : list Compare.row;           (* the join, in the store's order *)
  agent_analytics_cache : gmap string Analytics.t;   (* player_id is UNIQUE *)
  recent_matches : string -> list match_row;    (* result of the matches query *)
  users : list Users.row
}.

Record world := {
  redisClient : option redis;       (* [let redisClient = null] *)
  redisConnected : bool;            (* [let redisConnected = false] *)
  db : database;
  issued : list statement;          (* statements sent so far, oldest first *)
  outage : nat -> option string;    (* the n-th statement fails with this SQLSTATE *)
  now : Z                           (* the clock, in ms *)
}.

Definition set_redisClient (c : option redis) (w : world) : world :=
  {| redisClient := c; redisConnected := redisConnected w; db := db w;
     issued := issued w; outage := outage w; now := now w |}.

Definition set_db (d : database) (w : world) : world :=
  {| redisClient := redisClient w; redisConnected := redisConnected w; db := d;
     issued := issued w; outage := outage w; now := now w |}.

Definition set_issued (l : list statement) (w : world) : world :=
  {| redisClient := redisClient w; redisConnected := redisConnected w; db := db w;
     issued := l; outage := outage w; now := now w |}.

Definition set_now (t : Z) (w : world) : world :=
  {| redisClient := redisClient w; redisConnected := redisConnected w; db := db w;
     issued := issued w; outage := outage w; now := t |}.

Definition set_agent_analytics_cache (m : gmap string Analytics.t) (d : database) : database :=
  {| player_profiles := player_profiles d; comparison_rows := comparison_rows d;
     agent_analytics_cache := m; recent_matches := recent_matches d;
     users := users d |}.

(* ===================================================================== *)
(** ** Asynchronous computations *)
(* ===================================================================== *)

Inductive outcome (A : Type) :=
| Ok (a : A)
| Throw (e : error).
Arguments Ok {A} a.
Arguments Throw {A} e.

(** An [async] function body: it runs from a world, and either returns or
    rejects, leaving a world behind. *)
Definition async (A : Type) : Type := world -> outcome A * world.

#[export] Instance async_ret : MRet async := fun A a w => (Ok a, w).

#[export] Instance async_bind : MBind async := fun A B k m w =>
  match m w with
  | (Ok a, w') => k a w'
  | (Throw e, w') => (Throw e, w')
  end.

Definition throw {A} (e : error) : async A := fun w => (Throw e, w).

(** [try { body } catch (error) { handler }]. *)
Definition try_catch {A} (body : async A) (handler : error -> async A) : async A :=
  fun w =>
    match body w with
    | (Ok a, w') => (Ok a, w')
    | (Throw e, w') => handler e w'
    end.

(** [Promise.all] over calls that have all been started: every one runs (in
    list order), and the result rejects with the first failure if there is
    one. *)
Fixpoint promise_all {A} (calls : list (async A)) : async (list A) :=
  match calls with
  | [] => mret []
  | c :: rest =>
      fun w =>
        let '(r, w1) := c w in
        let '(rs, w2) := promise_all rest w1 in
        (match r, rs with
         | Throw e, _ => Throw e
         | Ok _, Throw e => Throw e
         | Ok a, Ok l => Ok (a :: l)
         end, w2)
  end.

(** [asyncHandler(fn)]: a rejection of [fn] goes to [errorHandler]. *)
Definition asyncHandler {A} (fn : async A) (w : world) : response A * world :=
  match fn w with
  | (Ok data, w') => (Success data, w')
  | (Throw e, w') => (errorHandler e, w')
  end.

(** [query(text, params)]: the statement is sent and logged; it rejects when
    the store is out at that moment, and otherwise [exec] gives its rows and
    its effect on the tables. *)
Definition query {A} (s : statement) (exec : database -> A * database) : async A :=
  fun w =>
    let w1 := set_issued (issued w ++ [s]) w in
    match outage w (length (issued w)) with
    | Some sqlstate => (Throw (PgError sqlstate), w1)
    | None => let '(rows, d) := exec (db w1) in (Ok rows, set_db d w1)
    end.

(** A read-only statement. *)
Definition select {A} (s : statement) (rows : database -> A) : async A :=
  query s (fun d => (rows d, d)).

(** [new Date()] / [NOW()]. *)
Definition clock : async Z := fun w => (Ok (now w), w).

(* ===================================================================== *)
(** ** The fast cache (redis.js, [cache]) *)
(* ===================================================================== *)

(** [redisClient.get(key)]: an expired key is gone. *)
Definition redis_get (client : redis) (key : string) : async (option stored) :=
  fun w =>
    if rejecting client then (Throw (JsError "ClientClosedError"), w)
    else (Ok (match entries client !! key with
              | Some (text, expiry) => if now w <? expiry then Some text else None
              | None => None
              end), w).

(** [redisClient.setEx(key, ttlSeconds, text)]; Redis refuses an expiry
    that is not positive, and the call rejects with its error reply. *)
Definition redis_setEx (client : redis) (key : string) (ttlSeconds : Z) (text : stored)
  : async unit :=
  fun w =>
    if rejecting client then (Throw (JsError "ClientClosedError"), w)
    else if ttlSeconds <=? 0 then (Throw (JsError "ErrorReply"), w)
    else (Ok tt,
          set_redisClient
            (Some {| entries := <[key := (text, now w + ttlSeconds * 1000)]> (entries client);
                     rejecting := rejecting client |}) w).

Definition JSON_parse (text : stored) : async Analytics.t :=
  match text with
  | JsonText a => mret a
  | Malformed => throw (JsError "SyntaxError")
  end.

Definition JSON_stringify (value : Analytics.t) : stored :=
  JsonText (Analytics.json_roundtrip value).

(** [cache.get(key)]; [None] is [null]. *)
Definition cache_get (key : string) : async (option Analytics.t) :=
  fun w =>
    match redisClient w with
    | Some client =>
        if negb (redisConnected w) then (Ok None, w)
        else
          try_catch
            (value ← redis_get client key;
             match value with
             | Some text => a ← JSON_parse text; mret (Some a)
             | None => mret None
             end)
            (fun _ => mret None) w
    | None => (Ok None, w)
    end.

(** [cache.set(key, value, ttlSeconds)]. *)
Definition cache_set (key : string) (value : Analytics.t) (ttlSeconds : Z) : async bool :=
  fun w =>
    match redisClient w with
    | Some client =>
        if negb (redisConnected w) then (Ok false, w)
        else
          try_catch
            (_ ← redis_setEx client key ttlSeconds (JSON_stringify value);
             mret true)
            (fun _ => mret false) w
    | None => (Ok false, w)
    end.

(* ===================================================================== *)
(** ** Analytics (playersController.js, lines 248-397) *)
(* ===================================================================== *)

Module AnalyticsResponse.

(** [{score, level, trend}], [{score, level, breakdown}] and
    [{score, level, factors}]: [detail] is the third field. *)
Record panel (X : Type) := {
  score : JS.number;
  level : string;
  detail : X
}.
Arguments score {X} p.
Arguments level {X} p.
Arguments detail {X} p.

Record data := {
  playerId : string;
  novaScore : JS.numeric;
  performance : Analytics.performance;
  consistency : panel string;
  workRate : panel Analytics.breakdown;
  risk : panel Analytics.factors;
  recentMatches : list match_row;
  lastCalculated : timestamp
}.

End AnalyticsResponse.

(** The effect of [INSERT ... ON CONFLICT (player_id) DO UPDATE]: the one
    row of the player holds the new values, stamped by the store. *)
Definition upsert (playerId : string) (analytics : Analytics.t) (db_now : Z)
    (d : database) : database :=
  set_agent_analytics_cache
    (<[playerId := Analytics.with_timestamp analytics (DateObj db_now)]>
       (agent_analytics_cache d)) d.

Definition calculatePlayerAnalytics (playerId : string) (player : Profile.scores)
  : async Analytics.t :=
  t ← clock;
  let analytics := Analytics.literal player (DateObj t) in
  (* Store in cache table *)
  _ ← query (UpsertAnalytics playerId) (fun d => (tt, upsert playerId analytics t d));
  mret analytics.

Definition analytics_key (id : string) : string := "analytics:" +:+ id.

(** The object passed to [res.json] by [getPlayerAnalytics]
    (playersController.js, lines 297-321). *)
Definition respond (id : string) (player : Profile.scores) (analytics : Analytics.t)
    (matchesResult : list match_row) : AnalyticsResponse.data :=
  {| AnalyticsResponse.playerId := id;
     AnalyticsResponse.novaScore := Profile.nova_score player;
     AnalyticsResponse.performance := Analytics.performance_data analytics;
     AnalyticsResponse.consistency :=
       {| AnalyticsResponse.score := Analytics.consistency_score analytics;
          AnalyticsResponse.level := Analytics.consistency_level analytics;
          AnalyticsResponse.detail := Analytics.consistency_trend analytics |};
     AnalyticsResponse.workRate :=
       {| AnalyticsResponse.score := Analytics.work_rate_score analytics;
          AnalyticsResponse.level := Analytics.work_rate_level analytics;
          AnalyticsResponse.detail := Analytics.work_rate_breakdown analytics |};
     AnalyticsResponse.risk :=
       {| AnalyticsResponse.score := Analytics.risk_score analytics;
          AnalyticsResponse.level := Analytics.risk_level analytics;
          AnalyticsResponse.detail := Analytics.risk_factors analytics |};
     AnalyticsResponse.recentMatches := matchesResult;
     AnalyticsResponse.lastCalculated := Analytics.last_calculated_at analytics |}.

Definition getPlayerAnalytics (id : string) : async AnalyticsResponse.data :=
  (* Check if player exists *)
  playerResult ← select (SelectPlayer id)
                   (fun d => filter (fun p => Profile.id p = id) (player_profiles d));
  match playerResult with
  | [] => throw (AppError "Player not found" 404 None)
  | player :: _ =>
      (* Try to get cached analytics *)
      let cacheKey := analytics_key id in
      cached ← cache_get cacheKey;
      analytics ←
        match cached with
        | Some a => mret a
        | None =>
            analyticsResult ← select (SelectAnalytics id)
                                (fun d => option_list (agent_analytics_cache d !! id));
            a ← match analyticsResult with
                 | row :: _ => mret row
                 | [] => calculatePlayerAnalytics id player
                 end;
            (* Cache for 1 hour *)
            _ ← cache_set cacheKey a 3600;
            mret a
        end;
      (* Get recent matches for context *)
      matchesResult ← select (SelectMatches id) (fun d => recent_matches d id);
      mret (respond id player analytics matchesResult)
  end.

(* ===================================================================== *)
(** ** Comparison (playersController.js, lines 600-707) *)
(* ===================================================================== *)

(** [req.body.playerIds]. *)
Inductive body_field :=
| Undefined
| NotArray
| Array (ids : list string).

(** The [async (player) => {...}] callback that fetches one player's
    analytics from the durable store (playersController.js, lines 638-647). *)
Definition fetch_analytics (player : Compare.row) : async Compare.fetched :=
  analyticsResult ← select (SelectAnalytics (Compare.id player))
                      (fun d => option_list (agent_analytics_cache d !! Compare.id player));
  mret {| Compare.playerId := Compare.id player;
          Compare.analytics := head analyticsResult |}.

Definition comparePlayers (playerIds : body_field) : async Compare.data :=
  match playerIds with
  | Array ids =>
      if (length ids <? 2)%nat || (4 <? length ids)%nat
      then throw (AppError "Please provide 2-4 player IDs to compare" 400 None)
      else
        (* Get all players with their details *)
        rows ← select (SelectComparison ids)
                 (fun d => filter (fun r => Compare.id r ∈ ids) (comparison_rows d));
        if (length rows <? 2)%nat
        then throw (AppError "Could not find enough players to compare" 404 None)
        else
          (* Get analytics for each player *)
          analyticsData ← promise_all (map fetch_analytics rows);
          (* Format comparison data *)
          let comparison := map (Compare.format analyticsData) rows in
          t ← clock;
          mret {| Compare.players := comparison; Compare.comparedAt := DateObj t |}
  | _ => throw (AppError "Please provide 2-4 player IDs to compare" 400 None)
  end.

(* ===================================================================== *)
(** ** Vocabulary of the statements below *)
(* ===================================================================== *)

(** What [cache.get key] resolves to in world [w]. *)
Definition cache_lookup (w : world) (key : string) : option Analytics.t :=
  match cache_get key w with
  | (Ok v, _) => v
  | (Throw _, _) => None
  end.

(** The fast cache is usable: a client exists, is connected, and its
    commands do not reject. *)
Definition cache_up (w : world) : bool :=
  match redisClient w with
  | Some client => redisConnected w && negb (rejecting client)
  | None => false
  end.

(** The data of a response are put together from the player's row, an
    analytics record and the recent matches, field by field. *)
Definition built_from (data : AnalyticsResponse.data) (id : string)
    (player : Profile.scores) (analytics : Analytics.t) (matches : list match_row) : Prop :=
  AnalyticsResponse.playerId data = id /\
  AnalyticsResponse.novaScore data = Profile.nova_score player /\
  AnalyticsResponse.performance data = Analytics.performance_data analytics /\
  AnalyticsResponse.score (AnalyticsResponse.consistency data)
    = Analytics.consistency_score analytics /\
  AnalyticsResponse.level (AnalyticsResponse.consistency data)
    = Analytics.consistency_level analytics /\
  AnalyticsResponse.detail (AnalyticsResponse.consistency data)
    = Analytics.consistency_trend analytics /\
  AnalyticsResponse.score (AnalyticsResponse.workRate data)
    = Analytics.work_rate_score analytics /\
  AnalyticsResponse.level (AnalyticsResponse.workRate data)
    = Analytics.work_rate_level analytics /\
  AnalyticsResponse.detail (AnalyticsResponse.workRate data)
    = Analytics.work_rate_breakdown analytics /\
  AnalyticsResponse.score (AnalyticsResponse.risk data) = Analytics.risk_score analytics /\
  AnalyticsResponse.level (AnalyticsResponse.risk data) = Analytics.risk_level analytics /\
  AnalyticsResponse.detail (AnalyticsResponse.risk data) = Analytics.risk_factors analytics /\
  AnalyticsResponse.recentMatches data = matches /\
  AnalyticsResponse.lastCalculated data = Analytics.last_calculated_at analytics.

(** The player row that [getPlayerAnalytics] works with. *)
Definition found_player (w : world) (id : string) : option Profile.scores :=
  head (filter (fun p => Profile.id p = id) (player_profiles (db w))).

(** The durable store answers every statement. *)
Definition store_up (w : world) : Prop := forall n, outage w n = None.

(** The rows the comparison query returns for [ids], in the store's order. *)
Definition matching_rows (w : world) (ids : list string) : list Compare.row :=
  filter (fun r => Compare.id r ∈ ids) (comparison_rows (db w)).

(** What [fetch_analytics] resolves to against the tables [d]. *)
Definition fetched_from (d : database) (player : Compare.row) : Compare.fetched :=
  {| Compare.playerId := Compare.id player;
     Compare.analytics := agent_analytics_cache d !! Compare.id player |}.

(** The views [comparePlayers] builds from the rows [rows]. *)
Definition views_of (w : world) (rows : list Compare.row) : list Compare.view :=
  map (Compare.format (map (fetched_from (db w)) rows)) rows.

(** The identifiers of the views of a comparison, in output order. *)
Definition view_ids (d : Compare.data) : list string :=
  map Compare.v_id (Compare.players d).

(** The six attribute columns of a row. *)
Definition attributes_of (player : Compare.row) : list (option JS.number) :=
  [Compare.pace player; Compare.shooting player; Compare.passing player;
   Compare.dribbling player; Compare.defending player; Compare.physical player].

(** The sum of the four work-rate components, when they are integers. *)
Definition breakdown_sum (b : Analytics.breakdown) : option Z :=
  match JS.to_Z (Analytics.attendance b), JS.to_Z (Analytics.taskCompletion b),
        JS.to_Z (Analytics.uploadFrequency b), JS.to_Z (Analytics.discipline b) with
  | Some a, Some t, Some u, Some d => Some (a + t + u + d)
  | _, _, _, _ => None
  end.

(* ===================================================================== *)
(** ** Sample data *)
(* ===================================================================== *)

Definition alice : Profile.scores := scores_of "alice" 900 95.
Definition bob : Profile.scores := scores_of "bob" 725 50.

(** A comparison row with the given attribute set ([None]: the player has no
    row in [player_attributes]) and no team. *)
Definition sample_row (id : string) (nova_tenths : Z) (attrs : option (list Z)) : Compare.row :=
  let attr i := match attrs with
                | Some l => JS.of_Z <$> l !! i
                | None => None
                end in
  {| Compare.id := id;
     Compare.first_name := Some id;
     Compare.last_name := Some "Doe";
     Compare.avatar_url := None;
     Compare.primary_position := Some "ST";
     Compare.age_group := Some "U17";
     Compare.team_name := None;
     Compare.club_name := None;
     Compare.club_logo := None;
     Compare.nova_score := Some (JS.Text nova_tenths);
     Compare.nova_score_trend := Some (JS.Text 0);
     Compare.stars := Some (JS.Text 35);
     Compare.star_type := Some "silver";
     Compare.match_score := Some (JS.Text 500);
     Compare.task_score := Some (JS.Text 500);
     Compare.video_score := Some (JS.Text 500);
     Compare.physical_score := Some (JS.Text 500);
     Compare.pace := attr 0%nat;
     Compare.shooting := attr 1%nat;
     Compare.passing := attr 2%nat;
     Compare.dribbling := attr 3%nat;
     Compare.defending := attr 4%nat;
     Compare.physical := attr 5%nat |}.

Definition alice_row : Compare.row := sample_row "alice" 900 (Some [80; 75; 70; 85; 40; 65]).
Definition bob_row : Compare.row := sample_row "bob" 725 None.

(** Three accounts: an agent, a player, and an agent whose account has been
    deactivated. *)
Definition sample_users : list Users.row :=
  [{| Users.id := "u-agent"; Users.email := "agent@noverthinker.com";
      Users.user_type := "agent"; Users.first_name := "Ann"; Users.last_name := "Agent";
      Users.is_active := true |};
   {| Users.id := "u-player"; Users.email := "alice@noverthinker.com";
      Users.user_type := "player"; Users.first_name := "Alice"; Users.last_name := "Doe";
      Users.is_active := true |};
   {| Users.id := "u-gone"; Users.email := "gone@noverthinker.com";
      Users.user_type := "agent"; Users.first_name := "Greg"; Users.last_name := "Gone";
      Users.is_active := false |}].

Definition sample_db : database :=
  {| player_profiles := [alice; bob];
     comparison_rows := [alice_row; bob_row];
     agent_analytics_cache := ∅;
     recent_matches := fun _ => [];
     users := sample_users |}.

(** Redis connected and empty, the store up, nothing derived yet. *)
Definition sample_world : world :=
  {| redisClient := Some {| entries := ∅; rejecting := false |};
     redisConnected := true;
     db := sample_db;
     issued := [];
     outage := fun _ => None;
     now := 1700000000000 |}.

(** The same, but the third statement sent to the store fails with
    SQLSTATE 08006 (connection failure). *)
Definition write_outage_world : world :=
  {| redisClient := redisClient sample_world;
     redisConnected := true;
     db := sample_db;
     issued := [];
     outage := fun n => if (n =? 2)%nat then Some "08006" else None;
     now := 1700000000000 |}.

(** The same as [sample_world], one hour and a half later, with Redis gone
    and bob's analytics already in the store. *)
Definition bob_analytics : Analytics.t := Analytics.literal bob (DateObj 1600000000000).

Definition degraded_world : world :=
  {| redisClient := None;
     redisConnected := false;
     db := set_agent_analytics_cache {[ "bob" := bob_analytics ]} sample_db;
     issued := [];
     outage := fun _ => None;
     now := 1700005400000 |}.

(** [sample_world] ten minutes after a first request for alice's analytics:
    her record is in the store and in Redis. *)
Definition warm_world : world :=
  set_now 1700000600000 (asyncHandler (getPlayerAnalytics "alice") sample_world).2.

(** [warm_world] two hours later: the Redis entry has expired. *)
Definition expired_world : world := set_now 1700007800000 warm_world.

(** [warm_world] with the store unreachable: every statement fails with
    SQLSTATE 08006. *)
Definition warm_store_down_world : world :=
  {| redisClient := redisClient warm_world;
     redisConnected := redisConnected warm_world;
     db := db warm_world;
     issued := issued warm_world;
     outage := fun _ => Some "08006";
     now := now warm_world |}.

(** [warm_world] after alice's profile has been deleted (and with it, by ON
    DELETE CASCADE, her row of the analytics table): the Redis entry is
    still there. *)
Definition warm_no_profile_world : world :=
  set_db {| player_profiles := [bob];
            comparison_rows := [bob_row];
            agent_analytics_cache := ∅;
            recent_matches := fun _ => [];
            users := sample_users |} warm_world.

(* ===================================================================== *)
(** ** The fast cache, continued: invalidation and connection events *)
(* ===================================================================== *)

Definition set_redisConnected (b : bool) (w : world) : world :=
  {| redisClient := redisClient w; redisConnected := b; db := db w;
     issued := issued w; outage := outage w; now := now w |}.

(** The ['connect'] and ['end'] listeners that [connectRedis] registers on
    the client (redis.js, lines 39-46). *)
Definition on_connect (w : world) : world := set_redisConnected true w.
Definition on_end (w : world) : world := set_redisConnected false w.

(** [redisClient.del(key)] and [redisClient.del(keys)]. *)
Definition redis_del (client : redis) (keys : list string) : async unit :=
  fun w =>
    if rejecting client then (Throw (JsError "ClientClosedError"), w)
    else (Ok tt,
          set_redisClient
            (Some {| entries := foldr delete (entries client) keys;
                     rejecting := rejecting client |}) w).

(** [cache.del(key)]. *)
Definition cache_del (key : string) : async bool :=
  fun w =>
    match redisClient w with
    | Some client =>
        if negb (redisConnected w) then (Ok false, w)
        else
          try_catch
            (_ ← redis_del client [key];
             mret true)
            (fun _ => mret false) w
    | None => (Ok false, w)
    end.

Section KeyPatterns.

(** Redis' glob-style matching of a key against a pattern. *)
Variable glob : string -> string -> bool.

(** [redisClient.keys(pattern)]: the keys that have not expired and match. *)
Definition redis_keys (client : redis) (pattern : string) : async (list string) :=
  fun w =>
    if rejecting client then (Throw (JsError "ClientClosedError"), w)
    else (Ok (map_to_list
                (filter (fun kv : string * (stored * Z) =>
                           glob pattern kv.1 = true /\ now w < kv.2.2)
                        (entries client))).*1, w).

(** [cache.delPattern(pattern)]. *)
Definition cache_delPattern (pattern : string) : async bool :=
  fun w =>
    match redisClient w with
    | Some client =>
        if negb (redisConnected w) then (Ok false, w)
        else
          try_catch
            (keys ← redis_keys client pattern;
             _ ← (if (0 <? length keys)%nat then redis_del client keys else mret tt);
             mret true)
            (fun _ => mret false) w
    | None => (Ok false, w)
    end.

End KeyPatterns.

(** A pattern matcher for the examples: a trailing [*] matches any suffix,
    any other pattern matches itself only. *)
Fixpoint prefix_glob (pattern key : string) : bool :=
  match pattern, key with
  | String "*"%char EmptyString, _ => true
  | String p pattern', String k key' => Ascii.eqb p k && prefix_glob pattern' key'
  | EmptyString, EmptyString => true
  | _, _ => false
  end.

(* ===================================================================== *)
(** ** The error boundary in full (errorHandler.js) *)
(* ===================================================================== *)

(** A thrown value, as [errorHandler] reads it. *)
Record thrown := {
  t_name : string;              (* [err.name] *)
  t_message : string;           (* [err.message] *)
  t_statusCode : option Z;      (* [err.statusCode] *)
  t_code : option string;       (* [err.code] *)
  t_isOperational : bool;       (* [err.isOperational]; [undefined] is falsy *)
  t_stack : string              (* [err.stack] *)
}.

(** [new AppError(message, statusCode, code)]; [stack] is what
    [Error.captureStackTrace] records. *)
Definition new_AppError (message : string) (statusCode : Z) (code : option string)
    (stack : string) : thrown :=
  {| t_name := "Error"; t_message := message; t_statusCode := Some statusCode;
     t_code := code; t_isOperational := true; t_stack := stack |}.

Module ErrorBody.

(** The JSON body written by [errorHandler], with its HTTP status. *)
Record t := {
  status : Z;
  error : string;
  code : string;
  stack : option string       (* present in development only *)
}.

End ErrorBody.

(** [errorHandler(err, req, res, next)] under [process.env.NODE_ENV]. *)
Definition errorHandler_body (NODE_ENV : option string) (err : thrown) : ErrorBody.t :=
  let statusCode := or_status (t_statusCode err) 500 in
  let message := or_string (Some (t_message err)) "Internal server error" in
  let code := or_string (t_code err) "INTERNAL_ERROR" in
  (* Handle specific error types *)
  let '(statusCode, code) :=
    if String.eqb (t_name err) "ValidationError"
    then (400, "VALIDATION_ERROR") else (statusCode, code) in
  let '(statusCode, message, code) :=
    if bool_decide (t_code err = Some "23505")
    then (409, "Resource already exists", "DUPLICATE_ERROR")
    else (statusCode, message, code) in
  let '(statusCode, message, code) :=
    if bool_decide (t_code err = Some "23503")
    then (400, "Referenced resource not found", "REFERENCE_ERROR")
    else (statusCode, message, code) in
  (* Don't expose internal errors in production *)
  let message :=
    if bool_decide (NODE_ENV = Some "production") && negb (t_isOperational err)
    then "Something went wrong" else message in
  {| ErrorBody.status := statusCode;
     ErrorBody.error := message;
     ErrorBody.code := code;
     ErrorBody.stack :=
       if bool_decide (NODE_ENV = Some "development") then Some (t_stack err) else None |}.

(** [notFound]: the error handed to [next] for a URL no route matched. *)
Definition notFound (originalUrl : string) (stack : string) : thrown :=
  new_AppError ("Not found: " +:+ originalUrl) 404 (Some "NOT_FOUND") stack.

(** The thrown value behind a rejection of the handlers above. *)
Definition thrown_of (e : error) (message stack : string) : thrown :=
  match e with
  | AppError m statusCode code => new_AppError m statusCode code stack
  | PgError sqlstate =>
      {| t_name := "error"; t_message := message; t_statusCode := None;
         t_code := Some sqlstate; t_isOperational := false; t_stack := stack |}
  | JsError name =>
      {| t_name := name; t_message := message; t_statusCode := None;
         t_code := None; t_isOperational := false; t_stack := stack |}
  end.

(* ===================================================================== *)
(** ** Regular expressions *)
(* ===================================================================== *)

(** Anchored regular expressions over code units; strings are sequences of
    code units below 256. *)
Module Regex.

Inductive t :=
| Void
| Eps
| Class (p : ascii -> bool)
| Seq (r1 r2 : t)
| Alt (r1 r2 : t)
| Star (r : t).

Fixpoint nullable (r : t) : bool :=
  match r with
  | Void => false
  | Eps => true
  | Class _ => false
  | Seq r1 r2 => nullable r1 && nullable r2
  | Alt r1 r2 => nullable r1 || nullable r2
  | Star _ => true
  end.

Fixpoint deriv (c : ascii) (r : t) : t :=
  match r with
  | Void => Void
  | Eps => Void
  | Class p => if p c then Eps else Void
  | Seq r1 r2 =>
      if nullable r1 then Alt (Seq (deriv c r1) r2) (deriv c r2)
      else Seq (deriv c r1) r2
  | Alt r1 r2 => Alt (deriv c r1) (deriv c r2)
  | Star r => Seq (deriv c r) (Star r)
  end.

(** [/^r$/.test(s)]. *)
Fixpoint test (r : t) (s : string) : bool :=
  match s with
  | EmptyString => nullable r
  | String c s' => test (deriv c r) s'
  end.

(** [r+] and [r{n}]. *)
Definition plus (r : t) : t := Seq r (Star r).

Fixpoint times (n : nat) (r : t) : t :=
  match n with
  | O => Eps
  | S n' => Seq r (times n' r)
  end.

Definition char (c : ascii) : t := Class (Ascii.eqb c).

(** The strings a regular expression denotes. *)
Inductive lang : t -> string -> Prop :=
| lang_eps : lang Eps ""
| lang_class p c : p c = true -> lang (Class p) (String c "")
| lang_seq r1 r2 s1 s2 : lang r1 s1 -> lang r2 s2 -> lang (Seq r1 r2) (s1 +:+ s2)
| lang_alt_l r1 r2 s : lang r1 s -> lang (Alt r1 r2) s
| lang_alt_r r1 r2 s : lang r2 s -> lang (Alt r1 r2) s
| lang_star_nil r : lang (Star r) ""
| lang_star_cons r s1 s2 : lang r s1 -> lang (Star r) s2 -> lang (Star r) (s1 +:+ s2).

End Regex.

(** Every code unit of [s] satisfies [p]. *)
Fixpoint all_chars (p : ascii -> bool) (s : string) : bool :=
  match s with
  | EmptyString => true
  | String c s' => p c && all_chars p s'
  end.

(** [c] does not occur in [s]. *)
Definition no_char (c : ascii) (s : string) : Prop :=
  all_chars (fun c' => negb (Ascii.eqb c' c)) s = true.

(** The number of occurrences of [c] in [s]. *)
Fixpoint count_char (c : ascii) (s : string) : nat :=
  match s with
  | EmptyString => O
  | String c' s' => (if Ascii.eqb c c' then 1 else 0) + count_char c s'
  end.

(* ===================================================================== *)
(** ** Request validation (validation.js) *)
(* ===================================================================== *)

(** The class [\s] on code units below 256: tab, line feed, vertical tab,
    form feed, carriage return, space and no-break space. *)
Definition is_whitespace (c : ascii) : bool :=
  let n := nat_of_ascii c in
  ((9 <=? n) && (n <=? 13) || (n =? 32) || (n =? 160))%nat.

(** The class [[0-9a-f]] under the [i] flag. *)
Definition is_hex (c : ascii) : bool :=
  let n := nat_of_ascii c in
  ((48 <=? n) && (n <=? 57) || (97 <=? n) && (n <=? 102) || (65 <=? n) && (n <=? 70))%nat.

(** The class [[^\s@]]. *)
Definition email_char (c : ascii) : bool :=
  negb (is_whitespace c) && negb (Ascii.eqb c "@").

(** [/^[^\s@]+@[^\s@]+\.[^\s@]+$/]. *)
Definition emailRegex : Regex.t :=
  Regex.Seq (Regex.plus (Regex.Class email_char))
    (Regex.Seq (Regex.char "@")
       (Regex.Seq (Regex.plus (Regex.Class email_char))
          (Regex.Seq (Regex.char ".") (Regex.plus (Regex.Class email_char))))).

Definition isValidEmail (email : string) : bool := Regex.test emailRegex email.

(** [/^[0-9a-f]{8}-[0-9a-f]{4}-[0-9a-f]{4}-[0-9a-f]{4}-[0-9a-f]{12}$/i]. *)
Definition uuidRegex : Regex.t :=
  Regex.Seq (Regex.times 8 (Regex.Class is_hex))
    (Regex.Seq (Regex.char "-")
       (Regex.Seq (Regex.times 4 (Regex.Class is_hex))
          (Regex.Seq (Regex.char "-")
             (Regex.Seq (Regex.times 4 (Regex.Class is_hex))
                (Regex.Seq (Regex.char "-")
                   (Regex.Seq (Regex.times 4 (Regex.Class is_hex))
                      (Regex.Seq (Regex.char "-")
                         (Regex.times 12 (Regex.Class is_hex))))))))).

Definition isValidUUID (uuid : string) : bool := Regex.test uuidRegex uuid.

Module Validation.

(** A value found in [req.body], [req.params] or [req.query].  [Obj] is an
    object as a JSON body or a query string gives it, with the value of its
    [length] property when it has one; it has no [toString] or [valueOf]
    property of its own. *)
#[warnings="-register-all"]
Inductive value :=
| Undefined
| Null
| Str (s : string)
| Num (x : JS.number)
| Bool (b : bool)
| Arr (items : list value)
| Obj (length_property : option value).

(** The rules of one field of a schema; [None] and [false] stand for a rule
    that is not given. *)
Record rules := {
  required : bool;
  message : option string;
  type : option string;
  minLength : option Z;
  maxLength : option Z;
  min : option Z;
  max : option Z;
  pattern : option (value -> bool);        (* [rules.pattern.test] *)
  patternMessage : option string;
  email : bool;
  uuid : bool;
  enum : option (list string);
  custom : option (value -> gmap string value -> option string)
}.

Definition no_rules : rules :=
  {| required := false; message := None; type := None; minLength := None;
     maxLength := None; min := None; max := None; pattern := None;
     patternMessage := None; email := false; uuid := false; enum := None;
     custom := None |}.

(** An element of [errors]. *)
Record verror := {
  field : string;
  location : string;
  v_message : string
}.

(** [value === undefined || value === null || value === '']. *)
Definition is_empty (v : value) : bool :=
  match v with
  | Undefined | Null | Str "" => true
  | _ => false
  end.

(** The value has no [length]: reading it gives undefined. *)
Definition without_length (v : value) : bool :=
  match v with
  | Str _ | Arr _ | Obj (Some _) => false
  | _ => true
  end.

(** [items.join(sep)] on strings. *)
Fixpoint join (sep : string) (items : list string) : string :=
  match items with
  | [] => ""
  | [x] => x
  | x :: rest => x +:+ sep +:+ join sep rest
  end.

(** The error pushed for a required field that is missing. *)
Definition required_error (location f : string) (r : rules) : verror :=
  {| field := f; location := location;
     v_message := or_string (message r) (f +:+ " is required") |}.

Section Builtins.

(** The conversions of the runtime that the validator relies on. *)
Variable NumberToString : JS.number -> string.
Variable StringToNumber : string -> JS.number.
Variable Date_parse : string -> JS.number.

(** [String(value)]. *)
Fixpoint ToString (v : value) : string :=
  match v with
  | Undefined => "undefined"
  | Null => "null"
  | Str s => s
  | Num x => NumberToString x
  | Bool true => "true"
  | Bool false => "false"
  | Arr items =>
      join "," (map (fun item =>
                       match item with
                       | Undefined | Null => ""
                       | _ => ToString item
                       end) items)
  | Obj _ => "[object Object]"
  end.

(** [Number(value)]. *)
Definition Number (v : value) : JS.number :=
  match v with
  | Undefined => PrimFloat.nan
  | Null => PrimFloat.zero
  | Num x => x
  | Bool true => JS.of_Z 1
  | Bool false => PrimFloat.zero
  | _ => StringToNumber (ToString v)
  end.

(** [checkType(value, type)]. *)
Definition checkType (v : value) (type : string) : bool :=
  if String.eqb type "string" then match v with Str _ => true | _ => false end
  else if String.eqb type "number" then negb (PrimFloat.is_nan (Number v))
  else if String.eqb type "boolean" then
    match v with
    | Bool _ | Str "true" | Str "false" => true
    | _ => false
    end
  else if String.eqb type "array" then match v with Arr _ => true | _ => false end
  else if String.eqb type "object" then
    match v with Null | Obj _ => true | _ => false end
  else if String.eqb type "date" then negb (PrimFloat.is_nan (Date_parse (ToString v)))
  else true.

(** [value.length < bound]: a string or an array has its length; of an
    object the [length] property is read, whatever it holds, and compared as
    a number; any other value gives undefined, which is below nothing. *)
Definition length_below (v : value) (bound : Z) : bool :=
  match v with
  | Str s => Z.of_nat (String.length s) <? bound
  | Arr items => Z.of_nat (length items) <? bound
  | Obj (Some len) => PrimFloat.ltb (Number len) (JS.of_Z bound)
  | _ => false
  end.

(** [value.length > bound]. *)
Definition length_above (v : value) (bound : Z) : bool :=
  match v with
  | Str s => bound <? Z.of_nat (String.length s)
  | Arr items => bound <? Z.of_nat (length items)
  | Obj (Some len) => PrimFloat.ltb (JS.of_Z bound) (Number len)
  | _ => false
  end.

(** [cond ? [error] : []], the effect of one [if (...) errors.push(...)]. *)
Definition push_if (cond : bool) (f location msg : string) : list verror :=
  if cond then [{| field := f; location := location; v_message := msg |}] else [].

(** The body of the loop of [validateObject] for one schema entry. *)
Definition validateField (obj : gmap string value) (location : string)
    (f : string) (r : rules) : list verror :=
  let v := default Undefined (obj !! f) in
  (* Required check *)
  if required r && is_empty v then
    push_if true f location (or_string (message r) (f +:+ " is required"))
  (* Skip further validation if not required and empty *)
  else if is_empty v then []
  else
    (* Type check *)
    if match type r with
       | Some ty => negb (checkType v ty)
       | None => false
       end
    then push_if true f location (f +:+ " must be a " +:+ default "" (type r))
    else
      ((* Min length *)
       push_if
         (match minLength r with
          | Some m => negb (m =? 0) && length_below v m
          | None => false
          end) f location
         (f +:+ " must be at least " +:+ pretty (default 0 (minLength r)) +:+ " characters")
       ++
       (* Max length *)
       push_if
         (match maxLength r with
          | Some m => negb (m =? 0) && length_above v m
          | None => false
          end) f location
         (f +:+ " must not exceed " +:+ pretty (default 0 (maxLength r)) +:+ " characters")
       ++
       (* Min value *)
       push_if
         (match min r with
          | Some m => PrimFloat.ltb (Number v) (JS.of_Z m)
          | None => false
          end) f location
         (f +:+ " must be at least " +:+ pretty (default 0 (min r)))
       ++
       (* Max value *)
       push_if
         (match max r with
          | Some m => PrimFloat.ltb (JS.of_Z m) (Number v)
          | None => false
          end) f location
         (f +:+ " must not exceed " +:+ pretty (default 0 (max r)))
       ++
       (* Pattern (regex) *)
       push_if
         (match pattern r with
          | Some test => negb (test v)
          | None => false
          end) f location
         (or_string (patternMessage r) (f +:+ " has invalid format"))
       ++
       (* Email validation *)
       push_if (email r && negb (isValidEmail (ToString v))) f location
         (f +:+ " must be a valid email")
       ++
       (* UUID validation *)
       push_if (uuid r && negb (isValidUUID (ToString v))) f location
         (f +:+ " must be a valid UUID")
       ++
       (* Enum validation *)
       push_if
         (match enum r with
          | Some allowed =>
              negb (match v with Str s => bool_decide (s ∈ allowed) | _ => false end)
          | None => false
          end) f location
         (f +:+ " must be one of: " +:+ join ", " (default [] (enum r)))
       ++
       (* Custom validation *)
       match custom r with
       | Some check =>
           match check v obj with
           | Some customError => push_if (negb (String.eqb customError "")) f location customError
           | None => []
           end
       | None => []
       end).

(** [validateObject(obj, schema, location)]. *)
Definition validateObject (obj : gmap string value) (schema : list (string * rules))
    (location : string) : list verror :=
  concat (map (fun entry => validateField obj location entry.1 entry.2) schema).

(** A schema given to [validate]: each part may be absent. *)
Record schema := {
  s_body : option (list (string * rules));
  s_params : option (list (string * rules));
  s_query : option (list (string * rules))
}.

Record request := {
  req_body : gmap string value;
  req_params : gmap string value;
  req_query : gmap string value
}.

(** What the middleware does: answer 400 with the details, or call [next]. *)
Inductive verdict :=
| Rejected (details : list verror)
| Next.

(** [validate(schema)(req, res, next)]. *)
Definition validate (sch : schema) (req : request) : verdict :=
  let errors :=
    (match s_body sch with
     | Some s => validateObject (req_body req) s "body"
     | None => []
     end)
    ++ (match s_params sch with
        | Some s => validateObject (req_params req) s "params"
        | None => []
        end)
    ++ (match s_query sch with
        | Some s => validateObject (req_query req) s "query"
        | None => []
        end) in
  if (0 <? length errors)%nat then Rejected errors else Next.

End Builtins.

(** [schemas] (validation.js, lines 199-245). *)
Definition register : schema :=
  {| s_body := Some
       [("email", {| required := true; message := None; type := None; minLength := None;
                     maxLength := None; min := None; max := None; pattern := None;
                     patternMessage := None; email := true; uuid := false; enum := None;
                     custom := None |});
        ("password", {| required := true; message := None; type := None;
                        minLength := Some 8; maxLength := Some 128; min := None;
                        max := None; pattern := None; patternMessage := None;
                        email := false; uuid := false; enum := None; custom := None |});
        ("firstName", {| required := true; message := None; type := None;
                         minLength := Some 2; maxLength := Some 100; min := None;
                         max := None; pattern := None; patternMessage := None;
                         email := false; uuid := false; enum := None; custom := None |});
        ("lastName", {| required := true; message := None; type := None;
                        minLength := Some 2; maxLength := Some 100; min := None;
                        max := None; pattern := None; patternMessage := None;
                        email := false; uuid := false; enum := None; custom := None |});
        ("userType", {| required := true; message := None; type := None;
                        minLength := None; maxLength := None; min := None; max := None;
                        pattern := None; patternMessage := None; email := false;
                        uuid := false; enum := Some ["player"; "coach"; "agent"];
                        custom := None |})];
     s_params := None; s_query := None |}.

Definition uuidParam : schema :=
  {| s_body := None;
     s_params := Some
       [("id", {| required := true; message := None; type := None; minLength := None;
                  maxLength := None; min := None; max := None; pattern := None;
                  patternMessage := None; email := false; uuid := true; enum := None;
                  custom := None |})];
     s_query := None |}.

Definition pagination : schema :=
  {| s_body := None; s_params := None;
     s_query := Some
       [("page", {| required := false; message := None; type := Some "number";
                    minLength := None; maxLength := None; min := Some 1; max := None;
                    pattern := None; patternMessage := None; email := false;
                    uuid := false; enum := None; custom := None |});
        ("limit", {| required := false; message := None; type := Some "number";
                     minLength := None; maxLength := None; min := Some 1; max := Some 100;
                     pattern := None; patternMessage := None; email := false;
                     uuid := false; enum := None; custom := None |})] |}.

End Validation.

(* ===================================================================== *)
(** ** Authentication and authorization (auth.js) *)
(* ===================================================================== *)

(** [s.split(sep)] for a one-character separator. *)
Fixpoint split_on (sep : ascii) (s : string) : list string :=
  match s with
  | EmptyString => [""]
  | String c s' =>
      if Ascii.eqb c sep then "" :: split_on sep s'
      else match split_on sep s' with
           | piece :: pieces => String c piece :: pieces
           | [] => [String c ""]
           end
  end.

Module Auth.

(** [req.user]. *)
Record user := {
  u_id : string;
  u_email : string;
  userType : string;
  firstName : string;
  lastName : string
}.

(** The object that both middlewares attach to the request. *)
Definition attach (row : Users.row) : user :=
  {| u_id := Users.id row; u_email := Users.email row; userType := Users.user_type row;
     firstName := Users.first_name row; lastName := Users.last_name row |}.

(** What [authenticate] does: answer with a status and an error, or attach
    the user and call [next]. *)
Inductive auth_result :=
| Denied (status : Z) (error : string)
| Granted (u : user).

(** What [authorize(...)] does: answer with a status and an error, or call
    [next]. *)
Inductive decision :=
| Deny (status : Z) (error : string)
| Allow.

(** [authHeader.split(' ')[1]]. *)
Definition bearer_token (authHeader : string) : string :=
  default "" (split_on " " authHeader !! 1%nat).

Section Middleware.

(** [jwt.verify(token, process.env.JWT_SECRET)]: the [userId] of the decoded
    payload, or the error it throws. *)
Variable jwt_verify : string -> outcome string.

Definition verify (token : string) : async string := fun w => (jwt_verify token, w).

(** [authenticate(req, res, next)]; [authorization] is
    [req.headers.authorization]. *)
Definition authenticate (authorization : option string) : async auth_result :=
  try_catch
    (match authorization with
     | Some authHeader =>
         if negb (String.prefix "Bearer " authHeader)
         then mret (Denied 401 "Access denied. No token provided.")
         else
           let token := bearer_token authHeader in
           (* Verify token *)
           userId ← verify token;
           (* Get user from database *)
           result ← select (SelectUser userId)
                      (fun d => List.filter (fun u => String.eqb (Users.id u) userId)
                                  (users d));
           match result with
           | [] => mret (Denied 401 "User not found.")
           | user :: _ =>
               if negb (Users.is_active user)
               then mret (Denied 401 "Account is deactivated.")
               else mret (Granted (attach user))
           end
     | None => mret (Denied 401 "Access denied. No token provided.")
     end)
    (fun error =>
       if String.eqb (err_name error) "JsonWebTokenError"
       then mret (Denied 401 "Invalid token.")
       else if String.eqb (err_name error) "TokenExpiredError"
       then mret (Denied 401 "Token expired.")
       else mret (Denied 500 "Authentication error.")).

(** [authorize(...allowedRoles)(req, res, next)]; [user] is [req.user]. *)
Definition authorize (allowedRoles : list string) (user : option user) : decision :=
  match user with
  | None => Deny 401 "Not authenticated."
  | Some u =>
      if negb (bool_decide (userType u ∈ allowedRoles))
      then Deny 403 "Access denied. Insufficient permissions."
      else Allow
  end.

(** [optionalAuth(req, res, next)]: the value it leaves in [req.user]
    before calling [next]. *)
Definition optionalAuth (authorization : option string) : async (option user) :=
  try_catch
    (match authorization with
     | Some authHeader =>
         if negb (String.prefix "Bearer " authHeader)
         then mret None
         else
           let token := bearer_token authHeader in
           userId ← verify token;
           result ← select (SelectActiveUser userId)
                      (fun d => List.filter
                                  (fun u => String.eqb (Users.id u) userId
                                            && Users.is_active u)
                                  (users d));
           match result with
           | user :: _ => mret (Some (attach user))
           | [] => mret None
           end
     | None => mret None
     end)
    (fun _ => mret None).

(** What [jwt.verify] makes of the request's token, when the request
    carries one: the header is there and starts with "Bearer ". *)
Definition token_check (authorization : option string) : option (outcome string) :=
  match authorization with
  | Some authHeader =>
      if String.prefix "Bearer " authHeader
      then Some (jwt_verify (bearer_token authHeader))
      else None
  | None => None
  end.

(** The world after the middleware's one statement, which it sends exactly
    when the token verifies: only the statement log has grown. *)
Definition looked_up (stmt : string -> statement) (authorization : option string)
    (w : world) : world :=
  match token_check authorization with
  | Some (Ok userId) => set_issued (issued w ++ [stmt userId]) w
  | _ => w
  end.

(** A request that carries the token of an active user: the header starts
    with "Bearer ", its token verifies, the store answers the statement, and
    the first user of the store with the decoded id is active; [u] is that
    user. *)
Definition valid_login (authorization : option string) (w : world) (u : user) : Prop :=
  exists userId row rest,
    token_check authorization = Some (Ok userId) /\
    outage w (length (issued w)) = None /\
    List.filter (fun r => String.eqb (Users.id r) userId) (users (db w)) = row :: rest /\
    Users.is_active row = true /\
    u = attach row.

(** An error goes to the last branch of [authenticate]'s [catch]: it is
    neither of the two token errors. *)
Definition unexpected (e : error) : Prop :=
  err_name e <> "JsonWebTokenError" /\ err_name e <> "TokenExpiredError".

(** Such an error is thrown while the request is authenticated: by
    [jwt.verify], or by the store when it is asked for the user. *)
Definition breaks (authorization : option string) (w : world) : Prop :=
  (exists e, token_check authorization = Some (Throw e) /\ unexpected e) \/
  (exists userId sqlstate,
     token_check authorization = Some (Ok userId) /\
     outage w (length (issued w)) = Some sqlstate).

End Middleware.

End Auth.

(* ===================================================================== *)
(** ** The guarded routes (routes/players.js) *)
(* ===================================================================== *)

(** What a request to a guarded route ends in: the 400 of [validate], the
    answer of [authenticate] or [authorize], or the handler's response. *)
Inductive route_response (A : Type) :=
| Invalid (details : list Validation.verror)
| Refused (status : Z) (error : string)
| Handled (r : response A).
Arguments Invalid {A} details.
Arguments Refused {A} status error.
Arguments Handled {A} r.

Section Routes.

Variable NumberToString : JS.number -> string.
Variable StringToNumber : string -> JS.number.
Variable Date_parse : string -> JS.number.
Variable jwt_verify : string -> outcome string.

(** [authenticate, authorize('agent', 'admin'), handler]. *)
Definition agents_only {A} (authorization : option string) (handler : async A)
    (w : world) : route_response A * world :=
  match Auth.authenticate jwt_verify authorization w with
  | (Ok (Auth.Granted u), w1) =>
      match Auth.authorize ["agent"; "admin"] (Some u) with
      | Auth.Allow => let '(r, w2) := asyncHandler handler w1 in (Handled r, w2)
      | Auth.Deny status error => (Refused status error, w1)
      end
  | (Ok (Auth.Denied status error), w1) => (Refused status error, w1)
  | (Throw e, w1) => (Handled (errorHandler e), w1)
  end.

(** [router.get('/:id/analytics', validate(schemas.uuidParam), authenticate,
    authorize('agent', 'admin'), getPlayerAnalytics)]. *)
Definition analytics_route (id : string) (authorization : option string) (w : world)
  : route_response AnalyticsResponse.data * world :=
  match Validation.validate NumberToString StringToNumber Date_parse
          Validation.uuidParam
          {| Validation.req_body := ∅;
             Validation.req_params := {[ "id" := Validation.Str id ]};
             Validation.req_query := ∅ |} with
  | Validation.Rejected details => (Invalid details, w)
  | Validation.Next => agents_only authorization (getPlayerAnalytics id) w
  end.

(** [router.post('/compare', authenticate, authorize('agent', 'admin'),
    comparePlayers)]. *)
Definition compare_route (playerIds : body_field) (authorization : option string)
    (w : world) : route_response Compare.data * world :=
  agents_only authorization (comparePlayers playerIds) w.

End Routes.

(** Sample users and tokens for the examples: the token of a user is the
    user's id followed by [.sig], any other token is malformed. *)
Definition sample_jwt_verify (token : string) : outcome string :=
  if bool_decide (token = "u-agent.sig") then Ok "u-agent"
  else if bool_decide (token = "u-player.sig") then Ok "u-player"
  else if bool_decide (token = "u-gone.sig") then Ok "u-gone"
  else if bool_decide (token = "expired.sig") then Throw (JsError "TokenExpiredError")
  else Throw (JsError "JsonWebTokenError").

(** Stand-ins for the runtime's number conversions in the examples, which
    validate strings only. *)
Definition sample_NumberToString (x : JS.number) : string := "NaN".
Definition sample_StringToNumber (s : string) : JS.number := PrimFloat.nan.
Definition sample_Date_parse (s : string) : JS.number := PrimFloat.nan.

Definition alice_uuid : string := "123e4567-e89b-12d3-a456-426614174000".

(** The body part of the registration schema. *)
Definition register_fields : list (string * Validation.rules) :=
  default [] (Validation.s_body Validation.register).

(** [sample_world] with a player whose id is a UUID. *)
Definition uuid_world : world :=
  set_db {| player_profiles := [scores_of alice_uuid 900 95];
            comparison_rows := [];
            agent_analytics_cache := ∅;
            recent_matches := fun _ => [];
            users := sample_users |} sample_world.

(* ===================================================================== *)
(** ** Building the listing queries (playersController.js, getPlayers and
       discoverPlayers) *)
(* ===================================================================== *)

Module Listing.

(** A value bound to a placeholder.  The numbers computed from query-string
    text are kept as the expressions of the source. *)
Inductive param :=
| PString (s : string)
| PParseFloat (s : string)                (* [parseFloat(s)] *)
| PParseInt (s : string)                  (* [parseInt(s)] *)
| PArray (items : list string)            (* [s.split(',')] *)
| PLimit (limit : option string)          (* [parseInt(limit)], [limit = 20] by default *)
| POffset (page limit : option string).   (* [(page - 1) * limit], defaults 1 and 20 *)

(** The three variables the handlers thread through the filters. *)
Record builder := {
  whereClause : string;
  params : list param;
  paramIndex : nat
}.

Definition start : builder :=
  {| whereClause := "WHERE pp.profile_visibility = 'public'";
     params := [];
     paramIndex := 1 |}.

(** [`$${paramIndex}`]. *)
Definition placeholder (n : nat) : string := "$" +:+ pretty n.

(** [whereClause += clause; params.push(value); paramIndex++], where
    [clause] is written with the current placeholder. *)
Definition push (clause : string -> string) (value : param) (b : builder) : builder :=
  {| whereClause := whereClause b +:+ clause (placeholder (paramIndex b));
     params := params b ++ [value];
     paramIndex := S (paramIndex b) |}.

(** A query-string parameter is truthy when present and not empty. *)
Definition truthy (x : option string) : bool :=
  match x with
  | Some s => negb (String.eqb s "")
  | None => false
  end.

(** [if (x) { whereClause += ...; params.push(...); paramIndex++; }]. *)
Definition when (x : option string) (clause : string -> string) (value : string -> param)
    (b : builder) : builder :=
  match x with
  | Some s => if String.eqb s "" then b else push clause (value s) b
  | None => b
  end.

(** [sortOrder.toUpperCase() === 'ASC']: among the code units below 256,
    only the two cases of a letter have that letter as upper case. *)
Definition upper_is_ASC (sortOrder : string) : bool :=
  match sortOrder with
  | String a (String s (String c EmptyString)) =>
      (Ascii.eqb a "A" || Ascii.eqb a "a") && (Ascii.eqb s "S" || Ascii.eqb s "s")
      && (Ascii.eqb c "C" || Ascii.eqb c "c")
  | _ => false
  end.

(** What the two statements of a listing are made of: the WHERE clause and
    the values of the count query, and the ORDER BY column and direction,
    the LIMIT and OFFSET placeholders and the values of the page query. *)
Record listing := {
  l_where : string;
  l_count_params : list param;
  l_sortColumn : string;
  l_order : string;
  l_limit : nat;
  l_offset : nat;
  l_params : list param
}.

(** [const sortColumn = ...; const order = ...] and the two [query] calls. *)
Definition finish (validSortColumns : list string) (page limit sortBy sortOrder : option string)
    (b : builder) : listing :=
  let sortBy := default "nova_score" sortBy in
  let sortOrder := default "DESC" sortOrder in
  {| l_where := whereClause b;
     l_count_params := params b;
     l_sortColumn :=
       if bool_decide (sortBy ∈ validSortColumns) then sortBy else "nova_score";
     l_order := if upper_is_ASC sortOrder then "ASC" else "DESC";
     l_limit := paramIndex b;
     l_offset := paramIndex b + 1;
     l_params := params b ++ [PLimit limit; POffset page limit] |}.

(** [req.query] of [GET /api/players]. *)
Record players_query := {
  page : option string;
  limit : option string;
  position : option string;
  ageGroup : option string;
  minNovaScore : option string;
  maxNovaScore : option string;
  sortBy : option string;
  sortOrder : option string;
  search : option string
}.

(** [getPlayers], up to its two [query] calls (lines 13-115). *)
Definition getPlayers (q : players_query) : listing :=
  let b := start in
  let b := when (position q)
             (fun n => " AND (pp.primary_position = " +:+ n
                       +:+ " OR pp.secondary_position = " +:+ n +:+ ")")
             PString b in
  let b := when (ageGroup q) (fun n => " AND pp.age_group = " +:+ n) PString b in
  let b := when (minNovaScore q) (fun n => " AND pp.nova_score >= " +:+ n) PParseFloat b in
  let b := when (maxNovaScore q) (fun n => " AND pp.nova_score <= " +:+ n) PParseFloat b in
  let b := when (search q)
             (fun n => " AND (u.first_name ILIKE " +:+ n +:+ " OR u.last_name ILIKE " +:+ n
                       +:+ " OR c.name ILIKE " +:+ n +:+ ")")
             (fun s => PString ("%" +:+ s +:+ "%")) b in
  finish ["nova_score"; "created_at"; "stars"; "discipline_score"]
    (page q) (limit q) (sortBy q) (sortOrder q) b.

(** [req.query] of [GET /api/players/discover]. *)
Record discover_query := {
  d_page : option string;
  d_limit : option string;
  positions : option string;
  ageGroups : option string;
  d_minNovaScore : option string;
  d_maxNovaScore : option string;
  minStars : option string;
  clubs : option string;
  nationality : option string;
  preferredFoot : option string;
  minHeight : option string;
  maxHeight : option string;
  d_sortBy : option string;
  d_sortOrder : option string
}.

(** [discoverPlayers], up to its first two [query] calls (lines 403-549). *)
Definition discoverPlayers (q : discover_query) : listing :=
  let b := start in
  let b := when (positions q)
             (fun n => " AND (pp.primary_position = ANY(" +:+ n
                       +:+ ") OR pp.secondary_position = ANY(" +:+ n +:+ "))")
             (fun s => PArray (split_on "," s)) b in
  let b := when (ageGroups q) (fun n => " AND pp.age_group = ANY(" +:+ n +:+ ")")
             (fun s => PArray (split_on "," s)) b in
  let b := when (d_minNovaScore q) (fun n => " AND pp.nova_score >= " +:+ n) PParseFloat b in
  let b := when (d_maxNovaScore q) (fun n => " AND pp.nova_score <= " +:+ n) PParseFloat b in
  let b := when (minStars q) (fun n => " AND pp.stars >= " +:+ n) PParseFloat b in
  let b := when (nationality q) (fun n => " AND pp.nationality ILIKE " +:+ n)
             (fun s => PString ("%" +:+ s +:+ "%")) b in
  let b := when (preferredFoot q) (fun n => " AND pp.preferred_foot = " +:+ n) PString b in
  let b := when (minHeight q) (fun n => " AND pp.height_cm >= " +:+ n) PParseInt b in
  let b := when (maxHeight q) (fun n => " AND pp.height_cm <= " +:+ n) PParseInt b in
  let b := when (clubs q) (fun n => " AND c.id = ANY(" +:+ n +:+ ")")
             (fun s => PArray (split_on "," s)) b in
  finish ["nova_score"; "stars"; "discipline_score"; "nova_score_trend"; "total_goals"]
    (d_page q) (d_limit q) (d_sortBy q) (d_sortOrder q) b.

(** The text of a WHERE clause whose conjuncts, in order, are [clauses]:
    the i-th is written with the placeholder [$i]. *)
Definition render (clauses : list (string -> string)) : string :=
  whereClause start
  +:+ foldr (fun piece rest => piece +:+ rest) ""
        (imap (fun i clause => clause (placeholder (S i))) clauses).

(** The elements of [l] whose flag is set. *)
Fixpoint select {A} (flags : list bool) (l : list A) : list A :=
  match flags, l with
  | flag :: flags', x :: l' => if flag then x :: select flags' l' else select flags' l'
  | _, _ => []
  end.

(** The filters of [getPlayers] in the order of the source: which are set,
    the conjunct of each, and the value of each. *)
Definition players_filters (q : players_query) : list bool :=
  map truthy [position q; ageGroup q; minNovaScore q; maxNovaScore q; search q].

Definition players_clauses : list (string -> string) :=
  [fun n => " AND (pp.primary_position = " +:+ n
            +:+ " OR pp.secondary_position = " +:+ n +:+ ")";
   fun n => " AND pp.age_group = " +:+ n;
   fun n => " AND pp.nova_score >= " +:+ n;
   fun n => " AND pp.nova_score <= " +:+ n;
   fun n => " AND (u.first_name ILIKE " +:+ n +:+ " OR u.last_name ILIKE " +:+ n
            +:+ " OR c.name ILIKE " +:+ n +:+ ")"].

Definition players_values (q : players_query) : list param :=
  [PString (default "" (position q));
   PString (default "" (ageGroup q));
   PParseFloat (default "" (minNovaScore q));
   PParseFloat (default "" (maxNovaScore q));
   PString ("%" +:+ default "" (search q) +:+ "%")].

(** The same for [discoverPlayers]. *)
Definition discover_filters (q : discover_query) : list bool :=
  map truthy [positions q; ageGroups q; d_minNovaScore q; d_maxNovaScore q; minStars q;
              nationality q; preferredFoot q; minHeight q; maxHeight q; clubs q].

Definition discover_clauses : list (string -> string) :=
  [fun n => " AND (pp.primary_position = ANY(" +:+ n
            +:+ ") OR pp.secondary_position = ANY(" +:+ n +:+ "))";
   fun n => " AND pp.age_group = ANY(" +:+ n +:+ ")";
   fun n => " AND pp.nova_score >= " +:+ n;
   fun n => " AND pp.nova_score <= " +:+ n;
   fun n => " AND pp.stars >= " +:+ n;
   fun n => " AND pp.nationality ILIKE " +:+ n;
   fun n => " AND pp.preferred_foot = " +:+ n;
   fun n => " AND pp.height_cm >= " +:+ n;
   fun n => " AND pp.height_cm <= " +:+ n;
   fun n => " AND c.id = ANY(" +:+ n +:+ ")"].

Definition discover_values (q : discover_query) : list param :=
  [PArray (split_on "," (default "" (positions q)));
   PArray (split_on "," (default "" (ageGroups q)));
   PParseFloat (default "" (d_minNovaScore q));
   PParseFloat (default "" (d_maxNovaScore q));
   PParseFloat (default "" (minStars q));
   PString ("%" +:+ default "" (nationality q) +:+ "%");
   PString (default "" (preferredFoot q));
   PParseInt (default "" (minHeight q));
   PParseInt (default "" (maxHeight q));
   PArray (split_on "," (default "" (clubs q)))].

(** A listing binds its placeholders in order: the WHERE clause is made of
    the conjuncts of the filters that are set, the i-th written with [$i]
    and the i-th value being its value; LIMIT and OFFSET take the next two
    placeholders and the last two values. *)
Definition binds_in_order (l : listing) (flags : list bool)
    (clauses : list (string -> string)) (values : list param)
    (page limit : option string) : Prop :=
  l_where l = render (select flags clauses) /\
  l_count_params l = select flags values /\
  length (select flags clauses) = length (select flags values) /\
  l_limit l = S (length (l_count_params l)) /\
  l_offset l = S (S (length (l_count_params l))) /\
  l_params l = l_count_params l ++ [PLimit limit; POffset page limit].

(** Every placeholder of the page query has its value: the values are as
    many as the highest placeholder, LIMIT's is the limit and OFFSET's the
    offset. *)
Definition l_params_bound (l : listing) : Prop :=
  length (l_params l) = l_offset l /\
  (exists limit, l_params l !! (l_limit l - 1)%nat = Some (PLimit limit)) /\
  (exists page limit, l_params l !! (l_offset l - 1)%nat = Some (POffset page limit)).

End Listing.

(* ===================================================================== *)
(** ** What a handler leaves alone *)
(* ===================================================================== *)

(** The Redis entry of a key (its text and expiry), if any. *)
Definition redis_entry (w : world) (key : string) : option (stored * Z) :=
  match redisClient w with
  | Some client => entries client !! key
  | None => None
  end.

(** The statements [getPlayerAnalytics] can send for player [id]. *)
Definition statements_of (id : string) : list statement :=
  [SelectPlayer id; SelectAnalytics id; UpsertAnalytics id; SelectMatches id].

(** [w'] differs from [w] at most in the stored analytics of player [id], in
    the Redis entry of [key], and in the statement log, which has grown by
    statements about player [id]. *)
Definition touches_only (id key : string) (w w' : world) : Prop :=
  player_profiles (db w') = player_profiles (db w) /\
  comparison_rows (db w') = comparison_rows (db w) /\
  recent_matches (db w') = recent_matches (db w) /\
  users (db w') = users (db w) /\
  (forall k, k <> id ->
     agent_analytics_cache (db w') !! k = agent_analytics_cache (db w) !! k) /\
  (forall k, k <> key -> redis_entry w' k = redis_entry w k) /\
  cache_up w' = cache_up w /\
  redisConnected w' = redisConnected w /\ now w' = now w /\ outage w' = outage w /\
  exists sent, issued w' = issued w ++ sent /\ Forall (fun s => s ∈ statements_of id) sent.

(** An asynchronous computation that, from every world, leaves a world that
    [touches_only] relates to it. *)
Definition keeps {A} (id key : string) (m : async A) : Prop :=
  forall w, touches_only id key w (m w).2.


(** The three ratings of a comparison view, as read from a stored record. *)
Definition ratings_of (a : option Analytics.t)
  : option Compare.rating * option Compare.rating * option Compare.rating :=
  match a with
  | Some a =>
      (Some {| Compare.score := Analytics.consistency_score a;
               Compare.level := Analytics.consistency_level a |},
       Some {| Compare.score := Analytics.work_rate_score a;
               Compare.level := Analytics.work_rate_level a |},
       Some {| Compare.score := Analytics.risk_score a;
               Compare.level := Analytics.risk_level a |})
  | None => (None, None, None)
  end.


(* ===================================================================== *)
(** * Properties *)
(* ===================================================================== *)

(** ** Arithmetic of the derivation *)

Lemma all_between_spec (lo hi : Z) (P : Z -> bool) :
  all_between lo hi P = true -> forall z, lo <= z <= hi -> P z = true.
Proof.
  unfold all_between. intros H z Hz.
  rewrite forallb_forall in H. apply H.
  apply list_elem_of_In, elem_of_seqZ. lia.
Qed.

Example round_half_up : JS.Math_round 2.5%float = 3%float.
Proof. vm_compute. reflexivity. Qed.

Example round_half_up_negative : JS.Math_round (-2.5)%float = (-2)%float.
Proof. vm_compute. reflexivity. Qed.

Example round_below_half : JS.Math_round 0.49999999999999994%float = 0%float.
Proof. vm_compute. reflexivity. Qed.

Example round_inexact_product : JS.Math_round (35 * 0.1)%float = 4%float.
Proof. vm_compute. reflexivity. Qed.

Example round_negative_half : JS.Math_round (-1.5)%float = (-1)%float.
Proof. vm_compute. reflexivity. Qed.

Example round_keeps_sign_of_zero : JS.Math_round (-0.4)%float = PrimFloat.neg_zero.
Proof. vm_compute. reflexivity. Qed.

Example round_large : JS.Math_round 4503599627370495.5%float = 4503599627370496%float.
Proof. vm_compute. reflexivity. Qed.

Example decimal_column : JS.of_tenths 725 = 72.5%float.
Proof. vm_compute. reflexivity. Qed.

(** The fields that depend on the discipline score only, as functions of it. *)
Section Discipline.

Variables (p : Profile.scores) (date : timestamp) (d : Z).
Hypothesis d_range : 0 <= d <= 100.
Hypothesis d_score : Profile.discipline_score p = JS.of_Z d.

Let a := Analytics.literal p date.
Let canon := Analytics.literal (scores_of "" 0 d) (DateObj 0).

Lemma discipline_fields :
  Analytics.work_rate_score a = Analytics.work_rate_score canon /\
  Analytics.work_rate_level a = Analytics.work_rate_level canon /\
  Analytics.work_rate_breakdown a = Analytics.work_rate_breakdown canon /\
  Analytics.risk_score a = Analytics.risk_score canon /\
  Analytics.risk_level a = Analytics.risk_level canon.
Proof.
  subst a canon. unfold Analytics.literal, scores_of.
  cbn [Analytics.work_rate_score Analytics.work_rate_level
       Analytics.work_rate_breakdown Analytics.risk_score Analytics.risk_level
       Profile.discipline_score].
  rewrite d_score. repeat split; reflexivity.
Qed.

Lemma breakdown_closed_form :
  let b := Analytics.work_rate_breakdown a in
  JS.to_Z (Analytics.attendance b) = Some ((4 * d + 5) / 10) /\
  JS.to_Z (Analytics.taskCompletion b) = Some ((3 * d + 5) / 10) /\
  JS.to_Z (Analytics.uploadFrequency b) = Some ((2 * d + 5) / 10) /\
  JS.to_Z (Analytics.discipline b) = Some ((d + 5) / 10).
Proof.
  destruct discipline_fields as (_ & _ & -> & _).
  assert (H : all_between 0 100 (fun d =>
    let b := Analytics.work_rate_breakdown
               (Analytics.literal (scores_of "" 0 d) (DateObj 0)) in
    bool_decide (JS.to_Z (Analytics.attendance b) = Some ((4 * d + 5) / 10)) &&
    bool_decide (JS.to_Z (Analytics.taskCompletion b) = Some ((3 * d + 5) / 10)) &&
    bool_decide (JS.to_Z (Analytics.uploadFrequency b) = Some ((2 * d + 5) / 10)) &&
    bool_decide (JS.to_Z (Analytics.discipline b) = Some ((d + 5) / 10))) = true)
    by (vm_compute; reflexivity).
  apply all_between_spec with (z := d) in H; [|exact d_range].
  cbv zeta in H.
  repeat (apply andb_prop in H; destruct H as [H ?]).
  repeat match goal with
         | X : bool_decide _ = true |- _ => apply bool_decide_eq_true_1 in X
         end.
  subst canon. cbv zeta. auto.
Qed.

Lemma risk_closed_form :
  JS.to_Z (Analytics.risk_score a) = Some (100 - (101 - d) / 2) /\
  (Analytics.risk_level a = "high" <-> d < 60) /\
  (Analytics.risk_level a = "medium" <-> 60 <= d < 80) /\
  (Analytics.risk_level a = "low" <-> 80 <= d).
Proof.
  destruct discipline_fields as (_ & _ & _ & -> & ->).
  assert (H : all_between 0 100 (fun d =>
    let c := Analytics.literal (scores_of "" 0 d) (DateObj 0) in
    bool_decide (JS.to_Z (Analytics.risk_score c) = Some (100 - (101 - d) / 2)) &&
    bool_decide (Analytics.risk_level c =
                 if d <? 60 then "high" else if d <? 80 then "medium" else "low"))
    = true) by (vm_compute; reflexivity).
  apply all_between_spec with (z := d) in H; [|exact d_range].
  cbv zeta in H. apply andb_prop in H. destruct H as [H1 H2].
  apply bool_decide_eq_true_1 in H1, H2.
  subst canon. split; [exact H1|]. rewrite H2.
  destruct (Z.ltb_spec d 60); [|destruct (Z.ltb_spec d 80)];
    repeat split; intros; try lia; try discriminate; reflexivity.
Qed.

Lemma work_rate_closed_form :
  Analytics.work_rate_score a = JS.of_Z d /\
  (Analytics.work_rate_level a = "elite" <-> 90 <= d) /\
  (Analytics.work_rate_level a = "high" <-> 75 <= d < 90) /\
  (Analytics.work_rate_level a = "medium" <-> d < 75).
Proof.
  destruct discipline_fields as (_ & -> & _).
  split; [exact d_score|].
  assert (H : all_between 0 100 (fun d =>
    let c := Analytics.literal (scores_of "" 0 d) (DateObj 0) in
    bool_decide (Analytics.work_rate_level c =
                 if 90 <=? d then "elite" else if 75 <=? d then "high" else "medium"))
    = true) by (vm_compute; reflexivity).
  apply all_between_spec with (z := d) in H; [|exact d_range].
  cbv zeta in H. apply bool_decide_eq_true_1 in H.
  subst canon. rewrite H.
  destruct (Z.leb_spec 90 d); [|destruct (Z.leb_spec 75 d)];
    repeat split; intros; try lia; try discriminate; reflexivity.
Qed.

End Discipline.

(** ** Running asynchronous code *)

Lemma bind_ok {A B} (m : async A) (k : A -> async B) w a w' :
  m w = (Ok a, w') -> (m ≫= k) w = k a w'.
Proof. intros H. unfold mbind, async_bind. rewrite H. reflexivity. Qed.

Lemma bind_throw {A B} (m : async A) (k : A -> async B) w e w' :
  m w = (Throw e, w') -> (m ≫= k) w = (Throw e, w').
Proof. intros H. unfold mbind, async_bind. rewrite H. reflexivity. Qed.

Lemma select_ok {A} (s : statement) (rows : database -> A) w :
  outage w (length (issued w)) = None ->
  select s rows w = (Ok (rows (db w)), set_issued (issued w ++ [s]) w).
Proof. intros H. unfold select, query. rewrite H. reflexivity. Qed.

Lemma select_fail {A} (s : statement) (rows : database -> A) w sqlstate :
  outage w (length (issued w)) = Some sqlstate ->
  select s rows w = (Throw (PgError sqlstate), set_issued (issued w ++ [s]) w).
Proof. intros H. unfold select, query. rewrite H. reflexivity. Qed.

Lemma query_ok {A} (s : statement) (exec : database -> A * database) w :
  outage w (length (issued w)) = None ->
  query s exec w =
  (Ok (exec (db w)).1, set_db (exec (db w)).2 (set_issued (issued w ++ [s]) w)).
Proof.
  intros H. unfold query. rewrite H. cbn [db set_issued].
  destruct (exec (db w)). reflexivity.
Qed.

Lemma query_fail {A} (s : statement) (exec : database -> A * database) w sqlstate :
  outage w (length (issued w)) = Some sqlstate ->
  query s exec w = (Throw (PgError sqlstate), set_issued (issued w ++ [s]) w).
Proof. intros H. unfold query. rewrite H. reflexivity. Qed.

(** *** The fast cache never rejects *)

Lemma cache_get_total key w : cache_get key w = (Ok (cache_lookup w key), w).
Proof.
  unfold cache_lookup, cache_get.
  destruct (redisClient w) as [client|]; [|reflexivity].
  destruct (redisConnected w); [|reflexivity].
  unfold try_catch, mbind, async_bind, redis_get; cbn.
  destruct (rejecting client); [reflexivity|].
  destruct (entries client !! key) as [[text expiry]|]; [|reflexivity].
  destruct (now w <? expiry); [|reflexivity].
  destruct text; reflexivity.
Qed.

Lemma cache_lookup_frame w1 w2 key :
  redisClient w1 = redisClient w2 -> redisConnected w1 = redisConnected w2 ->
  now w1 = now w2 -> cache_lookup w1 key = cache_lookup w2 key.
Proof.
  intros Hc Hn Ht. unfold cache_lookup, cache_get. rewrite Hc, Hn.
  destruct (redisClient w2) as [client|]; [|reflexivity].
  destruct (redisConnected w2); [|reflexivity].
  unfold try_catch, mbind, async_bind, redis_get; cbn. rewrite Ht.
  destruct (rejecting client); [reflexivity|].
  destruct (entries client !! key) as [[text expiry]|]; [|reflexivity].
  destruct (now w2 <? expiry); [|reflexivity].
  destruct text; reflexivity.
Qed.

Lemma cache_lookup_down w key : cache_up w = false -> cache_lookup w key = None.
Proof.
  unfold cache_up, cache_lookup, cache_get.
  destruct (redisClient w) as [client|]; [|reflexivity].
  destruct (redisConnected w); [|reflexivity].
  unfold try_catch, mbind, async_bind, redis_get; cbn.
  destruct (rejecting client); [reflexivity|discriminate].
Qed.

Lemma cache_set_down key value ttl w :
  cache_up w = false -> cache_set key value ttl w = (Ok false, w).
Proof.
  unfold cache_up, cache_set.
  destruct (redisClient w) as [client|]; [|reflexivity].
  destruct (redisConnected w); [|reflexivity].
  unfold try_catch, mbind, async_bind, redis_setEx; cbn.
  destruct (rejecting client); [reflexivity|discriminate].
Qed.

Lemma cache_set_up key value ttl w client :
  redisClient w = Some client -> cache_up w = true -> 0 < ttl ->
  cache_set key value ttl w =
  (Ok true,
   set_redisClient
     (Some {| entries := <[key := (JSON_stringify value, now w + ttl * 1000)]>
                           (entries client);
              rejecting := false |}) w).
Proof.
  unfold cache_up, cache_set. intros -> Hup Httl.
  destruct (redisConnected w); [|discriminate].
  unfold try_catch, mbind, async_bind, redis_setEx; cbn.
  destruct (rejecting client); [discriminate|].
  destruct (Z.leb_spec ttl 0); [lia|reflexivity].
Qed.

(** Redis refuses an expiry that is not positive: nothing is written. *)
Lemma cache_set_refused key value ttl w :
  ttl <= 0 -> cache_set key value ttl w = (Ok false, w).
Proof.
  intros Httl. unfold cache_set.
  destruct (redisClient w) as [client|]; [|reflexivity].
  destruct (redisConnected w); [|reflexivity].
  unfold try_catch, mbind, async_bind, redis_setEx; cbn.
  destruct (rejecting client); [reflexivity|].
  destruct (Z.leb_spec ttl 0); [reflexivity|lia].
Qed.

Lemma cache_set_total key value ttl w :
  exists ok w', cache_set key value ttl w = (Ok ok, w') /\
    db w' = db w /\ issued w' = issued w /\ outage w' = outage w /\ now w' = now w /\
    redisConnected w' = redisConnected w.
Proof.
  destruct (Z.leb_spec ttl 0) as [Httl|Httl].
  { exists false, w. split; [apply cache_set_refused; exact Httl|]. repeat split. }
  destruct (cache_up w) eqn:Hup.
  - unfold cache_up in Hup. destruct (redisClient w) as [client|] eqn:Hc; [|discriminate].
    eexists _, _. split; [eapply cache_set_up; eauto|].
    + unfold cache_up. rewrite Hc. exact Hup.
    + repeat split.
  - exists false, w. split; [apply cache_set_down; exact Hup|]. repeat split.
Qed.

(** A value written with a time to live is read back until it expires. *)
Lemma cache_read_after_set key value ttl w t :
  cache_up w = true -> now w <= t < now w + ttl * 1000 ->
  cache_lookup (set_now t (cache_set key value ttl w).2) key
  = Some (Analytics.json_roundtrip value).
Proof.
  intros Hup Ht. pose proof Hup as Hup'. unfold cache_up in Hup'.
  destruct (redisClient w) as [client|] eqn:Hc; [|discriminate].
  rewrite (cache_set_up key value ttl w client Hc Hup) by lia.
  apply andb_prop in Hup'. destruct Hup' as [Hconn Hrej].
  unfold cache_lookup, cache_get. cbn. rewrite Hconn. cbn.
  unfold try_catch, mbind, async_bind, redis_get; cbn.
  rewrite lookup_insert_eq.
  destruct (Z.ltb_spec t (now w + ttl * 1000)); [reflexivity|lia].
Qed.

(** ** The three paths of [getPlayerAnalytics] *)

Lemma found_player_rows w id player :
  found_player w id = Some player ->
  exists rest, filter (fun p => Profile.id p = id) (player_profiles (db w)) = player :: rest.
Proof.
  unfold found_player.
  destruct (filter _ _) as [|p rest]; [discriminate|].
  intros [= ->]. eauto.
Qed.

Lemma mret_run {A} (a : A) (w : world) : (mret a : async A) w = (Ok a, w).
Proof. reflexivity. Qed.

Lemma bind_assoc {A B C} (m : async A) (f : A -> async B) (g : B -> async C) w :
  ((m ≫= f) ≫= g) w = (m ≫= (fun x => f x ≫= g)) w.
Proof. unfold mbind, async_bind. destruct (m w) as [[a|e] w']; reflexivity. Qed.

Lemma mret_bind {A B} (a : A) (k : A -> async B) w : (mret a ≫= k) w = k a w.
Proof. reflexivity. Qed.

Ltac next_statement :=
  erewrite bind_ok;
  [| apply select_ok; cbn [outage issued set_issued set_db set_redisClient];
     rewrite ?length_app; cbn [length Nat.add]; auto].

Lemma calculate_ok playerId player w :
  outage w (length (issued w)) = None ->
  let analytics := Analytics.literal player (DateObj (now w)) in
  calculatePlayerAnalytics playerId player w =
  (Ok analytics,
   set_db (upsert playerId analytics (now w) (db w))
     (set_issued (issued w ++ [UpsertAnalytics playerId]) w)).
Proof.
  intros H analytics. unfold calculatePlayerAnalytics.
  erewrite bind_ok; [|reflexivity].
  erewrite bind_ok; [|apply query_ok; exact H].
  reflexivity.
Qed.

Lemma calculate_fail playerId player w sqlstate :
  outage w (length (issued w)) = Some sqlstate ->
  calculatePlayerAnalytics playerId player w =
  (Throw (PgError sqlstate), set_issued (issued w ++ [UpsertAnalytics playerId]) w).
Proof.
  intros H. unfold calculatePlayerAnalytics.
  erewrite bind_ok; [|reflexivity].
  erewrite bind_throw; [|apply query_fail; exact H].
  reflexivity.
Qed.

(** The write-back fails: the rejection of [query] leaves
    [calculatePlayerAnalytics] and then [getPlayerAnalytics]. *)
Lemma analytics_upsert_failure w id player sqlstate :
  found_player w id = Some player ->
  cache_lookup w (analytics_key id) = None ->
  agent_analytics_cache (db w) !! id = None ->
  outage w (length (issued w)) = None ->
  outage w (S (length (issued w))) = None ->
  outage w (S (S (length (issued w)))) = Some sqlstate ->
  getPlayerAnalytics id w =
  (Throw (PgError sqlstate),
   set_issued (issued w ++ [SelectPlayer id; SelectAnalytics id; UpsertAnalytics id]) w).
Proof.
  intros Hfound Hmiss Hrow H0 H1 H2.
  destruct (found_player_rows _ _ _ Hfound) as [rest Hrows].
  unfold getPlayerAnalytics.
  erewrite bind_ok; [|apply select_ok; exact H0]. rewrite Hrows.
  erewrite bind_ok; [|apply cache_get_total].
  rewrite (cache_lookup_frame _ w) by reflexivity. rewrite Hmiss.
  rewrite !bind_assoc.
  erewrite bind_ok;
    [|apply select_ok; cbn [outage issued set_issued];
      rewrite length_app, Nat.add_1_r; exact H1].
  cbn [db set_issued]. rewrite Hrow.
  change (option_list None) with (@nil Analytics.t). cbv beta iota.
  rewrite !bind_assoc.
  erewrite bind_throw;
    [|apply calculate_fail; cbn [outage issued set_issued];
      rewrite !length_app, !Nat.add_1_r; exact H2].
  unfold set_issued; cbn. rewrite <- !app_assoc. reflexivity.
Qed.

(** [respond] copies every field. *)
Lemma respond_built_from id player analytics matches :
  built_from (respond id player analytics matches) id player analytics matches.
Proof. repeat split. Qed.

(** A fast-cache hit, in every state of the store: the profile is read
    first and the matches last. *)
Lemma analytics_on_hit w id a :
  cache_lookup w (analytics_key id) = Some a ->
  getPlayerAnalytics id w =
  match outage w (length (issued w)) with
  | Some sqlstate =>
      (Throw (PgError sqlstate), set_issued (issued w ++ [SelectPlayer id]) w)
  | None =>
      match found_player w id with
      | None =>
          (Throw (AppError "Player not found" 404 None),
           set_issued (issued w ++ [SelectPlayer id]) w)
      | Some player =>
          match outage w (S (length (issued w))) with
          | Some sqlstate =>
              (Throw (PgError sqlstate),
               set_issued (issued w ++ [SelectPlayer id; SelectMatches id]) w)
          | None =>
              (Ok (respond id player a (recent_matches (db w) id)),
               set_issued (issued w ++ [SelectPlayer id; SelectMatches id]) w)
          end
      end
  end.
Proof.
  intros Hhit. unfold getPlayerAnalytics, found_player.
  destruct (outage w (length (issued w))) as [sqlstate|] eqn:E0.
  { erewrite bind_throw; [|apply select_fail; exact E0]. reflexivity. }
  erewrite bind_ok; [|apply select_ok; exact E0].
  destruct (filter _ _) as [|player rest]; [reflexivity|]. cbn [head].
  erewrite bind_ok; [|apply cache_get_total].
  rewrite (cache_lookup_frame _ w) by reflexivity. rewrite Hhit.
  erewrite bind_ok; [|apply mret_run].
  set (w1 := set_issued _ w).
  assert (Hn : length (issued w1) = S (length (issued w)))
    by (subst w1; cbn; rewrite length_app; cbn; lia).
  destruct (outage w (S (length (issued w)))) as [sqlstate|] eqn:E1.
  - erewrite bind_throw; [|apply select_fail; rewrite Hn; exact E1].
    subst w1. unfold set_issued; cbn. rewrite <- app_assoc. reflexivity.
  - erewrite bind_ok; [|apply select_ok; rewrite Hn; exact E1].
    rewrite mret_run. subst w1. unfold set_issued; cbn. rewrite <- app_assoc. reflexivity.
Qed.

Section GetAnalytics.

Variables (w : world) (id : string) (player : Profile.scores).
Hypothesis player_found : found_player w id = Some player.
Hypothesis up : store_up w.

Lemma analytics_fast_hit a :
  cache_lookup w (analytics_key id) = Some a ->
  getPlayerAnalytics id w =
  (Ok (respond id player a (recent_matches (db w) id)),
   set_issued (issued w ++ [SelectPlayer id; SelectMatches id]) w).
Proof.
  intros Hhit. destruct (found_player_rows _ _ _ player_found) as [rest Hrows].
  unfold getPlayerAnalytics.
  next_statement. rewrite Hrows.
  erewrite bind_ok; [|apply cache_get_total].
  rewrite (cache_lookup_frame _ w) by reflexivity. rewrite Hhit.
  erewrite bind_ok; [|apply mret_run].
  next_statement.
  rewrite mret_run. unfold set_issued; cbn. rewrite <- app_assoc. reflexivity.
Qed.

Lemma analytics_durable_hit row :
  cache_lookup w (analytics_key id) = None ->
  agent_analytics_cache (db w) !! id = Some row ->
  let w1 := set_issued (issued w ++ [SelectPlayer id; SelectAnalytics id]) w in
  getPlayerAnalytics id w =
  (Ok (respond id player row (recent_matches (db w) id)),
   set_issued (issued w ++ [SelectPlayer id; SelectAnalytics id; SelectMatches id])
     (cache_set (analytics_key id) row 3600 w1).2).
Proof.
  intros Hmiss Hrow w1. destruct (found_player_rows _ _ _ player_found) as [rest Hrows].
  unfold getPlayerAnalytics.
  next_statement. rewrite Hrows.
  erewrite bind_ok; [|apply cache_get_total].
  rewrite (cache_lookup_frame _ w) by reflexivity. rewrite Hmiss.
  rewrite !bind_assoc. next_statement.
  cbn [db set_issued]. rewrite Hrow.
  change (option_list (Some row)) with [row]. cbv beta iota.
  rewrite !bind_assoc, mret_bind, !bind_assoc.
  match goal with |- context [cache_set ?k ?v ?t] =>
    destruct (cache_set_total k v t w1) as (ok & w2 & Hset & Hdb & Hiss & Hout & _) end.
  match goal with |- _ ?wx = _ =>
    assert (Hw1 : wx = w1)
      by (subst w1; unfold set_issued; cbn; rewrite <- app_assoc; reflexivity);
    rewrite Hw1 end.
  erewrite bind_ok; [|exact Hset]. rewrite mret_bind.
  erewrite bind_ok; [|apply select_ok; rewrite Hout, Hiss; apply up].
  rewrite mret_run, Hset, Hdb, Hiss. subst w1; cbn.
  rewrite <- app_assoc. reflexivity.
Qed.

Lemma analytics_double_miss :
  cache_lookup w (analytics_key id) = None ->
  agent_analytics_cache (db w) !! id = None ->
  let analytics := Analytics.literal player (DateObj (now w)) in
  let w2 := set_db (upsert id analytics (now w) (db w))
              (set_issued (issued w ++ [SelectPlayer id; SelectAnalytics id;
                                        UpsertAnalytics id]) w) in
  getPlayerAnalytics id w =
  (Ok (respond id player analytics (recent_matches (db w) id)),
   set_issued (issued w ++ [SelectPlayer id; SelectAnalytics id;
                            UpsertAnalytics id; SelectMatches id])
     (cache_set (analytics_key id) analytics 3600 w2).2).
Proof.
  intros Hmiss Hrow analytics w2.
  destruct (found_player_rows _ _ _ player_found) as [rest Hrows].
  unfold getPlayerAnalytics.
  next_statement. rewrite Hrows.
  erewrite bind_ok; [|apply cache_get_total].
  rewrite (cache_lookup_frame _ w) by reflexivity. rewrite Hmiss.
  rewrite !bind_assoc. next_statement.
  cbn [db set_issued]. rewrite Hrow.
  change (option_list None) with (@nil Analytics.t). cbv beta iota.
  rewrite !bind_assoc.
  erewrite bind_ok; [|apply calculate_ok; apply up].
  match goal with |- _ ?wx = _ =>
    assert (Hw2 : wx = w2)
      by (subst w2 analytics; unfold set_db, set_issued; cbn;
          rewrite <- !app_assoc; reflexivity);
    rewrite Hw2 end.
  cbn [now set_issued]. rewrite !bind_assoc.
  destruct (cache_set_total (analytics_key id) analytics 3600 w2)
    as (ok & w3 & Hset & Hdb & Hiss & Hout & _).
  erewrite bind_ok; [|exact Hset]. rewrite mret_bind.
  erewrite bind_ok; [|apply select_ok; rewrite Hout, Hiss; apply up].
  rewrite mret_run, Hset, Hdb, Hiss. subst w2; cbn.
  rewrite <- app_assoc. reflexivity.
Qed.

End GetAnalytics.

(** ** The derivation *)

(** C6. On a double cache miss for a player with novaScore 90 and
    disciplineScore 95 (and the store up), the request succeeds and its data
    have performance.overall = 90, consistency.score = 81, workRate.score =
    95 with level "elite", and risk.score = 97 with level "low".
    performance.overall is the player's nova score as the driver handed it
    over, passed on untouched: the text "90.0" with node-pg as it comes, the
    number 90 where NUMERIC columns are parsed; either way its value is
    90. *)
Theorem miss_then_derive w id player :
  found_player w id = Some player ->
  JS.numeric_value (Profile.nova_score player) = 90%float ->
  Profile.discipline_score player = 95%float ->
  store_up w ->
  cache_lookup w (analytics_key id) = None ->
  agent_analytics_cache (db w) !! id = None ->
  exists data w',
    asyncHandler (getPlayerAnalytics id) w = (Success data, w') /\
    Analytics.overall (AnalyticsResponse.performance data) = Profile.nova_score player /\
    JS.numeric_value (Analytics.overall (AnalyticsResponse.performance data)) = 90%float /\
    AnalyticsResponse.score (AnalyticsResponse.consistency data) = 81%float /\
    AnalyticsResponse.score (AnalyticsResponse.workRate data) = 95%float /\
    AnalyticsResponse.level (AnalyticsResponse.workRate data) = "elite" /\
    AnalyticsResponse.score (AnalyticsResponse.risk data) = 97%float /\
    AnalyticsResponse.level (AnalyticsResponse.risk data) = "low".
Proof.
  intros Hfound Hnova Hdisc Hup Hmiss Hrow.
  unfold asyncHandler.
  rewrite (analytics_double_miss w id player Hfound Hup Hmiss Hrow).
  eexists _, _. split; [reflexivity|].
  unfold respond, Analytics.literal;
    cbn -[JS.Math_round JS.ge PrimFloat.mul PrimFloat.sub JS.numeric_value].
  rewrite Hnova, Hdisc.
  repeat split; vm_compute; reflexivity.
Qed.

(** Alice's nova score comes as the text "90.0". *)
Lemma miss_then_derive_alice :
  exists data w',
    asyncHandler (getPlayerAnalytics "alice") sample_world = (Success data, w') /\
    Analytics.overall (AnalyticsResponse.performance data) = JS.Text 900 /\
    JS.text_of_tenths 900 = "90.0" /\
    JS.numeric_value (Analytics.overall (AnalyticsResponse.performance data)) = 90%float /\
    AnalyticsResponse.score (AnalyticsResponse.consistency data) = 81%float /\
    AnalyticsResponse.score (AnalyticsResponse.workRate data) = 95%float /\
    AnalyticsResponse.level (AnalyticsResponse.workRate data) = "elite" /\
    AnalyticsResponse.score (AnalyticsResponse.risk data) = 97%float /\
    AnalyticsResponse.level (AnalyticsResponse.risk data) = "low".
Proof.
  destruct (miss_then_derive sample_world "alice" alice)
    as (data & w' & Hrun & Hoverall & Hvalue & Hrest).
  - vm_compute; reflexivity.
  - vm_compute; reflexivity.
  - vm_compute; reflexivity.
  - intros n; reflexivity.
  - vm_compute; reflexivity.
  - vm_compute; reflexivity.
  - exists data, w'. split; [exact Hrun|]. split; [exact Hoverall|].
    split; [vm_compute; reflexivity|]. split; [exact Hvalue|exact Hrest].
Defined.

(** The same player with the nova score parsed by the driver: the derived
    numbers are the same, and performance.overall is the number. *)
Example miss_then_derive_parsed :
  let player := {| Profile.id := "alice"; Profile.nova_score := JS.Parsed 90%float;
                   Profile.discipline_score := 95%float |} in
  let a := Analytics.literal player (DateObj 0) in
  Analytics.overall (Analytics.performance_data a) = JS.Parsed 90%float /\
  Analytics.consistency_score a = 81%float /\
  Analytics.risk_score a = 97%float.
Proof. repeat split; vm_compute; reflexivity. Qed.

(** C7. For a discipline score d in 0..100 each work-rate component is the
    bare rounding of its share of the score (0.4, 0.3, 0.2, 0.1), nothing is
    re-normalized afterwards, and the four components sum to the score
    within 4. *)
Theorem breakdown_sums_to_score p date d :
  0 <= d <= 100 ->
  Profile.discipline_score p = JS.of_Z d ->
  let a := Analytics.literal p date in
  let b := Analytics.work_rate_breakdown a in
  let score := Analytics.work_rate_score a in
  score = JS.of_Z d /\
  Analytics.attendance b = JS.Math_round (score * 0.4)%float /\
  Analytics.taskCompletion b = JS.Math_round (score * 0.3)%float /\
  Analytics.uploadFrequency b = JS.Math_round (score * 0.2)%float /\
  Analytics.discipline b = JS.Math_round (score * 0.1)%float /\
  exists s,
    breakdown_sum b = Some s /\
    s = (4 * d + 5) / 10 + (3 * d + 5) / 10 + (2 * d + 5) / 10 + (d + 5) / 10 /\
    -4 <= s - d <= 4.
Proof.
  intros Hd Hp a b score.
  destruct (breakdown_closed_form p date d Hd Hp) as (Ha & Ht & Hu & Hc).
  split; [exact Hp|]. do 4 (split; [reflexivity|]).
  eexists. split; [|split; [reflexivity|]].
  - unfold breakdown_sum. subst b a. rewrite Ha, Ht, Hu, Hc. reflexivity.
  - pose proof (Z.div_mod (4 * d + 5) 10 ltac:(lia)).
    pose proof (Z.mod_pos_bound (4 * d + 5) 10 ltac:(lia)).
    pose proof (Z.div_mod (3 * d + 5) 10 ltac:(lia)).
    pose proof (Z.mod_pos_bound (3 * d + 5) 10 ltac:(lia)).
    pose proof (Z.div_mod (2 * d + 5) 10 ltac:(lia)).
    pose proof (Z.mod_pos_bound (2 * d + 5) 10 ltac:(lia)).
    pose proof (Z.div_mod (d + 5) 10 ltac:(lia)).
    pose proof (Z.mod_pos_bound (d + 5) 10 ltac:(lia)).
    lia.
Qed.

(** At d = 5 the components are 2, 2, 1 and 1: they sum to 6, not to 5. *)
Lemma breakdown_drift_at_5 :
  let b := Analytics.work_rate_breakdown (Analytics.literal (scores_of "p" 500 5) (DateObj 0)) in
  exists s, breakdown_sum b = Some s /\ s = 6 /\ -4 <= s - 5 <= 4.
Proof.
  destruct (breakdown_sums_to_score (scores_of "p" 500 5) (DateObj 0) 5
              ltac:(lia) eq_refl) as (_ & _ & _ & _ & _ & s & Hs & Heq & Hb).
  exists s. split; [exact Hs|]. split; [rewrite Heq; reflexivity|exact Hb].
Defined.

(** C9. The derivation run twice, at any two instants and against any two
    states of the store and cache, on players with the same nova and
    discipline scores, gives records that agree on every field except
    last_calculated_at; and it does give a record whenever the store accepts
    the write. *)
Theorem derivation_deterministic playerId1 playerId2 p1 p2 w1 w2 :
  Profile.nova_score p1 = Profile.nova_score p2 ->
  Profile.discipline_score p1 = Profile.discipline_score p2 ->
  (forall a1 w1' a2 w2',
     calculatePlayerAnalytics playerId1 p1 w1 = (Ok a1, w1') ->
     calculatePlayerAnalytics playerId2 p2 w2 = (Ok a2, w2') ->
     Analytics.same_except_timestamp a1 a2) /\
  (outage w1 (length (issued w1)) = None ->
   exists a1 w1', calculatePlayerAnalytics playerId1 p1 w1 = (Ok a1, w1')).
Proof.
  intros Hn Hd. split.
  - intros a1 w1' a2 w2' H1 H2.
    destruct (outage w1 (length (issued w1))) as [c|] eqn:E1;
      [rewrite (calculate_fail _ _ _ _ E1) in H1; discriminate|].
    destruct (outage w2 (length (issued w2))) as [c|] eqn:E2;
      [rewrite (calculate_fail _ _ _ _ E2) in H2; discriminate|].
    rewrite (calculate_ok _ _ _ E1) in H1. rewrite (calculate_ok _ _ _ E2) in H2.
    injection H1 as <- _. injection H2 as <- _.
    unfold Analytics.same_except_timestamp, Analytics.literal; cbn.
    rewrite Hn, Hd. repeat split.
  - intros E1. eexists _, _. apply calculate_ok. exact E1.
Qed.

Lemma derivation_deterministic_alice :
  (forall a1 w1' a2 w2',
     calculatePlayerAnalytics "alice" alice sample_world = (Ok a1, w1') ->
     calculatePlayerAnalytics "alice" alice degraded_world = (Ok a2, w2') ->
     Analytics.same_except_timestamp a1 a2) /\
  (outage sample_world (length (issued sample_world)) = None ->
   exists a1 w1', calculatePlayerAnalytics "alice" alice sample_world = (Ok a1, w1')).
Proof.
  apply (derivation_deterministic "alice" "alice" alice alice sample_world degraded_world);
    reflexivity.
Defined.

(** C10, as stated, fails: with disciplineScore 50 the derived risk level is
    "high" although the risk score is 75 and 50 is not below 20. *)
Lemma risk_high_at_50 :
  Analytics.risk_level (Analytics.literal (scores_of "p" 500 50) (DateObj 0)) = "high" /\
  JS.to_Z (Analytics.risk_score (Analytics.literal (scores_of "p" 500 50) (DateObj 0)))
    = Some 75 /\
  ~ (75 < 60) /\ ~ (50 < 20).
Proof. repeat split; try (vm_compute; reflexivity); lia. Qed.

(** C10, amended. For a discipline score d in 0..100 the risk score is the
    integer 100 - round((100 - d) / 2), it lies in [50, 100], and it is
    below 60 exactly when d < 20; the risk level is classified from the
    discipline score, not from the risk score: it is "high" exactly when
    d < 60, "medium" exactly when 60 <= d < 80 and "low" exactly when
    80 <= d. *)
Theorem risk_score_bounds p date d :
  0 <= d <= 100 ->
  Profile.discipline_score p = JS.of_Z d ->
  let a := Analytics.literal p date in
  Analytics.risk_score a
    = (100 - JS.Math_round ((100 - Profile.discipline_score p) * 0.5))%float /\
  exists r,
    JS.to_Z (Analytics.risk_score a) = Some r /\
    50 <= r <= 100 /\
    (r < 60 <-> d < 20) /\
    (Analytics.risk_level a = "high" <-> d < 60) /\
    (Analytics.risk_level a = "medium" <-> 60 <= d < 80) /\
    (Analytics.risk_level a = "low" <-> 80 <= d).
Proof.
  intros Hd Hp a. split; [reflexivity|].
  destruct (risk_closed_form p date d Hd Hp) as (Hr & Hhigh & Hmedium & Hlow).
  eexists. split; [exact Hr|].
  pose proof (Z.div_mod (101 - d) 2 ltac:(lia)).
  pose proof (Z.mod_pos_bound (101 - d) 2 ltac:(lia)).
  split; [lia|]. split; [split; lia|].
  split; [exact Hhigh|]. split; [exact Hmedium|exact Hlow].
Qed.

Lemma risk_score_bounds_at_0 :
  let a := Analytics.literal (scores_of "p" 500 0) (DateObj 0) in
  Analytics.risk_score a
    = (100 - JS.Math_round ((100 - Profile.discipline_score (scores_of "p" 500 0)) * 0.5))%float /\
  exists r,
    JS.to_Z (Analytics.risk_score a) = Some r /\
    50 <= r <= 100 /\
    (r < 60 <-> 0 < 20) /\
    (Analytics.risk_level a = "high" <-> 0 < 60) /\
    (Analytics.risk_level a = "medium" <-> 60 <= 0 < 80) /\
    (Analytics.risk_level a = "low" <-> 80 <= 0).
Proof.
  apply (risk_score_bounds (scores_of "p" 500 0) (DateObj 0) 0); [lia|reflexivity].
Defined.

(** ** The cache coordinator *)

(** C2, as stated, fails: on a double miss whose write-back is rejected by
    the store, the request ends in the error response and no data are
    returned. *)
Lemma write_back_failure_surfaces :
  found_player write_outage_world "alice" = Some alice /\
  cache_lookup write_outage_world (analytics_key "alice") = None /\
  agent_analytics_cache (db write_outage_world) !! "alice" = None /\
  (calculatePlayerAnalytics "alice" alice
     (set_issued [SelectPlayer "alice"; SelectAnalytics "alice"] write_outage_world)).1
    = Throw (PgError "08006") /\
  (asyncHandler (getPlayerAnalytics "alice") write_outage_world).1
    = Failure 500 "08006" /\
  ~ (exists data, (asyncHandler (getPlayerAnalytics "alice") write_outage_world).1
                  = Success data).
Proof.
  assert (H : (asyncHandler (getPlayerAnalytics "alice") write_outage_world).1
              = Failure 500 "08006") by (vm_compute; reflexivity).
  repeat split; try (vm_compute; reflexivity); try exact H.
  intros [data Hdata]. rewrite H in Hdata. discriminate.
Qed.

(** What [errorHandler] answers to a rejected statement. *)
Lemma errorHandler_pg {A} sqlstate :
  http_status (@errorHandler A (PgError sqlstate)) =
  if bool_decide (sqlstate = "23503") then 400
  else if bool_decide (sqlstate = "23505") then 409 else 500.
Proof.
  unfold errorHandler; cbn.
  repeat case_bool_decide; simplify_eq; reflexivity.
Qed.

(** C2, amended. On the derive-and-persist path, when the store rejects the
    upsert, the rejection propagates: [getPlayerAnalytics] rejects with the
    store's error, the client receives the error response (status 500 unless
    the SQLSTATE is one that [errorHandler] maps to 400 or 409), no record is
    returned, and neither the fast cache nor the durable store is written. *)
Theorem write_back_failure_propagates w id player sqlstate :
  found_player w id = Some player ->
  cache_lookup w (analytics_key id) = None ->
  agent_analytics_cache (db w) !! id = None ->
  outage w (length (issued w)) = None ->
  outage w (S (length (issued w))) = None ->
  outage w (S (S (length (issued w)))) = Some sqlstate ->
  exists w',
    getPlayerAnalytics id w = (Throw (PgError sqlstate), w') /\
    asyncHandler (getPlayerAnalytics id) w = (errorHandler (PgError sqlstate), w') /\
    http_status (asyncHandler (getPlayerAnalytics id) w).1 =
      (if bool_decide (sqlstate = "23503") then 400
       else if bool_decide (sqlstate = "23505") then 409 else 500) /\
    redisClient w' = redisClient w /\
    db w' = db w /\
    issued w' = issued w ++ [SelectPlayer id; SelectAnalytics id; UpsertAnalytics id].
Proof.
  intros Hfound Hmiss Hrow H0 H1 H2.
  pose proof (analytics_upsert_failure w id player sqlstate Hfound Hmiss Hrow H0 H1 H2) as Hrun.
  eexists. split; [exact Hrun|].
  unfold asyncHandler. rewrite Hrun. cbn [fst].
  split; [reflexivity|]. split; [apply errorHandler_pg|].
  repeat split.
Qed.

Lemma write_back_failure_propagates_alice :
  exists w',
    getPlayerAnalytics "alice" write_outage_world = (Throw (PgError "08006"), w') /\
    asyncHandler (getPlayerAnalytics "alice") write_outage_world
      = (errorHandler (PgError "08006"), w') /\
    http_status (asyncHandler (getPlayerAnalytics "alice") write_outage_world).1 =
      (if bool_decide ("08006" = "23503") then 400
       else if bool_decide ("08006" = "23505") then 409 else 500) /\
    redisClient w' = redisClient write_outage_world /\
    db w' = db write_outage_world /\
    issued w' = issued write_outage_world
                  ++ [SelectPlayer "alice"; SelectAnalytics "alice"; UpsertAnalytics "alice"].
Proof.
  apply (write_back_failure_propagates write_outage_world "alice" alice "08006");
    vm_compute; reflexivity.
Defined.

Lemma cache_entry_after_set key value ttl w :
  cache_up w = true -> 0 < ttl ->
  exists client,
    redisClient (cache_set key value ttl w).2 = Some client /\
    entries client !! key = Some (JSON_stringify value, now w + ttl * 1000).
Proof.
  intros Hup Httl. pose proof Hup as Hup'. unfold cache_up in Hup'.
  destruct (redisClient w) as [client|] eqn:Hc; [|discriminate].
  rewrite (cache_set_up key value ttl w client Hc Hup Httl). cbn.
  eexists. split; [reflexivity|]. cbn. apply lookup_insert_eq.
Qed.

(** C5, as stated, fails: a fast-cache hit is not returned immediately and
    without the store.  The handler reads the player's profile before it
    asks the cache and the recent matches after: with the entry for alice
    in Redis, the request is answered 500 when the store is unreachable and
    404 when her profile is gone, and when it is answered with the entry,
    two statements have been sent to the store. *)
Lemma fast_hit_needs_the_store :
  cache_lookup warm_store_down_world (analytics_key "alice")
    = Some (Analytics.json_roundtrip (Analytics.literal alice (DateObj 1700000000000))) /\
  (asyncHandler (getPlayerAnalytics "alice") warm_store_down_world).1
    = Failure 500 "08006" /\
  cache_lookup warm_no_profile_world (analytics_key "alice")
    = Some (Analytics.json_roundtrip (Analytics.literal alice (DateObj 1700000000000))) /\
  (asyncHandler (getPlayerAnalytics "alice") warm_no_profile_world).1
    = Failure 404 "INTERNAL_ERROR" /\
  cache_lookup warm_world (analytics_key "alice")
    = Some (Analytics.json_roundtrip (Analytics.literal alice (DateObj 1700000000000))) /\
  issued (asyncHandler (getPlayerAnalytics "alice") warm_world).2
    = issued warm_world ++ [SelectPlayer "alice"; SelectMatches "alice"].
Proof. repeat split; vm_compute; reflexivity. Qed.

(** C5, amended. [getPlayerAnalytics] reads the player's profile first and
    the recent matches last; in between it looks up the fast cache, then the
    analytics table, then derives, and stops at the first hit:
    - on a fast-cache hit the analytics table is neither read nor written
      and Redis is not written; the entry is the answer when the profile is
      there and both statements are answered, the answer is 404 when there
      is no profile, and it is the response to the store's error when a
      statement fails;
    - for a player with a profile and with the store answering, a row of the
      analytics table, whatever its age, is the answer on a fast-cache miss
      and, the fast cache being up, is what the cache returns for the key
      during the next hour;
    - otherwise the derived record is the answer, it is the player's row of
      the analytics table afterwards and, the fast cache being up, is held
      there with an expiry one hour ahead and returned for the key during
      that hour.
    What the cache returns is the record after its trip through JSON, which
    is stated for records whose numbers are finite. *)
Theorem analytics_lookup_order w id :
  let key := analytics_key id in
  let matches := recent_matches (db w) id in
  let n := length (issued w) in
  (forall a,
     cache_lookup w key = Some a ->
     exists resp w',
       asyncHandler (getPlayerAnalytics id) w = (resp, w') /\
       db w' = db w /\ redisClient w' = redisClient w /\
       (exists sent,
          issued w' = issued w ++ sent /\
          Forall (fun s => s ∈ [SelectPlayer id; SelectMatches id]) sent) /\
       (forall sqlstate, outage w n = Some sqlstate ->
          resp = errorHandler (PgError sqlstate)) /\
       (outage w n = None -> found_player w id = None ->
          resp = Failure 404 "INTERNAL_ERROR") /\
       (forall player sqlstate,
          outage w n = None -> found_player w id = Some player ->
          outage w (S n) = Some sqlstate ->
          resp = errorHandler (PgError sqlstate)) /\
       (forall player,
          outage w n = None -> found_player w id = Some player ->
          outage w (S n) = None ->
          issued w' = issued w ++ [SelectPlayer id; SelectMatches id] /\
          exists data, resp = Success data /\ built_from data id player a matches)) /\
  (forall player row,
     found_player w id = Some player -> store_up w ->
     cache_lookup w key = None ->
     agent_analytics_cache (db w) !! id = Some row ->
     exists data w',
       asyncHandler (getPlayerAnalytics id) w = (Success data, w') /\
       built_from data id player row matches /\
       issued w' = issued w ++ [SelectPlayer id; SelectAnalytics id; SelectMatches id] /\
       db w' = db w /\
       (cache_up w = true -> Analytics.finite row = true ->
        forall t, now w <= t < now w + 3600 * 1000 ->
          cache_lookup (set_now t w') key = Some (Analytics.json_roundtrip row))) /\
  (forall player,
     found_player w id = Some player -> store_up w ->
     cache_lookup w key = None ->
     agent_analytics_cache (db w) !! id = None ->
     let derived := Analytics.literal player (DateObj (now w)) in
     exists data w',
       asyncHandler (getPlayerAnalytics id) w = (Success data, w') /\
       built_from data id player derived matches /\
       issued w' = issued w ++ [SelectPlayer id; SelectAnalytics id;
                                UpsertAnalytics id; SelectMatches id] /\
       agent_analytics_cache (db w') !! id = Some derived /\
       (cache_up w = true -> Analytics.finite derived = true ->
        (exists client,
           redisClient w' = Some client /\
           entries client !! key = Some (JSON_stringify derived, now w + 3600 * 1000)) /\
        forall t, now w <= t < now w + 3600 * 1000 ->
          cache_lookup (set_now t w') key = Some (Analytics.json_roundtrip derived))).
Proof.
  intros key matches n. split; [|split].
  - intros a Hhit. unfold asyncHandler.
    rewrite (analytics_on_hit w id a Hhit). fold n.
    destruct (outage w n) as [s0|] eqn:E0.
    { eexists _, _. split; [reflexivity|]. split; [reflexivity|]. split; [reflexivity|].
      split; [exists [SelectPlayer id]; split; [reflexivity|]; repeat constructor|].
      split; [intros ? [= <-]; reflexivity|].
      repeat split; intros; discriminate. }
    destruct (found_player w id) as [player|] eqn:Hfound.
    2:{ eexists _, _. split; [reflexivity|]. split; [reflexivity|]. split; [reflexivity|].
        split; [exists [SelectPlayer id]; split; [reflexivity|]; repeat constructor|].
        split; [intros; discriminate|]. split; [reflexivity|].
        split; intros; discriminate. }
    destruct (outage w (S n)) as [s1|] eqn:E1.
    + eexists _, _. split; [reflexivity|]. split; [reflexivity|]. split; [reflexivity|].
      split.
      { exists [SelectPlayer id; SelectMatches id]. split; [reflexivity|].
        repeat constructor. }
      split; [intros; discriminate|]. split; [intros; discriminate|].
      split; [intros ? ? _ _ [= <-]; reflexivity|]. intros; discriminate.
    + eexists _, _. split; [reflexivity|]. split; [reflexivity|]. split; [reflexivity|].
      split.
      { exists [SelectPlayer id; SelectMatches id]. split; [reflexivity|].
        repeat constructor. }
      split; [intros; discriminate|]. split; [intros; discriminate|].
      split; [intros; discriminate|].
      intros player' _ [= <-] _. split; [reflexivity|].
      eexists. split; [reflexivity|]. apply respond_built_from.
  - intros player row Hfound Hup Hmiss Hrow. unfold asyncHandler.
    rewrite (analytics_durable_hit w id player Hfound Hup row Hmiss Hrow).
    eexists _, _. split; [reflexivity|]. split; [apply respond_built_from|].
    set (w1 := set_issued (issued w ++ [SelectPlayer id; SelectAnalytics id]) w).
    destruct (cache_set_total key row 3600 w1) as (ok & w2 & Hset & Hdb & _).
    fold key. rewrite Hset. cbn [snd]. split; [reflexivity|].
    split; [exact Hdb|].
    intros Hcache _ t Ht.
    rewrite (cache_lookup_frame _ (set_now t w2)) by reflexivity.
    replace w2 with (cache_set key row 3600 w1).2 by (rewrite Hset; reflexivity).
    apply cache_read_after_set; [exact Hcache|exact Ht].
  - intros player Hfound Hup Hmiss Hrow derived. unfold asyncHandler.
    rewrite (analytics_double_miss w id player Hfound Hup Hmiss Hrow).
    eexists _, _. split; [reflexivity|]. split; [apply respond_built_from|].
    fold key derived.
    set (w2 := set_db (upsert id derived (now w) (db w)) _).
    destruct (cache_set_total key derived 3600 w2) as (ok & w3 & Hset & Hdb & _).
    rewrite Hset. cbn [snd]. split; [reflexivity|].
    split.
    { cbn [db set_issued]. rewrite Hdb. subst w2. cbn.
      rewrite lookup_insert_eq. reflexivity. }
    intros Hcache _.
    assert (Hw3 : w3 = (cache_set key derived 3600 w2).2) by (rewrite Hset; reflexivity).
    split.
    + cbn [redisClient set_issued]. rewrite Hw3.
      apply (cache_entry_after_set key derived 3600 w2 Hcache). lia.
    + intros t Ht.
      rewrite (cache_lookup_frame _ (set_now t w3)) by reflexivity.
      rewrite Hw3. apply cache_read_after_set; [exact Hcache|exact Ht].
Qed.

Lemma analytics_lookup_order_alice :
  (exists data w',
     asyncHandler (getPlayerAnalytics "alice") warm_world = (Success data, w') /\
     built_from data "alice" alice
       (Analytics.json_roundtrip (Analytics.literal alice (DateObj 1700000000000)))
       (recent_matches (db warm_world) "alice") /\
     issued w' = issued warm_world ++ [SelectPlayer "alice"; SelectMatches "alice"] /\
     db w' = db warm_world /\ redisClient w' = redisClient warm_world) /\
  (exists data w',
     asyncHandler (getPlayerAnalytics "alice") sample_world = (Success data, w') /\
     built_from data "alice" alice (Analytics.literal alice (DateObj (now sample_world)))
       (recent_matches (db sample_world) "alice") /\
     forall t, now sample_world <= t < now sample_world + 3600 * 1000 ->
       cache_lookup (set_now t w') (analytics_key "alice")
       = Some (Analytics.json_roundtrip
                 (Analytics.literal alice (DateObj (now sample_world))))).
Proof.
  split.
  - destruct (analytics_lookup_order warm_world "alice") as (Hhit & _ & _).
    destruct (Hhit (Analytics.json_roundtrip (Analytics.literal alice (DateObj 1700000000000))))
      as (resp & w' & Hrun & Hdb & Hredis & _ & _ & _ & _ & Hserved);
      [vm_compute; reflexivity|].
    destruct (Hserved alice) as (Hlog & data & -> & Hdata);
      [reflexivity | vm_compute; reflexivity | reflexivity |].
    exists data, w'. auto.
  - destruct (analytics_lookup_order sample_world "alice") as (_ & _ & Hmiss).
    destruct (Hmiss alice) as (data & w' & Hrun & Hdata & _ & _ & Hcache);
      [vm_compute; reflexivity | intros n; reflexivity
      | vm_compute; reflexivity | vm_compute; reflexivity |].
    exists data, w'. split; [exact Hrun|]. split; [exact Hdata|].
    apply Hcache; vm_compute; reflexivity.
Defined.

(** The three paths on the sample data: a first request derives and
    persists, a second one within the hour is served by Redis without
    reading the analytics table, and one after expiry is served by the
    table. *)
Example first_request_derives :
  issued (asyncHandler (getPlayerAnalytics "alice") sample_world).2
  = [SelectPlayer "alice"; SelectAnalytics "alice"; UpsertAnalytics "alice";
     SelectMatches "alice"].
Proof. vm_compute; reflexivity. Qed.

Example second_request_from_redis :
  issued (asyncHandler (getPlayerAnalytics "alice") warm_world).2
  = issued warm_world ++ [SelectPlayer "alice"; SelectMatches "alice"].
Proof. vm_compute; reflexivity. Qed.

Example late_request_from_store :
  cache_lookup expired_world (analytics_key "alice") = None /\
  issued (asyncHandler (getPlayerAnalytics "alice") expired_world).2
  = issued expired_world
    ++ [SelectPlayer "alice"; SelectAnalytics "alice"; SelectMatches "alice"] /\
  (asyncHandler (getPlayerAnalytics "alice") expired_world).1
  = Success (respond "alice" alice (Analytics.literal alice (DateObj 1700000000000)) []).
Proof. repeat split; vm_compute; reflexivity. Qed.

(** ** The fast cache degrades silently *)

Lemma cache_down_cases w :
  cache_up w = false <->
  redisClient w = None \/ redisConnected w = false \/
  exists client, redisClient w = Some client /\ rejecting client = true.
Proof.
  unfold cache_up. split.
  - destruct (redisClient w) as [client|]; [|auto].
    destruct (redisConnected w); [|auto].
    destruct (rejecting client) eqn:E; [|discriminate]. eauto.
  - intros [-> | [H | (client & -> & H)]]; [reflexivity| |].
    + destruct (redisClient w); [|reflexivity]. rewrite H. reflexivity.
    + rewrite H. apply andb_false_r.
Qed.

(** C8. [cache.get] and [cache.set] always resolve, never reject; when the
    client is absent, disconnected, or rejecting its commands, [cache.get]
    gives null and [cache.set] gives false, leaving the world as it is; a
    stored text that does not parse reads as null; and with the fast cache
    in that state [getPlayerAnalytics] still answers from the durable store:
    every field of the data comes from the player's row of the analytics
    table when there is one, and from the derived record (persisted)
    otherwise. *)
Theorem fast_cache_never_raises key value ttl w :
  (exists v, cache_get key w = (Ok v, w)) /\
  (exists ok w', cache_set key value ttl w = (Ok ok, w')) /\
  (redisClient w = None \/ redisConnected w = false \/
   (exists client, redisClient w = Some client /\ rejecting client = true) ->
   cache_get key w = (Ok None, w) /\
   cache_set key value ttl w = (Ok false, w) /\
   forall id player,
     found_player w id = Some player -> store_up w ->
     (forall row,
        agent_analytics_cache (db w) !! id = Some row ->
        exists data w',
          asyncHandler (getPlayerAnalytics id) w = (Success data, w') /\
          built_from data id player row (recent_matches (db w) id)) /\
     (agent_analytics_cache (db w) !! id = None ->
      exists data w',
        asyncHandler (getPlayerAnalytics id) w = (Success data, w') /\
        built_from data id player (Analytics.literal player (DateObj (now w)))
          (recent_matches (db w) id) /\
        agent_analytics_cache (db w') !! id
        = Some (Analytics.literal player (DateObj (now w))))) /\
  (forall client expiry,
     redisClient w = Some client ->
     entries client !! key = Some (Malformed, expiry) ->
     cache_get key w = (Ok None, w)).
Proof.
  split; [eexists; apply cache_get_total|].
  split; [destruct (cache_set_total key value ttl w) as (ok & w' & H & _); eauto|].
  split.
  - intros Hdown. apply cache_down_cases in Hdown.
    split; [rewrite cache_get_total, cache_lookup_down by exact Hdown; reflexivity|].
    split; [apply cache_set_down; exact Hdown|].
    intros id player Hfound Hup. split.
    + intros row Hrow. unfold asyncHandler.
      rewrite (analytics_durable_hit w id player Hfound Hup row
                 (cache_lookup_down _ _ Hdown) Hrow).
      eexists _, _. split; [reflexivity|]. apply respond_built_from.
    + intros Hrow. unfold asyncHandler.
      rewrite (analytics_double_miss w id player Hfound Hup
                 (cache_lookup_down _ _ Hdown) Hrow).
      eexists _, _. split; [reflexivity|]. split; [apply respond_built_from|].
      rewrite cache_set_down by exact Hdown. cbn.
      rewrite lookup_insert_eq. reflexivity.
  - intros client expiry Hc He.
    rewrite cache_get_total. f_equal. f_equal.
    unfold cache_lookup, cache_get. rewrite Hc.
    destruct (redisConnected w); [|reflexivity].
    unfold try_catch, mbind, async_bind, redis_get; cbn.
    destruct (rejecting client); [reflexivity|]. rewrite He.
    destruct (now w <? expiry); reflexivity.
Qed.

Lemma fast_cache_never_raises_degraded :
  cache_get (analytics_key "bob") degraded_world = (Ok None, degraded_world) /\
  cache_set (analytics_key "bob") bob_analytics 3600 degraded_world
    = (Ok false, degraded_world) /\
  exists data w',
    asyncHandler (getPlayerAnalytics "bob") degraded_world = (Success data, w') /\
    built_from data "bob" bob bob_analytics (recent_matches (db degraded_world) "bob").
Proof.
  destruct (fast_cache_never_raises (analytics_key "bob") bob_analytics 3600 degraded_world)
    as (_ & _ & Hdown & _).
  destruct (Hdown (or_introl eq_refl)) as (Hget & Hset & Hserve).
  split; [exact Hget|]. split; [exact Hset|].
  destruct (Hserve "bob" bob) as [Hrow _];
    [vm_compute; reflexivity | intros n; reflexivity |].
  apply (Hrow bob_analytics). vm_compute; reflexivity.
Defined.

(** ** The comparison *)

Lemma fetch_analytics_run player w :
  fetch_analytics player w =
  (match outage w (length (issued w)) with
   | Some sqlstate => Throw (PgError sqlstate)
   | None => Ok (fetched_from (db w) player)
   end,
   set_issued (issued w ++ [SelectAnalytics (Compare.id player)]) w).
Proof.
  unfold fetch_analytics.
  destruct (outage w (length (issued w))) as [sqlstate|] eqn:E.
  - erewrite bind_throw; [|apply select_fail; exact E]. reflexivity.
  - erewrite bind_ok; [|apply select_ok; exact E].
    unfold fetched_from. destruct (agent_analytics_cache (db w) !! Compare.id player);
      reflexivity.
Qed.

(** The fan-out reads only: tables, clock and Redis are as before, and when
    it resolves it resolves to one entry per row, in the order of the rows. *)
Lemma promise_all_fetch rows : forall w,
  let r := promise_all (map fetch_analytics rows) w in
  db r.2 = db w /\ now r.2 = now w /\ outage r.2 = outage w /\
  redisClient r.2 = redisClient w /\
  (forall l, r.1 = Ok l -> l = map (fetched_from (db w)) rows) /\
  (store_up w -> r.1 = Ok (map (fetched_from (db w)) rows)).
Proof.
  induction rows as [|player rows IH]; intros w.
  - cbn. repeat split. intros l [= <-]. reflexivity.
  - cbn [map promise_all]. rewrite fetch_analytics_run.
    set (w1 := set_issued _ w).
    specialize (IH w1). cbv zeta in IH.
    destruct (promise_all (map fetch_analytics rows) w1) as [rs w2].
    cbn [fst snd] in *.
    destruct IH as (Hdb & Hnow & Hout & Hredis & Hinv & Hrun).
    repeat split; try assumption.
    + intros l Hl.
      destruct (outage w (length (issued w))); [discriminate|].
      destruct rs as [l'|e]; [|discriminate].
      injection Hl as <-. rewrite (Hinv l' eq_refl). reflexivity.
    + intros Hup. rewrite (Hup (length (issued w))).
      rewrite Hrun by (intros n; apply Hup). reflexivity.
Qed.

(** Every successful comparison: the shape of the request and of the answer. *)
Lemma compare_success body w data w' :
  comparePlayers body w = (Ok data, w') ->
  exists ids,
    body = Array ids /\ (2 <= length ids <= 4)%nat /\
    (2 <= length (matching_rows w ids))%nat /\
    Compare.players data = views_of w (matching_rows w ids) /\
    Compare.comparedAt data = DateObj (now w).
Proof.
  unfold comparePlayers. destruct body as [| |ids]; try discriminate.
  destruct (Nat.ltb_spec (length ids) 2); [discriminate|].
  destruct (Nat.ltb_spec 4 (length ids)); [discriminate|]. cbn [orb].
  destruct (outage w (length (issued w))) as [sqlstate|] eqn:E.
  { erewrite bind_throw; [|apply select_fail; exact E]. discriminate. }
  erewrite bind_ok; [|apply select_ok; exact E].
  fold (matching_rows w ids).
  destruct (Nat.ltb_spec (length (matching_rows w ids)) 2); [discriminate|].
  set (w1 := set_issued _ w).
  pose proof (promise_all_fetch (matching_rows w ids) w1) as Hall. cbv zeta in Hall.
  unfold mbind at 1, async_bind at 1.
  destruct (promise_all (map fetch_analytics (matching_rows w ids)) w1) as [[l|e] w2];
    [|discriminate].
  cbn [fst snd] in Hall. destruct Hall as (_ & Hnow & _ & _ & Hinv & _).
  rewrite (Hinv l eq_refl). cbn. intros [= <- _].
  exists ids. rewrite Hnow. repeat split; try lia.
Qed.

(** With the store up, a request of 2 to 4 identifiers that match at least
    two rows succeeds. *)
Lemma compare_runs ids w :
  store_up w -> (2 <= length ids <= 4)%nat ->
  (2 <= length (matching_rows w ids))%nat ->
  exists w',
    comparePlayers (Array ids) w =
    (Ok {| Compare.players := views_of w (matching_rows w ids);
           Compare.comparedAt := DateObj (now w) |}, w').
Proof.
  intros Hup Hids Hrows. unfold comparePlayers.
  destruct (Nat.ltb_spec (length ids) 2); [lia|].
  destruct (Nat.ltb_spec 4 (length ids)); [lia|]. cbn [orb].
  erewrite bind_ok; [|apply select_ok; apply Hup].
  fold (matching_rows w ids).
  destruct (Nat.ltb_spec (length (matching_rows w ids)) 2); [lia|].
  set (w1 := set_issued _ w).
  pose proof (promise_all_fetch (matching_rows w ids) w1) as Hall. cbv zeta in Hall.
  unfold mbind at 1, async_bind at 1.
  destruct (promise_all (map fetch_analytics (matching_rows w ids)) w1) as [r w2].
  cbn [fst snd] in Hall. destruct Hall as (_ & Hnow & _ & _ & _ & Hrun).
  rewrite Hrun by (intros n; apply Hup). cbn.
  erewrite bind_ok; [|reflexivity]. rewrite mret_run, Hnow.
  eexists. reflexivity.
Qed.

Lemma view_ids_of_rows w rows :
  map Compare.v_id (views_of w rows) = map Compare.id rows.
Proof. unfold views_of. rewrite map_map. reflexivity. Qed.

Lemma matching_rows_perm w ids ids' :
  ids' ≡ₚ ids -> matching_rows w ids' = matching_rows w ids.
Proof.
  intros Hperm. unfold matching_rows. apply list_filter_iff.
  intros r. rewrite Hperm. reflexivity.
Qed.

(** C1, as stated, fails: asked for bob then alice, the comparison answers
    alice then bob, the order in which the store returns the rows. *)
Lemma compare_order_not_preserved :
  map Compare.id (comparison_rows (db sample_world)) = ["alice"; "bob"] /\
  exists data w',
    comparePlayers (Array ["bob"; "alice"]) sample_world = (Ok data, w') /\
    view_ids data = ["alice"; "bob"] /\
    view_ids data <> ["bob"; "alice"].
Proof.
  split; [reflexivity|].
  destruct (compare_runs ["bob"; "alice"] sample_world) as [w' Hrun];
    [intros n; reflexivity | cbn; lia | vm_compute; lia |].
  eexists _, w'. split; [exact Hrun|].
  unfold view_ids; cbn [Compare.players]. rewrite view_ids_of_rows.
  split; [vm_compute; reflexivity | vm_compute; discriminate].
Qed.

(** C1, amended. For every call compare(playerIds) that succeeds, the views
    come in the order in which the store returns the matching rows, one view
    per row; the order of playerIds has no influence: a successful call with
    the same identifiers in another order gives the same sequence of
    views. *)
Theorem compare_output_in_store_order body w data w' :
  comparePlayers body w = (Ok data, w') ->
  exists ids,
    body = Array ids /\
    view_ids data = map Compare.id (matching_rows w ids) /\
    forall ids' data' w'',
      ids' ≡ₚ ids ->
      comparePlayers (Array ids') w = (Ok data', w'') ->
      Compare.players data' = Compare.players data.
Proof.
  intros Hrun.
  destruct (compare_success _ _ _ _ Hrun) as (ids & -> & _ & _ & Hplayers & _).
  exists ids. split; [reflexivity|]. split.
  - unfold view_ids. rewrite Hplayers. apply view_ids_of_rows.
  - intros ids' data' w'' Hperm Hrun'.
    destruct (compare_success _ _ _ _ Hrun') as (ids0 & [= <-] & _ & _ & Hplayers' & _).
    rewrite Hplayers, Hplayers', (matching_rows_perm w ids ids' Hperm). reflexivity.
Qed.

Lemma compare_output_in_store_order_sample :
  exists data w',
    comparePlayers (Array ["bob"; "alice"]) sample_world = (Ok data, w') /\
    exists ids,
      Array ["bob"; "alice"] = Array ids /\
      view_ids data = map Compare.id (matching_rows sample_world ids).
Proof.
  destruct (compare_runs ["bob"; "alice"] sample_world) as [w' Hrun];
    [intros n; reflexivity | cbn; lia | vm_compute; lia |].
  eexists _, w'. split; [exact Hrun|].
  destruct (compare_output_in_store_order _ _ _ _ Hrun) as (ids & Hb & Hids & _).
  exists ids. split; [exact Hb | exact Hids].
Defined.

Lemma two_distinct_members {A} (x y : A) (l : list A) :
  x <> y -> x ∈ l -> y ∈ l -> (2 <= length l)%nat.
Proof.
  intros Hne Hx Hy. destruct l as [|a [|b l]]; cbn; try lia.
  - apply elem_of_nil in Hx. contradiction.
  - apply list_elem_of_singleton in Hx, Hy. congruence.
Qed.

(** C4, as stated, fails: a well-sized request whose identifiers resolve to
    fewer than two rows (here a duplicated identifier, and an unknown one) is
    answered 404, not 400. *)
Lemma compare_too_few_rows_is_404 :
  (asyncHandler (comparePlayers (Array ["bob"; "bob"])) sample_world).1
    = Failure 404 "INTERNAL_ERROR" /\
  (asyncHandler (comparePlayers (Array ["alice"; "nobody"])) sample_world).1
    = Failure 404 "INTERNAL_ERROR" /\
  http_status (asyncHandler (comparePlayers (Array ["bob"; "bob"])) sample_world).1 <> 400.
Proof. repeat split; try (vm_compute; reflexivity). vm_compute. discriminate. Qed.

(** C4, amended. compare(playerIds) is answered 400 whenever playerIds is
    not an array or has fewer than 2 or more than 4 entries; a request of 2
    to 4 entries whose lookup returns fewer than 2 rows is answered 404 (not
    found); and compare([a,b]) with a and b distinct and both in the store
    succeeds when the store is up. *)
Theorem compare_cardinality w :
  (forall body,
     (forall ids, body = Array ids -> (length ids < 2 \/ 4 < length ids)%nat) ->
     asyncHandler (comparePlayers body) w = (Failure 400 "INTERNAL_ERROR", w)) /\
  (forall ids,
     (2 <= length ids <= 4)%nat ->
     outage w (length (issued w)) = None ->
     (length (matching_rows w ids) < 2)%nat ->
     asyncHandler (comparePlayers (Array ids)) w
     = (Failure 404 "INTERNAL_ERROR", set_issued (issued w ++ [SelectComparison ids]) w)) /\
  (forall a b ra rb,
     a <> b ->
     ra ∈ comparison_rows (db w) -> Compare.id ra = a ->
     rb ∈ comparison_rows (db w) -> Compare.id rb = b ->
     store_up w ->
     exists w',
       asyncHandler (comparePlayers (Array [a; b])) w
       = (Success {| Compare.players := views_of w (matching_rows w [a; b]);
                     Compare.comparedAt := DateObj (now w) |}, w')).
Proof.
  split; [|split].
  - intros body Hbody. unfold asyncHandler, comparePlayers.
    destruct body as [| |ids]; try reflexivity.
    destruct (Hbody ids eq_refl) as [H|H].
    + destruct (Nat.ltb_spec (length ids) 2); [reflexivity|lia].
    + destruct (Nat.ltb_spec 4 (length ids)); [|lia].
      rewrite orb_true_r. reflexivity.
  - intros ids Hids Hup Hrows. unfold asyncHandler, comparePlayers.
    destruct (Nat.ltb_spec (length ids) 2); [lia|].
    destruct (Nat.ltb_spec 4 (length ids)); [lia|]. cbn [orb].
    erewrite bind_ok; [|apply select_ok; exact Hup].
    fold (matching_rows w ids).
    destruct (Nat.ltb_spec (length (matching_rows w ids)) 2); [|lia].
    reflexivity.
  - intros a b ra rb Hne Hra Ha Hrb Hb Hup. unfold asyncHandler.
    destruct (compare_runs [a; b] w Hup) as [w' ->]; [cbn; lia| |eauto].
    apply (two_distinct_members ra rb); [congruence| |];
      apply list_elem_of_filter; (split; [|assumption]).
    + rewrite Ha. apply elem_of_cons. auto.
    + rewrite Hb. apply elem_of_cons. right. apply list_elem_of_singleton. reflexivity.
Qed.

Lemma compare_cardinality_sample :
  asyncHandler (comparePlayers (Array ["alice"])) sample_world
    = (Failure 400 "INTERNAL_ERROR", sample_world) /\
  asyncHandler (comparePlayers (Array ["bob"; "bob"])) sample_world
    = (Failure 404 "INTERNAL_ERROR",
       set_issued (issued sample_world ++ [SelectComparison ["bob"; "bob"]]) sample_world) /\
  exists w',
    asyncHandler (comparePlayers (Array ["alice"; "bob"])) sample_world
    = (Success {| Compare.players :=
                    views_of sample_world (matching_rows sample_world ["alice"; "bob"]);
                  Compare.comparedAt := DateObj (now sample_world) |}, w').
Proof.
  destruct (compare_cardinality sample_world) as (Hsize & Hfew & Htwo).
  split; [|split].
  - apply Hsize. intros ids [= <-]. cbn. lia.
  - apply Hfew; [cbn; lia | reflexivity | vm_compute; lia].
  - apply (Htwo "alice" "bob" alice_row bob_row);
      [discriminate | | reflexivity | | reflexivity | intros n; reflexivity].
    + apply elem_of_cons. left. reflexivity.
    + apply elem_of_cons. right. apply elem_of_cons. left. reflexivity.
Defined.

(** *** The overall rating *)

Lemma number_eq_reflect (x y : JS.number) : PrimFloat.Leibniz.eqb x y = true -> x = y.
Proof. apply FloatAxioms.Leibniz.eqb_spec. Qed.

(** Sums of attribute values are exact. *)
Lemma of_Z_add a b :
  0 <= a <= 500 -> 0 <= b <= 100 ->
  PrimFloat.add (JS.of_Z a) (JS.of_Z b) = JS.of_Z (a + b).
Proof.
  intros Ha Hb. apply number_eq_reflect.
  assert (H : all_between 0 500 (fun a => all_between 0 100 (fun b =>
            PrimFloat.Leibniz.eqb (PrimFloat.add (JS.of_Z a) (JS.of_Z b))
                                  (JS.of_Z (a + b)))) = true)
    by (vm_compute; reflexivity).
  apply all_between_spec with (z := a) in H; [|exact Ha].
  apply all_between_spec with (z := b) in H; [|exact Hb].
  exact H.
Qed.

(** A sixth of a sum of six attribute values rounds half up. *)
Lemma round_sixth s :
  0 <= s <= 600 ->
  JS.Math_round (PrimFloat.div (JS.of_Z s) (JS.of_Z 6)) = JS.of_Z ((s + 3) / 6).
Proof.
  intros Hs. apply number_eq_reflect.
  assert (H : all_between 0 600 (fun s =>
            PrimFloat.Leibniz.eqb
              (JS.Math_round (PrimFloat.div (JS.of_Z s) (JS.of_Z 6)))
              (JS.of_Z ((s + 3) / 6))) = true)
    by (vm_compute; reflexivity).
  apply all_between_spec with (z := s) in H; [|exact Hs]. exact H.
Qed.

Lemma format_overall analyticsData player :
  Compare.overall (Compare.format analyticsData player) =
  Some (JS.Math_round
          (PrimFloat.div (JS.ToNumber (Compare.attribute_sum player)) (JS.of_Z 6))).
Proof. reflexivity. Qed.

Lemma overall_all_present player p1 p2 p3 p4 p5 p6 :
  0 <= p1 <= 100 -> 0 <= p2 <= 100 -> 0 <= p3 <= 100 ->
  0 <= p4 <= 100 -> 0 <= p5 <= 100 -> 0 <= p6 <= 100 ->
  attributes_of player = Some <$> (JS.of_Z <$> [p1; p2; p3; p4; p5; p6]) ->
  JS.Math_round (PrimFloat.div (JS.ToNumber (Compare.attribute_sum player)) (JS.of_Z 6))
  = JS.of_Z ((p1 + p2 + p3 + p4 + p5 + p6 + 3) / 6).
Proof.
  intros H1 H2 H3 H4 H5 H6 [= Ha Hb Hc Hd He Hf].
  unfold Compare.attribute_sum. rewrite Ha, Hb, Hc, Hd, He, Hf.
  unfold JS.add. cbn [JS.ToNumber].
  rewrite !of_Z_add by lia. apply round_sixth. lia.
Qed.

Lemma overall_all_missing player :
  attributes_of player = [None; None; None; None; None; None] ->
  JS.Math_round (PrimFloat.div (JS.ToNumber (Compare.attribute_sum player)) (JS.of_Z 6))
  = JS.of_Z 0.
Proof.
  intros [= Ha Hb Hc Hd He Hf].
  unfold Compare.attribute_sum. rewrite Ha, Hb, Hc, Hd, He, Hf.
  vm_compute. reflexivity.
Qed.

(** C3, as stated, fails: bob has no attribute set, and in a successful
    comparison his overall rating is the number 0, not null. *)
Lemma overall_of_missing_attributes_is_zero :
  attributes_of bob_row = [None; None; None; None; None; None] /\
  exists data w' v,
    comparePlayers (Array ["alice"; "bob"]) sample_world = (Ok data, w') /\
    v ∈ Compare.players data /\
    Compare.v_id v = "bob" /\
    Compare.overall v = Some 0%float /\
    Compare.overall v <> None.
Proof.
  split; [reflexivity|].
  destruct (compare_runs ["alice"; "bob"] sample_world) as [w' Hrun];
    [intros n; reflexivity | cbn; lia | vm_compute; lia |].
  eexists _, w', (Compare.format _ bob_row). split; [exact Hrun|].
  cbn [Compare.players]. split.
  - unfold views_of. apply list_elem_of_fmap. exists bob_row.
    split; [reflexivity|].
    apply list_elem_of_filter. split.
    + apply elem_of_cons. right. apply elem_of_cons. left. reflexivity.
    + apply elem_of_cons. right. apply elem_of_cons. left. reflexivity.
  - split; [reflexivity|]. rewrite format_overall.
    split; [vm_compute; reflexivity | discriminate].
Qed.

(** C3, amended. Every player of a successful comparison is a row of the
    store, and its overall rating is a number, never null: the rounding of a
    sixth of the sum of the six sub-attributes, in which a missing one counts
    as 0.  When all six are present (integers from 0 to 100) it is their
    arithmetic mean rounded to the nearest integer, halves up; when the
    player has no attribute set it is 0. *)
Theorem compare_overall body w data w' v :
  comparePlayers body w = (Ok data, w') ->
  v ∈ Compare.players data ->
  exists player,
    player ∈ comparison_rows (db w) /\
    Compare.v_id v = Compare.id player /\
    Compare.overall v =
      Some (JS.Math_round
              (PrimFloat.div (JS.ToNumber (Compare.attribute_sum player)) (JS.of_Z 6))) /\
    (forall p1 p2 p3 p4 p5 p6,
       0 <= p1 <= 100 -> 0 <= p2 <= 100 -> 0 <= p3 <= 100 ->
       0 <= p4 <= 100 -> 0 <= p5 <= 100 -> 0 <= p6 <= 100 ->
       attributes_of player = Some <$> (JS.of_Z <$> [p1; p2; p3; p4; p5; p6]) ->
       Compare.overall v = Some (JS.of_Z ((p1 + p2 + p3 + p4 + p5 + p6 + 3) / 6))) /\
    (attributes_of player = [None; None; None; None; None; None] ->
     Compare.overall v = Some (JS.of_Z 0)).
Proof.
  intros Hrun Hv.
  destruct (compare_success _ _ _ _ Hrun) as (ids & _ & _ & _ & Hplayers & _).
  rewrite Hplayers in Hv. unfold views_of in Hv.
  apply list_elem_of_fmap in Hv. destruct Hv as (player & -> & Hin).
  apply list_elem_of_filter in Hin. destruct Hin as [_ Hin].
  exists player. split; [exact Hin|]. split; [reflexivity|].
  rewrite format_overall. split; [reflexivity|]. split.
  - intros. f_equal. apply overall_all_present; assumption.
  - intros. f_equal. apply overall_all_missing; assumption.
Qed.

Lemma compare_overall_alice :
  exists data w' v,
    comparePlayers (Array ["alice"; "bob"]) sample_world = (Ok data, w') /\
    v ∈ Compare.players data /\
    Compare.overall v = Some 69%float /\
    exists player,
      player ∈ comparison_rows (db sample_world) /\
      Compare.v_id v = Compare.id player /\
      Compare.overall v =
        Some (JS.Math_round
                (PrimFloat.div (JS.ToNumber (Compare.attribute_sum player)) (JS.of_Z 6))) /\
      (forall p1 p2 p3 p4 p5 p6,
         0 <= p1 <= 100 -> 0 <= p2 <= 100 -> 0 <= p3 <= 100 ->
         0 <= p4 <= 100 -> 0 <= p5 <= 100 -> 0 <= p6 <= 100 ->
         attributes_of player = Some <$> (JS.of_Z <$> [p1; p2; p3; p4; p5; p6]) ->
         Compare.overall v = Some (JS.of_Z ((p1 + p2 + p3 + p4 + p5 + p6 + 3) / 6))) /\
      (attributes_of player = [None; None; None; None; None; None] ->
       Compare.overall v = Some (JS.of_Z 0)).
Proof.
  destruct (compare_runs ["alice"; "bob"] sample_world) as [w' Hrun];
    [intros n; reflexivity | cbn; lia | vm_compute; lia |].
  assert (Hin : Compare.format
                  (map (fetched_from (db sample_world))
                     (matching_rows sample_world ["alice"; "bob"])) alice_row
                ∈ views_of sample_world (matching_rows sample_world ["alice"; "bob"])).
  { unfold views_of. apply list_elem_of_fmap. exists alice_row.
    split; [reflexivity|].
    apply list_elem_of_filter. split; apply elem_of_cons; left; reflexivity. }
  eexists _, w', _. split; [exact Hrun|]. split; [exact Hin|].
  split; [vm_compute; reflexivity|].
  exact (compare_overall _ _ _ _ _ Hrun Hin).
Defined.

(* ===================================================================== *)
(** * Further properties of the code around the analytics pipeline *)
(* ===================================================================== *)

(** ** Cache invalidation (redis.js) *)

(** What a usable cache holds for a key at the current instant. *)
Lemma cache_lookup_up w client key :
  redisClient w = Some client -> cache_up w = true ->
  cache_lookup w key =
  match entries client !! key with
  | Some (JsonText a, expiry) => if now w <? expiry then Some a else None
  | _ => None
  end.
Proof.
  intros Hc Hup. unfold cache_up in Hup. rewrite Hc in Hup.
  apply andb_prop in Hup. destruct Hup as [Hconn Hrej].
  apply negb_true_iff in Hrej.
  unfold cache_lookup, cache_get. rewrite Hc, Hconn. cbn.
  unfold try_catch, mbind, async_bind, redis_get. rewrite Hrej.
  destruct (entries client !! key) as [[[a|] expiry]|]; try reflexivity.
  - destruct (now w <? expiry); reflexivity.
  - destruct (now w <? expiry); reflexivity.
Qed.

Lemma cache_up_client w :
  cache_up w = true ->
  exists client, redisClient w = Some client /\ redisConnected w = true /\
                 rejecting client = false.
Proof.
  unfold cache_up. destruct (redisClient w) as [client|]; [|discriminate].
  intros H. apply andb_prop in H. destruct H as [H1 H2].
  apply negb_true_iff in H2. eauto.
Qed.

Lemma cache_del_down key w : cache_up w = false -> cache_del key w = (Ok false, w).
Proof.
  unfold cache_up, cache_del.
  destruct (redisClient w) as [client|]; [|reflexivity].
  destruct (redisConnected w); [|reflexivity].
  unfold try_catch, mbind, async_bind, redis_del; cbn.
  destruct (rejecting client); [reflexivity|discriminate].
Qed.

Lemma cache_del_up key w client :
  redisClient w = Some client -> cache_up w = true ->
  cache_del key w =
  (Ok true,
   set_redisClient
     (Some {| entries := delete key (entries client); rejecting := false |}) w).
Proof.
  intros Hc Hup. destruct (cache_up_client w Hup) as (c & Hc' & Hconn & Hrej).
  rewrite Hc in Hc'. injection Hc' as <-.
  unfold cache_del. rewrite Hc, Hconn. cbn.
  unfold try_catch, mbind, async_bind, redis_del. rewrite Hrej. reflexivity.
Qed.

(** X1. [cache.del] never rejects.  With the cache unusable it answers false
    and changes nothing; otherwise it answers true, the key reads as null
    from then on, and every other key reads as before. *)
Theorem cache_del_removes_key key w :
  exists ok w',
    cache_del key w = (Ok ok, w') /\
    (cache_up w = false -> ok = false /\ w' = w) /\
    (cache_up w = true ->
     ok = true /\
     forall k t,
       cache_lookup (set_now t w') k =
       if decide (k = key) then None else cache_lookup (set_now t w) k).
Proof.
  destruct (cache_up w) eqn:Hup.
  - destruct (cache_up_client w Hup) as (client & Hc & Hconn & Hrej).
    eexists _, _. split; [apply (cache_del_up key w client Hc Hup)|].
    split; [discriminate|]. intros _. split; [reflexivity|].
    intros k t.
    erewrite (cache_lookup_up (set_now t (set_redisClient _ w))); [|reflexivity|].
    2:{ unfold cache_up; cbn. rewrite Hconn. reflexivity. }
    erewrite (cache_lookup_up (set_now t w) client); [|exact Hc|].
    2:{ unfold cache_up; cbn. rewrite Hc, Hconn, Hrej. reflexivity. }
    cbn. destruct (decide (k = key)) as [->|Hne].
    + rewrite lookup_delete_eq. reflexivity.
    + rewrite lookup_delete_ne by congruence. reflexivity.
  - exists false, w. split; [apply cache_del_down; exact Hup|].
    split; [auto|discriminate].
Qed.

Lemma cache_del_removes_key_warm :
  exists ok w',
    cache_del (analytics_key "alice") warm_world = (Ok ok, w') /\
    ok = true /\
    cache_lookup warm_world (analytics_key "alice")
      = Some (Analytics.json_roundtrip (Analytics.literal alice (DateObj 1700000000000))) /\
    cache_lookup (set_now (now warm_world) w') (analytics_key "alice") = None.
Proof.
  destruct (cache_del_removes_key (analytics_key "alice") warm_world)
    as (ok & w' & Hrun & _ & Hup).
  destruct (Hup ltac:(vm_compute; reflexivity)) as [Hok Hread].
  exists ok, w'. split; [exact Hrun|]. split; [exact Hok|].
  split; [vm_compute; reflexivity|].
  rewrite Hread. destruct (decide _) as [_|Hne]; [reflexivity|].
  exfalso. apply Hne. reflexivity.
Defined.



(** [-0] is written "0": the record read back holds [+0]. *)
Example cache_normalises_negative_zero :
  let p := {| Profile.id := "p"; Profile.nova_score := JS.Parsed (-0)%float;
              Profile.discipline_score := 0%float |} in
  let a := Analytics.literal p (DateObj 0) in
  Analytics.finite a = true /\
  PrimFloat.classify (Analytics.consistency_score a) = FloatClass.NZero /\
  PrimFloat.classify (Analytics.consistency_score (Analytics.json_roundtrip a)) = FloatClass.PZero.
Proof. repeat split; vm_compute; reflexivity. Qed.

Lemma live_matching_keys (glob : string -> string -> bool) pattern t
    (m : gmap string (stored * Z)) k :
  k ∈ (map_to_list
         (filter (fun kv : string * (stored * Z) => glob pattern kv.1 = true /\ t < kv.2.2)
                 m)).*1
  <-> exists text expiry, m !! k = Some (text, expiry) /\ glob pattern k = true /\ t < expiry.
Proof.
  rewrite list_elem_of_fmap. split.
  - intros ([k' [text expiry]] & -> & Hin).
    apply elem_of_map_to_list, map_lookup_filter_Some in Hin.
    destruct Hin as (Hk & Hg & Ht). cbn in *. eauto.
  - intros (text & expiry & Hk & Hg & Ht). exists (k, (text, expiry)).
    split; [reflexivity|].
    apply elem_of_map_to_list, map_lookup_filter_Some. cbn. auto.
Qed.

Lemma cache_delPattern_down glob pattern w :
  cache_up w = false -> cache_delPattern glob pattern w = (Ok false, w).
Proof.
  unfold cache_up, cache_delPattern.
  destruct (redisClient w) as [client|]; [|reflexivity].
  destruct (redisConnected w); [|reflexivity].
  unfold try_catch, mbind, async_bind, redis_keys; cbn.
  destruct (rejecting client); [reflexivity|discriminate].
Qed.

(** X3. [cache.delPattern] never rejects.  With the cache unusable it
    answers false and changes nothing; otherwise it answers true (also when
    no key matches), every key that matches the pattern reads as null from
    then on, and every other key reads as before. *)
Theorem cache_delPattern_removes_matching (glob : string -> string -> bool) pattern w :
  exists ok w',
    cache_delPattern glob pattern w = (Ok ok, w') /\
    (cache_up w = false -> ok = false /\ w' = w) /\
    (cache_up w = true ->
     ok = true /\
     forall k t, now w <= t ->
       cache_lookup (set_now t w') k =
       if glob pattern k then None else cache_lookup (set_now t w) k).
Proof.
  destruct (cache_up w) eqn:Hup.
  2:{ exists false, w. split; [apply cache_delPattern_down; exact Hup|].
      split; [auto|discriminate]. }
  destruct (cache_up_client w Hup) as (client & Hc & Hconn & Hrej).
  assert (Hold : forall k t,
            cache_lookup (set_now t w) k =
            match entries client !! k with
            | Some (JsonText a, expiry) => if t <? expiry then Some a else None
            | _ => None
            end).
  { intros k t. apply (cache_lookup_up (set_now t w) client); [exact Hc|].
    unfold cache_up; cbn. rewrite Hc, Hconn, Hrej. reflexivity. }
  unfold cache_delPattern. rewrite Hc, Hconn. cbn [negb].
  unfold try_catch, mbind at 1, async_bind at 1, redis_keys. rewrite Hrej.
  set (keys := (map_to_list _).*1).
  assert (Hkeys : forall k, k ∈ keys <->
            exists text expiry, entries client !! k = Some (text, expiry) /\
                                glob pattern k = true /\ now w < expiry)
    by (intros k; apply live_matching_keys).
  destruct (0 <? length keys)%nat eqn:Hlen.
  - unfold mbind, async_bind, redis_del. rewrite Hrej. cbn.
    eexists _, _. split; [reflexivity|]. split; [discriminate|].
    intros _. split; [reflexivity|]. intros k t Ht.
    erewrite (cache_lookup_up (set_now t (set_redisClient _ w))); [|reflexivity|].
    2:{ unfold cache_up; cbn. rewrite Hconn. reflexivity. }
    rewrite Hold. cbn.
    destruct (decide (k ∈ keys)) as [Hin|Hnin].
    + rewrite lookup_foldr_delete by exact Hin.
      apply Hkeys in Hin. destruct Hin as (_ & _ & _ & -> & _). reflexivity.
    + rewrite lookup_foldr_delete_not_elem_of by exact Hnin.
      destruct (glob pattern k) eqn:Hg; [|reflexivity].
      destruct (entries client !! k) as [[[a|] expiry]|] eqn:Hk; try reflexivity.
      destruct (Z.ltb_spec t expiry); [|reflexivity].
      exfalso. apply Hnin, Hkeys. exists (JsonText a), expiry.
      split; [exact Hk|]. split; [exact Hg|]. cbn in Ht. lia.
  - cbn. eexists _, _. split; [reflexivity|]. split; [discriminate|].
    intros _. split; [reflexivity|]. intros k t Ht. rewrite Hold.
    destruct (glob pattern k) eqn:Hg; [|reflexivity].
    destruct (entries client !! k) as [[[a|] expiry]|] eqn:Hk; try reflexivity.
    destruct (Z.ltb_spec t expiry); [|reflexivity].
    assert (Hin : k ∈ keys).
    { apply Hkeys. exists (JsonText a), expiry.
      split; [exact Hk|]. split; [exact Hg|]. cbn in Ht. lia. }
    destruct keys; [apply elem_of_nil in Hin; contradiction|discriminate].
Qed.

Lemma cache_delPattern_removes_matching_warm :
  exists ok w',
    cache_delPattern prefix_glob "analytics:*" warm_world = (Ok ok, w') /\
    ok = true /\
    cache_lookup warm_world (analytics_key "alice")
      = Some (Analytics.json_roundtrip (Analytics.literal alice (DateObj 1700000000000))) /\
    cache_lookup (set_now (now warm_world) w') (analytics_key "alice") = None.
Proof.
  destruct (cache_delPattern_removes_matching prefix_glob "analytics:*" warm_world)
    as (ok & w' & Hrun & _ & Hup).
  destruct (Hup ltac:(vm_compute; reflexivity)) as [Hok Hread].
  exists ok, w'. split; [exact Hrun|]. split; [exact Hok|].
  split; [vm_compute; reflexivity|].
  rewrite Hread by lia. reflexivity.
Defined.

(** X4. The ['end'] listener makes the cache unusable without touching what
    it holds: [cache.get] answers null and [cache.set] answers false; after
    a following ['connect'] every key reads as it did while connected. *)
Theorem connection_events_gate_the_cache key value ttl w :
  redisConnected w = true ->
  cache_get key (on_end w) = (Ok None, on_end w) /\
  cache_set key value ttl (on_end w) = (Ok false, on_end w) /\
  redisClient (on_end w) = redisClient w /\
  cache_lookup (on_connect (on_end w)) key = cache_lookup w key.
Proof.
  intros Hconn.
  assert (Hdown : cache_up (on_end w) = false).
  { unfold cache_up, on_end; cbn. destruct (redisClient w); reflexivity. }
  split; [rewrite cache_get_total, cache_lookup_down by exact Hdown; reflexivity|].
  split; [apply cache_set_down; exact Hdown|].
  split; [reflexivity|].
  apply cache_lookup_frame; [reflexivity| |reflexivity].
  cbn. symmetry. exact Hconn.
Qed.

Lemma connection_events_gate_the_cache_warm :
  cache_get (analytics_key "alice") (on_end warm_world) = (Ok None, on_end warm_world) /\
  cache_lookup (on_connect (on_end warm_world)) (analytics_key "alice")
  = Some (Analytics.json_roundtrip (Analytics.literal alice (DateObj 1700000000000))).
Proof.
  destruct (connection_events_gate_the_cache (analytics_key "alice") bob_analytics 3600
              warm_world eq_refl) as (Hget & _ & _ & Hback).
  split; [exact Hget|]. rewrite Hback. vm_compute. reflexivity.
Defined.

(** ** The error boundary in full (errorHandler.js) *)

(** The status and code of the full body are those of [errorHandler]. *)
Lemma errorHandler_body_agrees {A} NODE_ENV (e : error) message stack :
  @errorHandler A e =
  Failure (ErrorBody.status (errorHandler_body NODE_ENV (thrown_of e message stack)))
          (ErrorBody.code (errorHandler_body NODE_ENV (thrown_of e message stack))).
Proof.
  unfold errorHandler, errorHandler_body.
  destruct e as [m sc c|sqlstate|name]; cbn;
    repeat case_bool_decide; repeat (destruct (String.eqb _ _)); reflexivity.
Qed.

(** X5. The status and code of an error response follow a fixed priority,
    whatever else the error carries: SQLSTATE 23503 gives 400
    REFERENCE_ERROR, else SQLSTATE 23505 gives 409 DUPLICATE_ERROR, else the
    name ValidationError gives 400 VALIDATION_ERROR, else the error's own
    status (500 when it has none or 0) and code (INTERNAL_ERROR when it has
    none); the status is never 0. *)
Theorem errorHandler_priority NODE_ENV err :
  let body := errorHandler_body NODE_ENV err in
  (ErrorBody.status body, ErrorBody.code body) =
  (if bool_decide (t_code err = Some "23503") then (400, "REFERENCE_ERROR")
   else if bool_decide (t_code err = Some "23505") then (409, "DUPLICATE_ERROR")
   else if String.eqb (t_name err) "ValidationError" then (400, "VALIDATION_ERROR")
   else (or_status (t_statusCode err) 500, or_string (t_code err) "INTERNAL_ERROR")) /\
  ErrorBody.status body <> 0.
Proof.
  unfold errorHandler_body. cbn zeta.
  destruct (String.eqb (t_name err) "ValidationError");
    repeat case_bool_decide; try congruence; cbn; (split; [reflexivity|]); try lia;
    unfold or_status; destruct (t_statusCode err) as [v|]; try lia;
    destruct (Z.eqb_spec v 0); lia.
Qed.

(** X6. In production the message of an error that is not operational (a
    database error, a runtime exception) never reaches the client: the body
    says "Something went wrong", also where a constraint violation had set
    its own message; the message of an operational error (an [AppError]) is
    passed on unless a constraint code replaces it; and the stack is in the
    body in development only. *)
Theorem production_hides_internal_errors NODE_ENV err :
  let body := errorHandler_body NODE_ENV err in
  (NODE_ENV = Some "production" -> t_isOperational err = false ->
   ErrorBody.error body = "Something went wrong") /\
  (t_isOperational err = true ->
   t_code err <> Some "23505" -> t_code err <> Some "23503" ->
   ErrorBody.error body = or_string (Some (t_message err)) "Internal server error") /\
  (ErrorBody.stack body = Some (t_stack err) <-> NODE_ENV = Some "development") /\
  (NODE_ENV <> Some "development" -> ErrorBody.stack body = None).
Proof.
  unfold errorHandler_body. cbn zeta. split; [|split; [|split]].
  - intros -> ->.
    destruct (String.eqb (t_name err) "ValidationError");
      repeat case_bool_decide; try congruence; reflexivity.
  - intros -> H1 H2.
    destruct (String.eqb (t_name err) "ValidationError");
      repeat case_bool_decide; try congruence; cbn;
      rewrite ?andb_false_r; reflexivity.
  - destruct (String.eqb (t_name err) "ValidationError");
      repeat case_bool_decide; cbn; split; congruence.
  - intros Hne.
    destruct (String.eqb (t_name err) "ValidationError");
      repeat case_bool_decide; cbn; congruence.
Qed.

Lemma production_hides_internal_errors_pg :
  ErrorBody.error
    (errorHandler_body (Some "production")
       (thrown_of (PgError "23505")
          "duplicate key value violates unique constraint users_email_key" "at query"))
  = "Something went wrong" /\
  ErrorBody.stack
    (errorHandler_body (Some "production")
       (thrown_of (PgError "23505")
          "duplicate key value violates unique constraint users_email_key" "at query"))
  = None.
Proof.
  destruct (production_hides_internal_errors (Some "production")
              (thrown_of (PgError "23505")
                 "duplicate key value violates unique constraint users_email_key"
                 "at query")) as (Hmsg & _ & _ & Hstack).
  split; [apply Hmsg; reflexivity | apply Hstack; discriminate].
Defined.

(** X7. A URL that no route matches is answered 404 with code NOT_FOUND and
    the message "Not found: " followed by the URL, in every environment,
    production included. *)
Theorem notFound_response NODE_ENV originalUrl stack :
  let body := errorHandler_body NODE_ENV (notFound originalUrl stack) in
  ErrorBody.status body = 404 /\
  ErrorBody.code body = "NOT_FOUND" /\
  ErrorBody.error body = "Not found: " +:+ originalUrl.
Proof.
  unfold errorHandler_body, notFound, new_AppError. cbn.
  rewrite andb_false_r. repeat split.
Qed.

(** ** Regular expressions: the matcher decides the language *)

Lemma append_cons c s1 s2 : String c s1 +:+ s2 = String c (s1 +:+ s2).
Proof. reflexivity. Qed.

Lemma append_nil_l s : "" +:+ s = s.
Proof. reflexivity. Qed.

Lemma append_empty s1 s2 : s1 +:+ s2 = "" -> s1 = "" /\ s2 = "".
Proof. destruct s1; [auto|rewrite append_cons; discriminate]. Qed.

Lemma append_nil_r s : s +:+ "" = s.
Proof.
  induction s as [|c s IH]; [reflexivity|]. rewrite append_cons, IH. reflexivity.
Qed.

Lemma append_assoc s1 s2 s3 : (s1 +:+ s2) +:+ s3 = s1 +:+ s2 +:+ s3.
Proof.
  induction s1 as [|c s1 IH]; [reflexivity|]. rewrite !append_cons, IH. reflexivity.
Qed.

Lemma length_append s1 s2 :
  String.length (s1 +:+ s2) = (String.length s1 + String.length s2)%nat.
Proof.
  induction s1 as [|c s1 IH]; [reflexivity|]. rewrite append_cons. cbn.
  rewrite IH. reflexivity.
Qed.

Lemma all_chars_append p s1 s2 :
  all_chars p (s1 +:+ s2) = all_chars p s1 && all_chars p s2.
Proof.
  induction s1 as [|c s1 IH]; [reflexivity|]. rewrite append_cons. cbn.
  rewrite IH, andb_assoc. reflexivity.
Qed.

Lemma count_char_append c s1 s2 :
  count_char c (s1 +:+ s2) = (count_char c s1 + count_char c s2)%nat.
Proof.
  induction s1 as [|c' s1 IH]; [reflexivity|]. rewrite append_cons. cbn.
  rewrite IH. lia.
Qed.

Lemma all_chars_impl (p q : ascii -> bool) s :
  (forall c, p c = true -> q c = true) -> all_chars p s = true -> all_chars q s = true.
Proof.
  intros Hpq. induction s as [|c s IH]; cbn; [reflexivity|].
  intros H. apply andb_prop in H. destruct H as [Hc Hs].
  rewrite (Hpq c Hc), (IH Hs). reflexivity.
Qed.

Lemma nullable_lang r : Regex.nullable r = true <-> Regex.lang r "".
Proof.
  split.
  - induction r; cbn; intros H; try discriminate.
    + constructor.
    + apply andb_prop in H. destruct H.
      change "" with ("" +:+ ""). constructor; auto.
    + apply orb_prop in H. destruct H; [apply Regex.lang_alt_l|apply Regex.lang_alt_r]; auto.
    + constructor.
  - intros H. remember "" as s eqn:Hs.
    induction H; cbn; try reflexivity; try discriminate.
    + apply append_empty in Hs. destruct Hs. rewrite IHlang1, IHlang2 by assumption.
      reflexivity.
    + rewrite IHlang by assumption. reflexivity.
    + rewrite IHlang by assumption. apply orb_true_r.
Qed.

Lemma deriv_sound c r : forall s, Regex.lang (Regex.deriv c r) s -> Regex.lang r (String c s).
Proof.
  induction r; cbn; intros s H.
  - inversion H.
  - inversion H.
  - destruct (p c) eqn:Hp; inversion H; subst. constructor. exact Hp.
  - destruct (Regex.nullable r1) eqn:Hn.
    + inversion H as [| | | ? ? ? H1 | ? ? ? H2 | |]; subst.
      * inversion H1; subst.
        change (String c (s1 +:+ s2)) with (String c s1 +:+ s2). constructor; auto.
      * change (String c s) with ("" +:+ String c s).
        constructor; [apply nullable_lang; exact Hn | auto].
    + inversion H; subst.
      change (String c (s1 +:+ s2)) with (String c s1 +:+ s2). constructor; auto.
  - inversion H; subst; [apply Regex.lang_alt_l|apply Regex.lang_alt_r]; auto.
  - inversion H; subst.
    change (String c (s1 +:+ s2)) with (String c s1 +:+ s2). constructor; auto.
Qed.

Lemma deriv_complete c r s0 :
  Regex.lang r s0 -> forall s, s0 = String c s -> Regex.lang (Regex.deriv c r) s.
Proof.
  induction 1 as [| p c' Hp | r1 r2 s1 s2 H1 IH1 H2 IH2 | r1 r2 s' H IH | r1 r2 s' H IH
                 | r | r s1 s2 H1 IH1 H2 IH2]; intros s Hs; cbn.
  - discriminate.
  - injection Hs as -> <-. rewrite Hp. constructor.
  - destruct s1 as [|c1 s1]; [rewrite append_nil_l in Hs|rewrite append_cons in Hs].
    + apply nullable_lang in H1. rewrite H1. apply Regex.lang_alt_r. auto.
    + injection Hs as -> <-.
      destruct (Regex.nullable r1);
        [apply Regex.lang_alt_l|]; constructor; auto.
  - apply Regex.lang_alt_l. auto.
  - apply Regex.lang_alt_r. auto.
  - discriminate.
  - destruct s1 as [|c1 s1]; [rewrite append_nil_l in Hs|rewrite append_cons in Hs].
    + apply IH2 in Hs. exact Hs.
    + injection Hs as -> <-. constructor; auto.
Qed.

Lemma test_lang s : forall r, Regex.test r s = true <-> Regex.lang r s.
Proof.
  induction s as [|c s IH]; intros r; cbn.
  - apply nullable_lang.
  - rewrite IH. split; [apply deriv_sound|].
    intros H. eapply deriv_complete; [exact H|reflexivity].
Qed.

Lemma lang_seq r1 r2 s :
  Regex.lang (Regex.Seq r1 r2) s <->
  exists s1 s2, s = s1 +:+ s2 /\ Regex.lang r1 s1 /\ Regex.lang r2 s2.
Proof.
  split.
  - intros H. inversion H; subst. eauto.
  - intros (s1 & s2 & -> & H1 & H2). constructor; assumption.
Qed.

Lemma lang_char c s : Regex.lang (Regex.char c) s <-> s = String c "".
Proof.
  unfold Regex.char. split.
  - intros H. inversion H as [| p c' Hc | | | | |]; subst.
    apply Ascii.eqb_eq in Hc. subst. reflexivity.
  - intros ->. constructor. apply Ascii.eqb_refl.
Qed.

Lemma lang_times_class n p : forall s,
  Regex.lang (Regex.times n (Regex.Class p)) s <->
  String.length s = n /\ all_chars p s = true.
Proof.
  induction n as [|n IH]; intros s; cbn.
  - split.
    + intros H. inversion H. auto.
    + intros [H _]. destruct s; [constructor|discriminate].
  - rewrite lang_seq. split.
    + intros (s1 & s2 & -> & H1 & H2). inversion H1 as [| p' c' Hc | | | | |]; subst.
      apply IH in H2. destruct H2 as [<- Hall]. rewrite append_cons, append_nil_l. cbn.
      rewrite Hc, Hall. auto.
    + intros [Hlen Hall]. destruct s as [|c s]; [discriminate|].
      cbn in Hlen, Hall. apply andb_prop in Hall. destruct Hall as [Hc Hs].
      exists (String c ""), s. split; [reflexivity|].
      split; [constructor; exact Hc|]. apply IH. split; [lia|exact Hs].
Qed.

Lemma lang_star_class p s :
  Regex.lang (Regex.Star (Regex.Class p)) s <-> all_chars p s = true.
Proof.
  split.
  - intros H. remember (Regex.Star (Regex.Class p)) as r eqn:Hr.
    induction H; try discriminate; [reflexivity|].
    injection Hr as ->. inversion H as [| p' c' Hc | | | | |]; subst.
    rewrite append_cons, append_nil_l. cbn.
    rewrite Hc, IHlang2 by reflexivity. reflexivity.
  - induction s as [|c s IH]; cbn; intros H; [constructor|].
    apply andb_prop in H. destruct H as [Hc Hs].
    change (String c s) with (String c "" +:+ s).
    constructor; [constructor; exact Hc|auto].
Qed.

Lemma lang_plus_class p s :
  Regex.lang (Regex.plus (Regex.Class p)) s <-> s <> "" /\ all_chars p s = true.
Proof.
  unfold Regex.plus. rewrite lang_seq. split.
  - intros (s1 & s2 & -> & H1 & H2). inversion H1 as [| p' c' Hc | | | | |]; subst.
    apply lang_star_class in H2. rewrite append_cons, append_nil_l. cbn.
    rewrite Hc, H2. split; [discriminate|reflexivity].
  - intros [Hne Hall]. destruct s as [|c s]; [contradiction|].
    cbn in Hall. apply andb_prop in Hall. destruct Hall as [Hc Hs].
    exists (String c ""), s. split; [reflexivity|].
    split; [constructor; exact Hc|apply lang_star_class; exact Hs].
Qed.

(** ** Request validation (validation.js) *)

(** X8. [isValidUUID] accepts exactly the strings made of five groups of 8,
    4, 4, 4 and 12 hexadecimal digits (either case) separated by hyphens;
    in particular an accepted string has 36 code units, none of them outside
    [0-9a-fA-F-]. *)
Theorem isValidUUID_shape s :
  (isValidUUID s = true <->
   exists a b c d e,
     s = a +:+ "-" +:+ b +:+ "-" +:+ c +:+ "-" +:+ d +:+ "-" +:+ e /\
     String.length a = 8%nat /\ String.length b = 4%nat /\ String.length c = 4%nat /\
     String.length d = 4%nat /\ String.length e = 12%nat /\
     all_chars is_hex a = true /\ all_chars is_hex b = true /\
     all_chars is_hex c = true /\ all_chars is_hex d = true /\
     all_chars is_hex e = true) /\
  (isValidUUID s = true ->
   String.length s = 36%nat /\
   all_chars (fun ch => is_hex ch || Ascii.eqb ch "-") s = true).
Proof.
  assert (Hshape : isValidUUID s = true <->
   exists a b c d e,
     s = a +:+ "-" +:+ b +:+ "-" +:+ c +:+ "-" +:+ d +:+ "-" +:+ e /\
     String.length a = 8%nat /\ String.length b = 4%nat /\ String.length c = 4%nat /\
     String.length d = 4%nat /\ String.length e = 12%nat /\
     all_chars is_hex a = true /\ all_chars is_hex b = true /\
     all_chars is_hex c = true /\ all_chars is_hex d = true /\
     all_chars is_hex e = true).
  { unfold isValidUUID, uuidRegex. rewrite test_lang. split.
    - intros H.
      apply lang_seq in H. destruct H as (a & s1 & -> & Ha & H).
      apply lang_seq in H. destruct H as (h1 & s2 & -> & Hh1 & H).
      apply lang_seq in H. destruct H as (b & s3 & -> & Hb & H).
      apply lang_seq in H. destruct H as (h2 & s4 & -> & Hh2 & H).
      apply lang_seq in H. destruct H as (c & s5 & -> & Hc & H).
      apply lang_seq in H. destruct H as (h3 & s6 & -> & Hh3 & H).
      apply lang_seq in H. destruct H as (d & s7 & -> & Hd & H).
      apply lang_seq in H. destruct H as (h4 & e & -> & Hh4 & He).
      apply lang_char in Hh1, Hh2, Hh3, Hh4. subst.
      apply lang_times_class in Ha, Hb, Hc, Hd, He.
      exists a, b, c, d, e. intuition.
    - intros (a & b & c & d & e & -> & La & Lb & Lc & Ld & Le & Ha & Hb & Hc & Hd & He).
      repeat (apply lang_seq; eexists _, _; split; [reflexivity|split]);
        try (apply lang_char; reflexivity);
        apply lang_times_class; auto. }
  split; [exact Hshape|].
  intros H. apply Hshape in H.
  destruct H as (a & b & c & d & e & -> & La & Lb & Lc & Ld & Le & Ha & Hb & Hc & Hd & He).
  split.
  - rewrite !length_append, La, Lb, Lc, Ld, Le. reflexivity.
  - assert (Hhex : forall x, all_chars is_hex x = true ->
              all_chars (fun ch => is_hex ch || Ascii.eqb ch "-") x = true).
    { intros x. apply all_chars_impl. intros ch ->. reflexivity. }
    rewrite !all_chars_append, (Hhex a Ha), (Hhex b Hb), (Hhex c Hc), (Hhex d Hd),
      (Hhex e He). reflexivity.
Qed.

Lemma isValidUUID_shape_sample :
  String.length "123e4567-E89B-12d3-a456-426614174000" = 36%nat /\
  all_chars (fun ch => is_hex ch || Ascii.eqb ch "-")
    "123e4567-E89B-12d3-a456-426614174000" = true.
Proof.
  apply (isValidUUID_shape "123e4567-E89B-12d3-a456-426614174000").
  vm_compute. reflexivity.
Defined.

Example uuid_rejections :
  isValidUUID "" = false /\
  isValidUUID "discover" = false /\
  isValidUUID "123e4567e89b12d3a456426614174000" = false /\
  isValidUUID "123e4567-e89b-12d3-a456-42661417400g" = false /\
  isValidUUID "123e4567-e89b-12d3-a456-4266141740000" = false /\
  isValidUUID "123e4567-e89b-12d3-a456-426614174000' OR '1'='1" = false.
Proof. repeat split; vm_compute; reflexivity. Qed.

Lemma email_char_not_at s : all_chars email_char s = true -> count_char "@" s = 0%nat.
Proof.
  induction s as [|ch s IH]; [reflexivity|].
  intros H. change (email_char ch && all_chars email_char s = true) in H.
  apply andb_prop in H. destruct H as [Hch Hs].
  unfold email_char in Hch. apply andb_prop in Hch. destruct Hch as [_ Hat].
  apply negb_true_iff in Hat. rewrite Ascii.eqb_sym in Hat.
  change (((if Ascii.eqb "@" ch then 1 else 0) + count_char "@" s)%nat = 0%nat).
  rewrite Hat, IH by exact Hs. reflexivity.
Qed.

(** X9. [isValidEmail] accepts exactly the strings of the form
    local@domain.tail in which the three parts are non-empty and contain
    neither white space nor "@"; so an accepted address has exactly one "@"
    and no white space. *)
Theorem isValidEmail_shape s :
  (isValidEmail s = true <->
   exists l d t,
     s = l +:+ "@" +:+ d +:+ "." +:+ t /\
     l <> "" /\ d <> "" /\ t <> "" /\
     all_chars email_char l = true /\ all_chars email_char d = true /\
     all_chars email_char t = true) /\
  (isValidEmail s = true ->
   count_char "@" s = 1%nat /\
   all_chars (fun ch => negb (is_whitespace ch)) s = true).
Proof.
  assert (Hshape : isValidEmail s = true <->
   exists l d t,
     s = l +:+ "@" +:+ d +:+ "." +:+ t /\
     l <> "" /\ d <> "" /\ t <> "" /\
     all_chars email_char l = true /\ all_chars email_char d = true /\
     all_chars email_char t = true).
  { unfold isValidEmail, emailRegex. rewrite test_lang. split.
    - intros H.
      apply lang_seq in H. destruct H as (l & s1 & -> & Hl & H).
      apply lang_seq in H. destruct H as (at_ & s2 & -> & Hat & H).
      apply lang_seq in H. destruct H as (d & s3 & -> & Hd & H).
      apply lang_seq in H. destruct H as (dot & t & -> & Hdot & Ht).
      apply lang_char in Hat, Hdot. subst.
      apply lang_plus_class in Hl, Hd, Ht.
      exists l, d, t. intuition.
    - intros (l & d & t & -> & Nl & Nd & Nt & Hl & Hd & Ht).
      repeat (apply lang_seq; eexists _, _; split; [reflexivity|split]);
        try (apply lang_char; reflexivity);
        apply lang_plus_class; auto. }
  split; [exact Hshape|].
  intros H. apply Hshape in H.
  destruct H as (l & d & t & -> & _ & _ & _ & Hl & Hd & Ht).
  split.
  - rewrite !count_char_append, (email_char_not_at l Hl), (email_char_not_at d Hd),
      (email_char_not_at t Ht). reflexivity.
  - assert (Hws : forall x, all_chars email_char x = true ->
              all_chars (fun ch => negb (is_whitespace ch)) x = true).
    { intros x. apply all_chars_impl. intros ch Hch.
      unfold email_char in Hch. apply andb_prop in Hch. tauto. }
    rewrite !all_chars_append, (Hws l Hl), (Hws d Hd), (Hws t Ht). reflexivity.
Qed.

Lemma isValidEmail_shape_sample :
  count_char "@" "scout@noverthinker.com" = 1%nat /\
  all_chars (fun ch => negb (is_whitespace ch)) "scout@noverthinker.com" = true.
Proof.
  apply (isValidEmail_shape "scout@noverthinker.com"). vm_compute. reflexivity.
Defined.

Example email_rejections :
  isValidEmail "" = false /\
  isValidEmail "scout" = false /\
  isValidEmail "scout@noverthinker" = false /\
  isValidEmail "scout@@noverthinker.com" = false /\
  isValidEmail "scout @noverthinker.com" = false /\
  isValidEmail "scout@.com" = false /\
  isValidEmail "scout@noverthinker." = false.
Proof. repeat split; vm_compute; reflexivity. Qed.

Section ValidationProperties.

Import Validation.

Variable NumberToString : JS.number -> string.
Variable StringToNumber : string -> JS.number.
Variable Date_parse : string -> JS.number.

Let validateField := Validation.validateField NumberToString StringToNumber Date_parse.
Let validateObject := Validation.validateObject NumberToString StringToNumber Date_parse.
Let validate := Validation.validate NumberToString StringToNumber Date_parse.
Let Number := Validation.Number NumberToString StringToNumber.

Lemma push_if_located cond f loc msg e :
  e ∈ push_if cond f loc msg -> field e = f /\ location e = loc.
Proof.
  unfold push_if. destruct cond; [|intros H; apply elem_of_nil in H; contradiction].
  intros H. apply list_elem_of_singleton in H. subst. auto.
Qed.

Lemma validateField_located obj loc f r e :
  e ∈ validateField obj loc f r -> field e = f /\ location e = loc.
Proof.
  subst validateField. unfold Validation.validateField. cbv zeta.
  destruct (required r && is_empty _); [apply push_if_located|].
  destruct (is_empty _); [intros H; apply elem_of_nil in H; contradiction|].
  destruct (match type r with Some _ => _ | None => _ end); [apply push_if_located|].
  rewrite !elem_of_app.
  intros H. repeat (destruct H as [H|H]; [eapply push_if_located; exact H|]).
  destruct (custom r) as [check|]; [|apply elem_of_nil in H; contradiction].
  destruct (check _ _) as [msg|]; [|apply elem_of_nil in H; contradiction].
  eapply push_if_located; exact H.
Qed.

(** X10. Every error reported by [validateObject] carries the location it
    was called with and the name of a field of the schema. *)
Theorem validation_errors_located obj sch loc e :
  e ∈ validateObject obj sch loc ->
  location e = loc /\ exists r, (field e, r) ∈ sch.
Proof.
  subst validateObject. unfold Validation.validateObject.
  intros H. apply list_elem_of_In, in_concat in H. destruct H as (errs & Herrs & He).
  apply list_elem_of_In in Herrs, He.
  apply list_elem_of_fmap in Herrs. destruct Herrs as ([f r] & -> & Hin).
  apply validateField_located in He. cbn [fst snd] in He. destruct He as [Hf Hl].
  split; [exact Hl|]. exists r. rewrite Hf. exact Hin.
Qed.

(** X11. When every field of the schema is missing or empty in the object
    (undefined, null or the empty string), the errors are exactly one
    "is required" error per required field, in schema order; no other rule
    of any field is looked at. *)
Theorem validation_of_empty_fields obj sch loc :
  (forall f r, (f, r) ∈ sch -> is_empty (default Undefined (obj !! f)) = true) ->
  validateObject obj sch loc =
  map (fun entry => required_error loc entry.1 entry.2)
      (filter (fun entry => required entry.2 = true) sch).
Proof.
  subst validateObject. unfold Validation.validateObject.
  induction sch as [|[f r] sch IH]; intros Hempty; [reflexivity|].
  cbn [map concat]. rewrite IH.
  2:{ intros f' r' Hin. apply (Hempty f' r'). apply elem_of_cons. auto. }
  cbn [fst snd]. unfold Validation.validateField at 1. cbv zeta.
  rewrite (Hempty f r) by (apply elem_of_cons; auto).
  rewrite filter_cons. cbn [fst snd].
  destruct (required r); cbn.
  - destruct (decide (true = true)); [reflexivity|congruence].
  - destruct (decide (false = true)); [discriminate|reflexivity].
Qed.

Lemma app_nil_iff {A} (l1 l2 : list A) : l1 ++ l2 = [] <-> l1 = [] /\ l2 = [].
Proof. destruct l1; cbn; split; try tauto; try discriminate. intros [? _]. discriminate. Qed.

Lemma push_if_nil cond f loc msg : push_if cond f loc msg = [] <-> cond = false.
Proof. destruct cond; cbn; split; try reflexivity; discriminate. Qed.

(** X12. The length rules read [value.length] of whatever the value is.
    A value that has none (a number, a boolean, an object without a [length]
    property) passes [minLength] and [maxLength] whatever the bounds; an
    object that has a [length] property is held to the bounds through that
    property, read as a number: it passes exactly when the property is
    neither below [minLength] nor above [maxLength]. *)
Theorem length_rules_read_the_length_property obj loc f v req msg lo hi :
  obj !! f = Some v ->
  is_empty v = false ->
  let r := {| required := req; message := msg; type := None; minLength := lo;
              maxLength := hi; min := None; max := None; pattern := None;
              patternMessage := None; email := false; uuid := false; enum := None;
              custom := None |} in
  (without_length v = true -> validateField obj loc f r = []) /\
  (forall len, v = Obj (Some len) ->
     (validateField obj loc f r = [] <->
      (forall m, lo = Some m -> m <> 0 ->
         PrimFloat.ltb (Number len) (JS.of_Z m) = false) /\
      (forall m, hi = Some m -> m <> 0 ->
         PrimFloat.ltb (JS.of_Z m) (Number len) = false))).
Proof.
  intros Hv Hne r. subst r validateField Number. unfold Validation.validateField.
  cbn [required type minLength maxLength min max pattern email uuid enum custom
       message patternMessage].
  rewrite Hv. cbn [from_option id]. rewrite Hne, andb_false_r.
  change (push_if false f loc ?m) with (@nil verror).
  rewrite !app_nil_r. split.
  - intros Hnone. apply app_nil_iff. split; apply push_if_nil.
    + destruct lo as [m|]; [|reflexivity].
      destruct v as [| | | | | |[len|]]; try discriminate; apply andb_false_r.
    + destruct hi as [m|]; [|reflexivity].
      destruct v as [| | | | | |[len|]]; try discriminate; apply andb_false_r.
  - intros len ->. rewrite app_nil_iff, !push_if_nil.
    cbn [Validation.length_below Validation.length_above].
    split.
    + intros [Hlo Hhi]. split.
      * intros m -> Hm. destruct (Z.eqb_spec m 0); [contradiction|]. exact Hlo.
      * intros m -> Hm. destruct (Z.eqb_spec m 0); [contradiction|]. exact Hhi.
    + intros [Hlo Hhi]. split.
      * destruct lo as [m|]; [|reflexivity].
        destruct (Z.eqb_spec m 0); [reflexivity|]. apply (Hlo m eq_refl). assumption.
      * destruct hi as [m|]; [|reflexivity].
        destruct (Z.eqb_spec m 0); [reflexivity|]. apply (Hhi m eq_refl). assumption.
Qed.

(** The verdict of [validate(schemas.uuidParam)] on a string [id]. *)
Lemma uuidParam_verdict req s :
  req_params req !! "id" = Some (Str s) ->
  validate uuidParam req =
  if isValidUUID s then Next
  else Rejected [{| field := "id"; location := "params";
                    v_message := match s with
                                 | EmptyString => "id is required"
                                 | String _ _ => "id must be a valid UUID"
                                 end |}].
Proof.
  intros Hid. unfold validate, Validation.validate, uuidParam,
    Validation.validateObject, Validation.validateField.
  cbn -[isValidUUID]. rewrite Hid. cbn -[isValidUUID].
  destruct s as [|ch s]; [reflexivity|].
  cbn -[isValidUUID]. destruct (isValidUUID (String ch s)); reflexivity.
Qed.

(** X13. On a route guarded by [validate(schemas.uuidParam)], a request
    whose [id] parameter is a string goes on to the next handler exactly
    when the string is a UUID; otherwise it is answered 400 with a single
    error, on field [id] of [params]. *)
Theorem uuidParam_guards_id req s :
  req_params req !! "id" = Some (Str s) ->
  (validate uuidParam req = Next <-> isValidUUID s = true) /\
  (isValidUUID s = false ->
   exists msg,
     validate uuidParam req =
     Rejected [{| field := "id"; location := "params"; v_message := msg |}]).
Proof.
  intros Hid. rewrite (uuidParam_verdict req s Hid).
  destruct (isValidUUID s).
  - split; [tauto|discriminate].
  - split; [split; discriminate|]. intros _. eexists. reflexivity.
Qed.

(** What the rules on length, e-mail, UUID and enumeration demand of a
    non-empty string. *)
Lemma validateField_string obj loc f s req msg lo hi em uu en :
  obj !! f = Some (Str s) -> s <> "" ->
  (validateField obj loc f
     {| required := req; message := msg; type := None; minLength := lo;
        maxLength := hi; min := None; max := None; pattern := None;
        patternMessage := None; email := em; uuid := uu; enum := en;
        custom := None |} = []
   <->
   (forall m, lo = Some m -> m = 0 \/ m <= Z.of_nat (String.length s)) /\
   (forall m, hi = Some m -> m = 0 \/ Z.of_nat (String.length s) <= m) /\
   (em = true -> isValidEmail s = true) /\
   (uu = true -> isValidUUID s = true) /\
   (forall allowed, en = Some allowed -> s ∈ allowed)).
Proof.
  intros Hv Hne. subst validateField. unfold Validation.validateField.
  cbn [required type minLength maxLength min max pattern email uuid enum custom
       message patternMessage].
  rewrite Hv. cbn [from_option id ToString Validation.length_below Validation.length_above].
  assert (He : is_empty (Str s) = false) by (destruct s; [contradiction|reflexivity]).
  rewrite He, andb_false_r.
  set (len := Z.of_nat (String.length s)).
  change (push_if false f loc ?m) with (@nil verror).
  rewrite !app_nil_r, !app_nil_l, !app_nil_iff, !push_if_nil.
  assert (Hlo : match lo with Some m => negb (m =? 0) && (len <? m) | None => false end
                = false <-> forall m, lo = Some m -> m = 0 \/ m <= len).
  { destruct lo as [m|]; [|split; [discriminate|reflexivity]].
    destruct (Z.eqb_spec m 0), (Z.ltb_spec len m); cbn; split;
      try reflexivity; try discriminate; intros Hx; try (intros ? [= <-]; lia).
    destruct (Hx m eq_refl); lia. }
  assert (Hhi : match hi with Some m => negb (m =? 0) && (m <? len) | None => false end
                = false <-> forall m, hi = Some m -> m = 0 \/ len <= m).
  { destruct hi as [m|]; [|split; [discriminate|reflexivity]].
    destruct (Z.eqb_spec m 0), (Z.ltb_spec m len); cbn; split;
      try reflexivity; try discriminate; intros Hx; try (intros ? [= <-]; lia).
    destruct (Hx m eq_refl); lia. }
  assert (Hen : match en with
                | Some allowed => negb (bool_decide (s ∈ allowed))
                | None => false
                end = false <-> forall allowed, en = Some allowed -> s ∈ allowed).
  { destruct en as [allowed|]; [|split; [discriminate|reflexivity]].
    case_bool_decide; cbn; split; try reflexivity; try discriminate.
    - intros _ ? [= <-]. assumption.
    - intros H'. specialize (H' _ eq_refl). contradiction. }
  rewrite Hlo, Hhi, Hen.
  assert (Hem : em && negb (isValidEmail s) = false <-> (em = true -> isValidEmail s = true))
    by (destruct em, (isValidEmail s); cbn; intuition discriminate).
  assert (Huu : uu && negb (isValidUUID s) = false <-> (uu = true -> isValidUUID s = true))
    by (destruct uu, (isValidUUID s); cbn; intuition discriminate).
  rewrite Hem, Huu. tauto.
Qed.

Lemma validate_next sch req :
  validate sch req = Next <->
  (from_option (fun s => validateObject (req_body req) s "body") [] (s_body sch) = []) /\
  (from_option (fun s => validateObject (req_params req) s "params") [] (s_params sch) = []) /\
  (from_option (fun s => validateObject (req_query req) s "query") [] (s_query sch) = []).
Proof.
  subst validate validateObject. unfold Validation.validate.
  destruct (s_body sch) as [b|], (s_params sch) as [p|], (s_query sch) as [q|];
    cbn [from_option];
    repeat match goal with
           | |- context [Validation.validateObject ?a ?b ?c ?o ?s ?l] =>
               destruct (Validation.validateObject a b c o s l)
           end; cbn; split; intros H; try discriminate; try reflexivity;
    try (repeat split; reflexivity); destruct H as (? & ? & ?); discriminate.
Qed.

(** X14. A registration whose five fields are strings passes
    [validate(schemas.register)] exactly when the e-mail has the accepted
    form, the password has 8 to 128 code units, first and last name have 2
    to 100, and the user type is player, coach or agent. *)
Theorem register_accepts req e p fn ln u :
  req_body req !! "email" = Some (Str e) ->
  req_body req !! "password" = Some (Str p) ->
  req_body req !! "firstName" = Some (Str fn) ->
  req_body req !! "lastName" = Some (Str ln) ->
  req_body req !! "userType" = Some (Str u) ->
  (validate register req = Next <->
   isValidEmail e = true /\
   (8 <= String.length p <= 128)%nat /\
   (2 <= String.length fn <= 100)%nat /\
   (2 <= String.length ln <= 100)%nat /\
   u ∈ ["player"; "coach"; "agent"]).
Proof.
  intros He Hp Hfn Hln Hu.
  rewrite validate_next. unfold register. cbn [s_body s_params s_query from_option].
  unfold validateObject, Validation.validateObject. cbn [map concat fst snd].
  rewrite app_nil_r.
  fold validateField.
  assert (Hempty : forall loc f r, req_body req !! f = Some (Str "") ->
            required r = true -> validateField (req_body req) loc f r <> []).
  { intros loc f r Hf Hr. subst validateField. unfold Validation.validateField.
    rewrite Hf, Hr. cbn. discriminate. }
  split.
  - intros (H & _ & _).
    repeat match type of H with
           | _ ++ _ = [] => apply app_eq_nil in H; destruct H as [? H]
           end.
    assert (e <> "").
    { intros ->.
      match goal with
      | X : validateField _ _ "email" _ = [] |- _ => refine (Hempty _ _ _ He _ X); reflexivity
      end. }
    assert (p <> "").
    { intros ->.
      match goal with
      | X : validateField _ _ "password" _ = [] |- _ => refine (Hempty _ _ _ Hp _ X); reflexivity
      end. }
    assert (fn <> "").
    { intros ->.
      match goal with
      | X : validateField _ _ "firstName" _ = [] |- _ => refine (Hempty _ _ _ Hfn _ X); reflexivity
      end. }
    assert (ln <> "").
    { intros ->.
      match goal with
      | X : validateField _ _ "lastName" _ = [] |- _ => refine (Hempty _ _ _ Hln _ X); reflexivity
      end. }
    assert (u <> "").
    { intros ->.
      match goal with
      | X : validateField _ _ "userType" _ = [] |- _ => refine (Hempty _ _ _ Hu _ X); reflexivity
      end. }
    repeat match goal with
           | X : validateField _ _ _ _ = [] |- _ =>
               eapply validateField_string in X; [|eassumption|assumption]
           end.
    repeat match goal with
           | X : _ /\ _ |- _ => destruct X
           end.
    repeat match goal with
           | X : forall m, Some ?k = Some m -> _ |- _ => specialize (X _ eq_refl)
           | X : forall a, Some ?k = Some a -> _ |- _ => specialize (X _ eq_refl)
           | X : true = true -> _ |- _ => specialize (X eq_refl)
           end.
    repeat split; try assumption; lia.
  - intros (Hemail & Hpl & Hfl & Hll & Hut).
    assert (e <> "") by (intros ->; discriminate Hemail).
    assert (p <> "") by (intros ->; cbn in Hpl; lia).
    assert (fn <> "") by (intros ->; cbn in Hfl; lia).
    assert (ln <> "") by (intros ->; cbn in Hll; lia).
    assert (u <> "").
    { intros ->. repeat (apply elem_of_cons in Hut; destruct Hut as [Hut|Hut];
                         [discriminate|]). apply elem_of_nil in Hut. contradiction. }
    split; [|split; reflexivity].
    repeat match goal with
           | |- _ ++ _ = [] => apply app_nil_iff; split
           end;
      (eapply validateField_string; [eassumption|assumption|]);
      repeat split; intros; simplify_eq; auto; try discriminate; right; lia.
Qed.

End ValidationProperties.

(** ** Authentication and authorization (auth.js) *)

Lemma split_on_cons sep c s :
  split_on sep (String c s) =
  if Ascii.eqb c sep then "" :: split_on sep s
  else match split_on sep s with
       | piece :: pieces => String c piece :: pieces
       | [] => [String c ""]
       end.
Proof. reflexivity. Qed.

Lemma split_on_piece sep t rest :
  no_char sep t -> split_on sep (t +:+ String sep rest) = t :: split_on sep rest.
Proof.
  unfold no_char. induction t as [|c t IH]; intros H.
  - rewrite append_nil_l, split_on_cons, Ascii.eqb_refl. reflexivity.
  - change (negb (Ascii.eqb c sep) && all_chars (fun c => negb (Ascii.eqb c sep)) t = true) in H.
    apply andb_prop in H. destruct H as [Hc Ht]. apply negb_true_iff in Hc.
    rewrite append_cons, split_on_cons, Hc, IH by exact Ht. reflexivity.
Qed.

Lemma split_on_last sep t : no_char sep t -> split_on sep t = [t].
Proof.
  unfold no_char. induction t as [|c t IH]; intros H; [reflexivity|].
  change (negb (Ascii.eqb c sep) && all_chars (fun c => negb (Ascii.eqb c sep)) t = true) in H.
  apply andb_prop in H. destruct H as [Hc Ht]. apply negb_true_iff in Hc.
  rewrite split_on_cons, Hc, IH by exact Ht. reflexivity.
Qed.

Lemma split_on_pieces sep s : Forall (no_char sep) (split_on sep s).
Proof.
  induction s as [|c s IH]; [repeat constructor|].
  rewrite split_on_cons. destruct (Ascii.eqb c sep) eqn:Hc.
  - constructor; [reflexivity|exact IH].
  - destruct (split_on sep s) as [|piece pieces].
    + repeat constructor. unfold no_char.
      change (negb (Ascii.eqb c sep) && true = true). rewrite Hc. reflexivity.
    + inversion IH as [|? ? Hp Hps]; subst. constructor; [|exact Hps].
      unfold no_char in *.
      change (negb (Ascii.eqb c sep)
              && all_chars (fun c => negb (Ascii.eqb c sep)) piece = true).
      rewrite Hc, Hp. reflexivity.
Qed.

(** X15. The token taken from an Authorization header is the text between
    "Bearer " and the next space: for a token without spaces it is the token
    itself, whatever follows a second space being ignored; and the text
    handed to [jwt.verify] never contains a space. *)
Theorem bearer_token_extraction :
  (forall token, no_char " " token ->
     Auth.bearer_token ("Bearer " +:+ token) = token /\
     forall rest, Auth.bearer_token ("Bearer " +:+ token +:+ " " +:+ rest) = token) /\
  (forall authHeader, no_char " " (Auth.bearer_token authHeader)).
Proof.
  split.
  - intros token Hno. unfold Auth.bearer_token. split.
    + change ("Bearer " +:+ token) with ("Bearer" +:+ String " " token).
      rewrite split_on_piece by reflexivity.
      rewrite (split_on_last " " token Hno). reflexivity.
    + intros rest.
      change ("Bearer " +:+ token +:+ " " +:+ rest)
        with ("Bearer" +:+ String " " (token +:+ String " " rest)).
      rewrite split_on_piece by reflexivity.
      rewrite (split_on_piece " " token rest Hno). reflexivity.
  - intros authHeader. unfold Auth.bearer_token.
    pose proof (split_on_pieces " " authHeader) as Hall.
    destruct (split_on " " authHeader) as [|p0 [|p1 ps]]; try reflexivity.
    inversion Hall as [|? ? _ Hall']; subst. inversion Hall'; subst. assumption.
Qed.

Lemma bearer_token_extraction_sample :
  Auth.bearer_token "Bearer u-agent.sig" = "u-agent.sig" /\
  Auth.bearer_token "Bearer u-agent.sig trailing words" = "u-agent.sig".
Proof.
  destruct bearer_token_extraction as [Htoken _].
  destruct (Htoken "u-agent.sig" eq_refl) as [H1 H2].
  split; [exact H1|exact (H2 "trailing words")].
Defined.

Section AuthProperties.

Variable jwt_verify : string -> outcome string.

Let authenticate := Auth.authenticate jwt_verify.
Let optionalAuth := Auth.optionalAuth jwt_verify.
Let valid_login := Auth.valid_login jwt_verify.
Let token_check := Auth.token_check jwt_verify.
Let looked_up := Auth.looked_up jwt_verify.
Let breaks := Auth.breaks jwt_verify.

(** One run of [authenticate], case by case. *)
Lemma authenticate_run authorization w :
  authenticate authorization w =
  match token_check authorization with
  | None => (Ok (Auth.Denied 401 "Access denied. No token provided."), w)
  | Some (Throw e) =>
      (Ok (if String.eqb (err_name e) "JsonWebTokenError"
           then Auth.Denied 401 "Invalid token."
           else if String.eqb (err_name e) "TokenExpiredError"
           then Auth.Denied 401 "Token expired."
           else Auth.Denied 500 "Authentication error."), w)
  | Some (Ok userId) =>
      (Ok (match outage w (length (issued w)) with
           | Some _ => Auth.Denied 500 "Authentication error."
           | None =>
               match List.filter (fun u => String.eqb (Users.id u) userId) (users (db w)) with
               | [] => Auth.Denied 401 "User not found."
               | user :: _ =>
                   if Users.is_active user then Auth.Granted (Auth.attach user)
                   else Auth.Denied 401 "Account is deactivated."
               end
           end),
       set_issued (issued w ++ [SelectUser userId]) w)
  end.
Proof.
  unfold authenticate, Auth.authenticate, token_check, Auth.token_check, try_catch.
  destruct authorization as [authHeader|]; [|reflexivity].
  destruct (String.prefix "Bearer " authHeader); cbn [negb]; [|reflexivity].
  unfold mbind, async_bind, Auth.verify.
  destruct (jwt_verify (Auth.bearer_token authHeader)) as [userId|e].
  2:{ destruct (String.eqb (err_name e) "JsonWebTokenError"); [reflexivity|].
      destruct (String.eqb (err_name e) "TokenExpiredError"); reflexivity. }
  unfold select, query.
  destruct (outage w (length (issued w))) as [sqlstate|]; [reflexivity|].
  cbn [db set_issued].
  destruct (List.filter _ _) as [|user rest]; [reflexivity|].
  destruct (Users.is_active user); reflexivity.
Qed.

(** What [authenticate] leaves behind. *)
Lemma authenticate_world authorization w :
  (authenticate authorization w).2 = looked_up SelectUser authorization w.
Proof.
  rewrite authenticate_run. unfold looked_up, Auth.looked_up. fold token_check.
  destruct (token_check authorization) as [[userId|e]|]; reflexivity.
Qed.

(** The facts about one run of [authenticate]. *)
Lemma authenticate_spec authorization w :
  exists r,
    authenticate authorization w = (Ok r, looked_up SelectUser authorization w) /\
    (forall u, r = Auth.Granted u <-> valid_login authorization w u) /\
    (r = Auth.Denied 500 "Authentication error." <-> breaks authorization w) /\
    (forall status error, r = Auth.Denied status error ->
       status = 401 \/ (status = 500 /\ error = "Authentication error.")).
Proof.
  rewrite authenticate_run.
  unfold looked_up, Auth.looked_up, valid_login, Auth.valid_login, breaks, Auth.breaks,
    Auth.unexpected.
  fold token_check.
  destruct (token_check authorization) as [[userId|e]|] eqn:Htoken.
  - destruct (outage w (length (issued w))) as [sqlstate|] eqn:Hout.
    { eexists. split; [reflexivity|]. split; [|split].
      - intros u. split; [discriminate|].
        intros (? & ? & ? & _ & Hup & _). congruence.
      - split; [|reflexivity]. intros _. right. eauto.
      - intros ? ? [= <- <-]. auto. }
    destruct (List.filter _ (users (db w))) as [|row rest] eqn:Hrows.
    { eexists. split; [reflexivity|]. split; [|split].
      - intros u. split; [discriminate|].
        intros (? & ? & ? & [= <-] & _ & Hf & _). congruence.
      - split; [discriminate|].
        intros [(? & [=] & _)|(? & ? & _ & Hdown)]. congruence.
      - intros ? ? [= <- _]. auto. }
    destruct (Users.is_active row) eqn:Hact.
    + eexists. split; [reflexivity|]. split; [|split].
      * intros u. split.
        -- intros [= <-]. exists userId, row, rest. auto.
        -- intros (? & ? & ? & [= <-] & _ & Hf & _ & ->).
           rewrite Hrows in Hf. injection Hf as <- _. reflexivity.
      * split; [discriminate|].
        intros [(? & [=] & _)|(? & ? & _ & Hdown)]. congruence.
      * discriminate.
    + eexists. split; [reflexivity|]. split; [|split].
      * intros u. split; [discriminate|].
        intros (? & ? & ? & [= <-] & _ & Hf & Ha & _).
        rewrite Hrows in Hf. injection Hf as <- _. congruence.
      * split; [discriminate|].
        intros [(? & [=] & _)|(? & ? & _ & Hdown)]. congruence.
      * intros ? ? [= <- _]. auto.
  - eexists. split; [reflexivity|]. split; [|split].
    + intros u. split.
      * destruct (String.eqb _ _); [discriminate|].
        destruct (String.eqb _ _); discriminate.
      * intros (? & ? & ? & [=] & _).
    + destruct (String.eqb_spec (err_name e) "JsonWebTokenError") as [Hj|Hj].
      { split; [discriminate|].
        intros [(? & [= <-] & Hn & _)|(? & ? & [=] & _)]. contradiction. }
      destruct (String.eqb_spec (err_name e) "TokenExpiredError") as [Hx|Hx].
      { split; [discriminate|].
        intros [(? & [= <-] & _ & Hn)|(? & ? & [=] & _)]. contradiction. }
      split; [|reflexivity]. intros _. left. exists e. auto.
    + intros status error.
      destruct (String.eqb _ _); [intros [= <- _]; auto|].
      destruct (String.eqb _ _); intros [= <- <-]; auto.
  - eexists. split; [reflexivity|]. split; [|split].
    + intros u. split; [discriminate|]. intros (? & ? & ? & [=] & _).
    + split; [discriminate|].
      intros [(? & [=] & _)|(? & ? & [=] & _)].
    + intros ? ? [= <- _]. auto.
Qed.

Lemma filter_first_and {A} (P Q : A -> bool) l x rest :
  List.filter P l = x :: rest -> Q x = true ->
  exists rest', List.filter (fun a => P a && Q a) l = x :: rest'.
Proof.
  induction l as [|a l IH]; cbn; [discriminate|].
  destruct (P a) eqn:HP; cbn.
  - intros [= -> _] HQ. rewrite HQ. eauto.
  - intros H HQ. apply IH; assumption.
Qed.

(** What [authenticate] grants. *)
Lemma authenticate_grants authorization w u :
  (authenticate authorization w).1 = Ok (Auth.Granted u) <-> valid_login authorization w u.
Proof.
  destruct (authenticate_spec authorization w) as (r & Hrun & Hgranted & _).
  rewrite Hrun. cbn [fst]. rewrite <- Hgranted. split; [intros [= ->]|intros ->]; reflexivity.
Qed.

(** X16. [authenticate] never rejects.  It sends one statement, the SELECT
    of the user, exactly when the request carries a token that verifies, and
    changes nothing else.  It lets the request through, attaching the user,
    exactly when the token verifies, the store answers, and the first user
    with the decoded id is active.  It answers 500 "Authentication error."
    exactly when an error other than the two token errors is thrown, by
    [jwt.verify] or by the store; every other request is answered 401. *)
Theorem authenticate_outcome authorization w :
  let run := authenticate authorization w in
  (exists r, run.1 = Ok r) /\
  run.2 = looked_up SelectUser authorization w /\
  (forall u, run.1 = Ok (Auth.Granted u) <-> valid_login authorization w u) /\
  (run.1 = Ok (Auth.Denied 500 "Authentication error.") <-> breaks authorization w) /\
  (forall status error, run.1 = Ok (Auth.Denied status error) ->
     status = 401 \/ (status = 500 /\ error = "Authentication error.")).
Proof.
  cbv zeta.
  destruct (authenticate_spec authorization w) as (r & Hrun & _ & Hbreaks & Hdenied).
  split; [exists r; rewrite Hrun; reflexivity|].
  split; [rewrite Hrun; reflexivity|].
  split; [intros u; apply authenticate_grants|].
  rewrite Hrun. cbn [fst]. split.
  - rewrite <- Hbreaks. split; [intros [= ->]|intros ->]; reflexivity.
  - intros status error [= ->]. apply (Hdenied status error). reflexivity.
Qed.

(** X17. [optionalAuth] never rejects and never answers in place of the
    handler: it always calls [next].  It sends one statement, the SELECT of
    the active user, exactly when the request carries a token that verifies,
    and changes nothing else.  It attaches the same user as [authenticate]
    whenever [authenticate] would let the request through, and a user it
    attaches is always an active user of the store whose id the verified
    token carries. *)
Theorem optionalAuth_outcome authorization w :
  exists o,
    optionalAuth authorization w = (Ok o, looked_up SelectActiveUser authorization w) /\
    (forall u, (authenticate authorization w).1 = Ok (Auth.Granted u) -> o = Some u) /\
    (forall u, o = Some u ->
       exists userId row,
         token_check authorization = Some (Ok userId) /\
         In row (users (db w)) /\
         Users.id row = userId /\ Users.is_active row = true /\ u = Auth.attach row).
Proof.
  assert (Hvl : forall u, (authenticate authorization w).1 = Ok (Auth.Granted u) ->
                 exists userId row rest,
                   token_check authorization = Some (Ok userId) /\
                   outage w (length (issued w)) = None /\
                   List.filter (fun r => String.eqb (Users.id r) userId) (users (db w))
                   = row :: rest /\
                   Users.is_active row = true /\ u = Auth.attach row).
  { intros u Hu. apply authenticate_grants in Hu. exact Hu. }
  unfold optionalAuth, Auth.optionalAuth, looked_up, Auth.looked_up, try_catch.
  fold token_check. unfold token_check, Auth.token_check in *.
  destruct authorization as [authHeader|].
  2:{ exists None. split; [reflexivity|]. split; [|discriminate].
      intros u Hu. apply Hvl in Hu. destruct Hu as (? & ? & ? & [=] & _). }
  destruct (String.prefix "Bearer " authHeader) eqn:Hpre; cbn [negb].
  2:{ exists None. split; [reflexivity|]. split; [|discriminate].
      intros u Hu. apply Hvl in Hu. destruct Hu as (? & ? & ? & [=] & _). }
  unfold mbind, async_bind, Auth.verify.
  destruct (jwt_verify (Auth.bearer_token authHeader)) as [userId|e] eqn:Hjwt.
  2:{ exists None. split; [reflexivity|]. split; [|discriminate].
      intros u Hu. apply Hvl in Hu. destruct Hu as (? & ? & ? & [=] & _). }
  unfold select, query.
  destruct (outage w (length (issued w))) as [sqlstate|] eqn:Hout.
  { exists None. split; [reflexivity|]. split; [|discriminate].
    intros u Hu. apply Hvl in Hu. destruct Hu as (? & ? & ? & _ & [=] & _). }
  cbn [db set_issued].
  destruct (List.filter (fun u => String.eqb (Users.id u) userId && Users.is_active u)
              (users (db w))) as [|row rest] eqn:Hrows.
  - exists None. split; [reflexivity|]. split; [|discriminate].
    intros u Hu. apply Hvl in Hu.
    destruct Hu as (? & row & ? & [= <-] & _ & Hf & Ha & _).
    destruct (filter_first_and _ Users.is_active _ _ _ Hf Ha) as [rest' Hf'].
    rewrite Hrows in Hf'. discriminate.
  - exists (Some (Auth.attach row)). split; [reflexivity|]. split.
    + intros u Hu. apply Hvl in Hu.
      destruct Hu as (? & row' & ? & [= <-] & _ & Hf & Ha & ->).
      destruct (filter_first_and _ Users.is_active _ _ _ Hf Ha) as [rest' Hf'].
      rewrite Hrows in Hf'. injection Hf' as -> _. reflexivity.
    + intros u [= <-]. exists userId, row.
      assert (Hin : In row (List.filter
                (fun u => String.eqb (Users.id u) userId && Users.is_active u)
                (users (db w))))
        by (rewrite Hrows; left; reflexivity).
      apply filter_In in Hin. destruct Hin as [Hin Hp].
      apply andb_prop in Hp. destruct Hp as [Hid Hact].
      apply String.eqb_eq in Hid. auto 10.
Qed.

End AuthProperties.

Lemma authenticate_outcome_sample :
  (Auth.authenticate sample_jwt_verify (Some "Bearer u-agent.sig") sample_world).1
  = Ok (Auth.Granted {| Auth.u_id := "u-agent"; Auth.u_email := "agent@noverthinker.com";
                        Auth.userType := "agent"; Auth.firstName := "Ann";
                        Auth.lastName := "Agent" |}) /\
  Auth.valid_login sample_jwt_verify (Some "Bearer u-agent.sig") sample_world
    {| Auth.u_id := "u-agent"; Auth.u_email := "agent@noverthinker.com";
       Auth.userType := "agent"; Auth.firstName := "Ann"; Auth.lastName := "Agent" |} /\
  (Auth.authenticate sample_jwt_verify (Some "Bearer u-agent.sig") sample_world).2
  = set_issued [SelectUser "u-agent"] sample_world /\
  Auth.breaks sample_jwt_verify (Some "Bearer u-agent.sig")
    (set_issued [SelectPlayer "x"; SelectAnalytics "x"] write_outage_world).
Proof.
  destruct (authenticate_outcome sample_jwt_verify (Some "Bearer u-agent.sig") sample_world)
    as (_ & Hworld & Hgranted & _).
  destruct (authenticate_outcome sample_jwt_verify (Some "Bearer u-agent.sig")
              (set_issued [SelectPlayer "x"; SelectAnalytics "x"] write_outage_world))
    as (_ & _ & _ & Hbreaks & _).
  assert (Hr : (Auth.authenticate sample_jwt_verify (Some "Bearer u-agent.sig")
                  sample_world).1
               = Ok (Auth.Granted {| Auth.u_id := "u-agent";
                                     Auth.u_email := "agent@noverthinker.com";
                                     Auth.userType := "agent"; Auth.firstName := "Ann";
                                     Auth.lastName := "Agent" |}))
    by (vm_compute; reflexivity).
  split; [exact Hr|]. split; [apply Hgranted; exact Hr|].
  split; [rewrite Hworld; reflexivity|].
  apply Hbreaks. vm_compute. reflexivity.
Defined.

Example authenticate_denials :
  (Auth.authenticate sample_jwt_verify None sample_world).1
    = Ok (Auth.Denied 401 "Access denied. No token provided.") /\
  (Auth.authenticate sample_jwt_verify (Some "Basic abc") sample_world).1
    = Ok (Auth.Denied 401 "Access denied. No token provided.") /\
  (Auth.authenticate sample_jwt_verify (Some "Bearer junk") sample_world).1
    = Ok (Auth.Denied 401 "Invalid token.") /\
  (Auth.authenticate sample_jwt_verify (Some "Bearer expired.sig") sample_world).1
    = Ok (Auth.Denied 401 "Token expired.") /\
  (Auth.authenticate sample_jwt_verify (Some "Bearer u-gone.sig") sample_world).1
    = Ok (Auth.Denied 401 "Account is deactivated.") /\
  (Auth.authenticate sample_jwt_verify (Some "Bearer u-agent.sig")
     (set_issued [SelectPlayer "x"; SelectAnalytics "x"] write_outage_world)).1
    = Ok (Auth.Denied 500 "Authentication error.") /\
  issued (Auth.authenticate sample_jwt_verify (Some "Bearer junk") sample_world).2 = [].
Proof. repeat split; vm_compute; reflexivity. Qed.

Lemma optionalAuth_outcome_sample :
  exists o,
    Auth.optionalAuth sample_jwt_verify (Some "Bearer u-gone.sig") sample_world
    = (Ok o, set_issued [SelectActiveUser "u-gone"] sample_world) /\
    o = None.
Proof.
  destruct (optionalAuth_outcome sample_jwt_verify (Some "Bearer u-gone.sig") sample_world)
    as (o & Hrun & _ & _).
  exists o. split; [exact Hrun|].
  assert (Hr : (Auth.optionalAuth sample_jwt_verify (Some "Bearer u-gone.sig")
                  sample_world).1 = Ok None)
    by (vm_compute; reflexivity).
  rewrite Hrun in Hr. injection Hr as ->. reflexivity.
Defined.

(** ** The guarded routes (routes/players.js) *)

Section RouteProperties.

Variable NumberToString : JS.number -> string.
Variable StringToNumber : string -> JS.number.
Variable Date_parse : string -> JS.number.
Variable jwt_verify : string -> outcome string.

Let valid_login := Auth.valid_login jwt_verify.
Let authenticated := Auth.looked_up jwt_verify.
Let analytics := analytics_route NumberToString StringToNumber Date_parse jwt_verify.
Let compare := compare_route jwt_verify.

(** The chain [authenticate, authorize('agent', 'admin'), handler]: the
    handler starts from the world [authenticate] leaves. *)
Lemma agents_only_spec {A} authorization (handler : async A) w resp w' :
  agents_only jwt_verify authorization handler w = (resp, w') ->
  let w1 := authenticated SelectUser authorization w in
  (forall r, resp = Handled r <->
     exists u, valid_login authorization w u /\
               Auth.userType u ∈ ["agent"; "admin"] /\
               asyncHandler handler w1 = (r, w')) /\
  ((forall r, resp <> Handled r) -> w' = w1) /\
  (forall status error, resp = Refused status error ->
     status = 401 \/ status = 403 \/ status = 500).
Proof.
  unfold agents_only. cbv zeta.
  destruct (authenticate_spec jwt_verify authorization w)
    as (r0 & Hrun & Hgranted & _ & Hdenied).
  rewrite Hrun. fold authenticated. set (w1 := authenticated SelectUser authorization w).
  destruct r0 as [status error|u].
  - intros [= <- <-]. split; [|split].
    + intros r. split; [discriminate|].
      intros (u & Hu & _). apply Hgranted in Hu. discriminate.
    + reflexivity.
    + intros ? ? [= <- <-]. destruct (Hdenied _ _ eq_refl) as [->|[-> _]]; auto.
  - assert (Hu : valid_login authorization w u) by (apply Hgranted; reflexivity).
    unfold Auth.authorize. case_bool_decide as Hrole; cbn [negb].
    + destruct (asyncHandler handler w1) as [r w2] eqn:Hh.
      intros [= <- <-]. split; [|split].
      * intros r'. split.
        -- intros [= <-]. eauto.
        -- intros (u' & Hu' & _ & Hr'). injection Hr' as ->. reflexivity.
      * intros Hno. exfalso. apply (Hno r). reflexivity.
      * discriminate.
    + intros [= <- <-]. split; [|split].
      * intros r. split; [discriminate|].
        intros (u' & Hu' & Hrole' & _).
        apply Hgranted in Hu'. injection Hu' as <-. contradiction.
      * reflexivity.
      * intros ? ? [= <- <-]. auto.
Qed.

(** X18. On [GET /:id/analytics] the handler runs exactly for a request
    whose [id] is a UUID and that carries the token of an active user of
    type agent or admin; it then starts from the state [authenticate] has
    left, and the client receives its response.  A request with any other
    [id] is answered 400 by the validator and nothing is sent to the store.
    A request with a UUID that does not reach the handler leaves the cache,
    the tables and the clock as they were; the one statement it may have
    sent is the SELECT of the user, which [authenticate] sends exactly when
    the token verifies. *)
Theorem analytics_route_guard id authorization w resp w' :
  analytics id authorization w = (resp, w') ->
  let w1 := authenticated SelectUser authorization w in
  (forall r, resp = Handled r <->
     isValidUUID id = true /\
     exists u, valid_login authorization w u /\
               Auth.userType u ∈ ["agent"; "admin"] /\
               asyncHandler (getPlayerAnalytics id) w1 = (r, w')) /\
  (isValidUUID id = false -> (exists details, resp = Invalid details) /\ w' = w) /\
  (isValidUUID id = true -> (forall r, resp <> Handled r) ->
   w' = w1 /\ db w' = db w /\ redisClient w' = redisClient w /\ now w' = now w /\
   (issued w' = issued w \/
    exists userId, Auth.token_check jwt_verify authorization = Some (Ok userId) /\
                   issued w' = issued w ++ [SelectUser userId])).
Proof.
  unfold analytics, analytics_route. cbv zeta.
  rewrite (uuidParam_verdict NumberToString StringToNumber Date_parse
             {| Validation.req_body := ∅;
                Validation.req_params := {[ "id" := Validation.Str id ]};
                Validation.req_query := ∅ |} id)
    by (cbn; apply lookup_singleton_eq).
  destruct (isValidUUID id) eqn:Huuid.
  - intros Hrun.
    destruct (agents_only_spec _ _ _ _ _ Hrun) as (Hhandled & Hkeep & _).
    split; [|split; [discriminate|]].
    + intros r. rewrite Hhandled. tauto.
    + intros _ Hno. rewrite (Hkeep Hno). split; [reflexivity|].
      unfold authenticated, Auth.looked_up.
      destruct (Auth.token_check jwt_verify authorization) as [[userId|e]|];
        cbn; repeat split; eauto.
  - intros [= <- <-].
    split; [|split].
    + intros r. split; [discriminate|]. intros [[=] _].
    + eauto.
    + discriminate.
Qed.

(** X19. On [POST /compare] the handler runs exactly for a request that
    carries the token of an active user of type agent or admin, whatever the
    body; it then starts from the state [authenticate] has left.  Any other
    request is answered 401, 403 or 500 and leaves the cache, the tables and
    the clock as they were; the one statement it may have sent is the SELECT
    of the user, which [authenticate] sends exactly when the token
    verifies. *)
Theorem compare_route_guard playerIds authorization w resp w' :
  compare playerIds authorization w = (resp, w') ->
  let w1 := authenticated SelectUser authorization w in
  (forall r, resp = Handled r <->
     exists u, valid_login authorization w u /\
               Auth.userType u ∈ ["agent"; "admin"] /\
               asyncHandler (comparePlayers playerIds) w1 = (r, w')) /\
  ((forall r, resp <> Handled r) ->
   (exists status error, resp = Refused status error /\
                         (status = 401 \/ status = 403 \/ status = 500)) /\
   w' = w1 /\ db w' = db w /\ redisClient w' = redisClient w /\ now w' = now w /\
   (issued w' = issued w \/
    exists userId, Auth.token_check jwt_verify authorization = Some (Ok userId) /\
                   issued w' = issued w ++ [SelectUser userId])).
Proof.
  unfold compare, compare_route. cbv zeta. intros Hrun.
  destruct (agents_only_spec _ _ _ _ _ Hrun) as (Hhandled & Hkeep & Hstatus).
  split; [exact Hhandled|]. intros Hno. split.
  - destruct resp as [details|status error|r].
    + unfold agents_only in Hrun.
      destruct (Auth.authenticate _ _ _) as [[[? ?|u]|e] w1];
        [discriminate| |discriminate].
      destruct (Auth.authorize _ _); [discriminate|].
      destruct (asyncHandler _ _). discriminate.
    + exists status, error. split; [reflexivity|]. apply (Hstatus _ _ eq_refl).
    + exfalso. apply (Hno r). reflexivity.
  - rewrite (Hkeep Hno). split; [reflexivity|].
    unfold authenticated, Auth.looked_up.
    destruct (Auth.token_check jwt_verify authorization) as [[userId|e]|];
      cbn; repeat split; eauto.
Qed.

End RouteProperties.

Lemma analytics_route_guard_sample :
  exists r w',
    analytics_route sample_NumberToString sample_StringToNumber sample_Date_parse
      sample_jwt_verify alice_uuid (Some "Bearer u-agent.sig") uuid_world
    = (Handled r, w') /\
    isValidUUID alice_uuid = true /\
    exists u,
      Auth.valid_login sample_jwt_verify (Some "Bearer u-agent.sig") uuid_world u /\
      Auth.userType u ∈ ["agent"; "admin"] /\
      asyncHandler (getPlayerAnalytics alice_uuid)
        (set_issued [SelectUser "u-agent"] uuid_world) = (r, w').
Proof.
  destruct (analytics_route sample_NumberToString sample_StringToNumber sample_Date_parse
              sample_jwt_verify alice_uuid (Some "Bearer u-agent.sig")
              uuid_world) as [resp w'] eqn:Hrun.
  assert (Hresp : exists r, resp = Handled r).
  { assert (H : exists r,
               (analytics_route sample_NumberToString sample_StringToNumber
                  sample_Date_parse sample_jwt_verify alice_uuid
                  (Some "Bearer u-agent.sig") uuid_world).1 = Handled r)
      by (eexists; vm_compute; reflexivity).
    rewrite Hrun in H. exact H. }
  destruct Hresp as [r ->]. exists r, w'. split; [reflexivity|].
  destruct (analytics_route_guard _ _ _ _ _ _ _ _ _ Hrun) as (Hhandled & _ & _).
  apply Hhandled. reflexivity.
Defined.

Example analytics_route_refusals :
  analytics_route sample_NumberToString sample_StringToNumber sample_Date_parse
    sample_jwt_verify "discover" (Some "Bearer u-agent.sig") uuid_world
  = (Invalid [{| Validation.field := "id"; Validation.location := "params";
                 Validation.v_message := "id must be a valid UUID" |}], uuid_world) /\
  analytics_route sample_NumberToString sample_StringToNumber sample_Date_parse
    sample_jwt_verify alice_uuid (Some "Bearer u-player.sig") uuid_world
  = (Refused 403 "Access denied. Insufficient permissions.",
     set_issued [SelectUser "u-player"] uuid_world) /\
  analytics_route sample_NumberToString sample_StringToNumber sample_Date_parse
    sample_jwt_verify alice_uuid None uuid_world
  = (Refused 401 "Access denied. No token provided.", uuid_world).
Proof. repeat split; vm_compute; reflexivity. Qed.

Lemma compare_route_guard_sample :
  exists r w',
    compare_route sample_jwt_verify (Array ["alice"; "bob"])
      (Some "Bearer u-agent.sig") sample_world = (Handled r, w') /\
    exists u,
      Auth.valid_login sample_jwt_verify (Some "Bearer u-agent.sig") sample_world u /\
      Auth.userType u ∈ ["agent"; "admin"] /\
      asyncHandler (comparePlayers (Array ["alice"; "bob"]))
        (set_issued [SelectUser "u-agent"] sample_world) = (r, w').
Proof.
  destruct (compare_route sample_jwt_verify (Array ["alice"; "bob"])
              (Some "Bearer u-agent.sig") sample_world) as [resp w'] eqn:Hrun.
  assert (Hresp : exists r, resp = Handled r).
  { assert (H : exists r,
               (compare_route sample_jwt_verify
                  (Array ["alice"; "bob"]) (Some "Bearer u-agent.sig") sample_world).1
               = Handled r)
      by (eexists; vm_compute; reflexivity).
    rewrite Hrun in H. exact H. }
  destruct Hresp as [r ->]. exists r, w'. split; [reflexivity|].
  destruct (compare_route_guard _ _ _ _ _ _ Hrun) as (Hhandled & _).
  apply Hhandled. reflexivity.
Defined.

(** Witnesses of the validation properties, on the registration schema. *)

Lemma validation_errors_located_sample :
  Validation.location
    (Validation.required_error "body" "email"
       {| Validation.required := true; Validation.message := None;
          Validation.type := None; Validation.minLength := None;
          Validation.maxLength := None; Validation.min := None; Validation.max := None;
          Validation.pattern := None; Validation.patternMessage := None;
          Validation.email := true; Validation.uuid := false; Validation.enum := None;
          Validation.custom := None |}) = "body".
Proof.
  refine (proj1 (validation_errors_located sample_NumberToString sample_StringToNumber
                   sample_Date_parse ∅ register_fields "body" _ _)).
  apply elem_of_cons. left. reflexivity.
Defined.

Lemma validation_of_empty_fields_sample :
  map Validation.field
    (Validation.validateObject sample_NumberToString sample_StringToNumber sample_Date_parse
       {[ "email" := Validation.Str ""; "password" := Validation.Null ]}
       register_fields "body")
  = ["email"; "password"; "firstName"; "lastName"; "userType"].
Proof.
  rewrite (validation_of_empty_fields sample_NumberToString sample_StringToNumber
             sample_Date_parse).
  - reflexivity.
  - intros f r Hin.
    repeat (apply elem_of_cons in Hin; destruct Hin as [[= -> _]|Hin];
            [vm_compute; reflexivity|]).
    apply elem_of_nil in Hin. contradiction.
Defined.

(** A body [{"password": {"length": 1}}] fails [minLength: 8], and a
    numeric password passes. *)
Lemma length_rules_read_the_length_property_sample :
  Validation.validateField sample_NumberToString sample_StringToNumber sample_Date_parse
    {[ "password" := Validation.Obj (Some (Validation.Num 1%float)) ]} "body" "password"
    {| Validation.required := true; Validation.message := None; Validation.type := None;
       Validation.minLength := Some 8; Validation.maxLength := Some 128;
       Validation.min := None; Validation.max := None; Validation.pattern := None;
       Validation.patternMessage := None; Validation.email := false;
       Validation.uuid := false; Validation.enum := None; Validation.custom := None |}
  <> [] /\
  Validation.validateField sample_NumberToString sample_StringToNumber sample_Date_parse
    {[ "password" := Validation.Num 1234%float ]} "body" "password"
    {| Validation.required := true; Validation.message := None; Validation.type := None;
       Validation.minLength := Some 8; Validation.maxLength := Some 128;
       Validation.min := None; Validation.max := None; Validation.pattern := None;
       Validation.patternMessage := None; Validation.email := false;
       Validation.uuid := false; Validation.enum := None; Validation.custom := None |}
  = [].
Proof.
  split.
  - destruct (length_rules_read_the_length_property sample_NumberToString
                sample_StringToNumber sample_Date_parse
                {[ "password" := Validation.Obj (Some (Validation.Num 1%float)) ]}
                "body" "password" (Validation.Obj (Some (Validation.Num 1%float)))
                true None (Some 8) (Some 128)) as [_ Hobj];
      [vm_compute; reflexivity | reflexivity |].
    intros Hpass. apply (Hobj _ eq_refl) in Hpass. destruct Hpass as [Hlo _].
    assert (Hbelow : PrimFloat.ltb 1%float (JS.of_Z 8) = false)
      by (apply (Hlo 8 eq_refl); discriminate).
    vm_compute in Hbelow. discriminate Hbelow.
  - destruct (length_rules_read_the_length_property sample_NumberToString
                sample_StringToNumber sample_Date_parse
                {[ "password" := Validation.Num 1234%float ]}
                "body" "password" (Validation.Num 1234%float)
                true None (Some 8) (Some 128)) as [Hnone _];
      [vm_compute; reflexivity | reflexivity |].
    apply Hnone. reflexivity.
Defined.

Lemma uuidParam_guards_id_sample :
  Validation.validate sample_NumberToString sample_StringToNumber sample_Date_parse
    Validation.uuidParam
    {| Validation.req_body := ∅;
       Validation.req_params := {[ "id" := Validation.Str alice_uuid ]};
       Validation.req_query := ∅ |} = Validation.Next.
Proof.
  apply (uuidParam_guards_id sample_NumberToString sample_StringToNumber sample_Date_parse
           _ alice_uuid); [reflexivity | vm_compute; reflexivity].
Defined.

Lemma register_accepts_sample :
  Validation.validate sample_NumberToString sample_StringToNumber sample_Date_parse
    Validation.register
    {| Validation.req_body :=
         {[ "email" := Validation.Str "scout@noverthinker.com";
            "password" := Validation.Str "correct horse";
            "firstName" := Validation.Str "Ann";
            "lastName" := Validation.Str "Agent";
            "userType" := Validation.Str "agent" ]};
       Validation.req_params := ∅;
       Validation.req_query := ∅ |} = Validation.Next.
Proof.
  apply (register_accepts sample_NumberToString sample_StringToNumber sample_Date_parse
           _ "scout@noverthinker.com" "correct horse" "Ann" "Agent" "agent");
    try reflexivity.
  repeat split; try (cbn; lia); try (vm_compute; reflexivity).
  apply elem_of_cons. right. apply elem_of_cons. right. apply elem_of_cons. left. reflexivity.
Defined.

(** ** The listing queries (playersController.js) *)

Lemma select_app {A} flags1 flags2 (l1 l2 : list A) :
  length flags1 = length l1 ->
  Listing.select (flags1 ++ flags2) (l1 ++ l2)
  = Listing.select flags1 l1 ++ Listing.select flags2 l2.
Proof.
  revert l1. induction flags1 as [|flag flags1 IH]; intros [|x l1] Hlen;
    try discriminate; [reflexivity|].
  cbn. injection Hlen as Hlen. rewrite IH by exact Hlen.
  destruct flag; reflexivity.
Qed.

Lemma foldr_append_app (l1 l2 : list string) :
  foldr (fun piece rest => piece +:+ rest) "" (l1 ++ l2)
  = foldr (fun piece rest => piece +:+ rest) "" l1
    +:+ foldr (fun piece rest => piece +:+ rest) "" l2.
Proof.
  induction l1 as [|x l1 IH]; [reflexivity|].
  cbn [app foldr]. rewrite IH, append_assoc. reflexivity.
Qed.

Lemma render_snoc clauses clause :
  Listing.render (clauses ++ [clause])
  = Listing.render clauses +:+ clause (Listing.placeholder (S (length clauses))).
Proof.
  unfold Listing.render. rewrite imap_app, foldr_append_app. cbn [imap foldr].
  rewrite append_nil_r, Nat.add_0_r, append_assoc. reflexivity.
Qed.

(** One conditional filter keeps the placeholders in step with the values. *)
Lemma when_in_order x clause value b flags clauses values :
  length flags = length clauses -> length flags = length values ->
  Listing.whereClause b = Listing.render (Listing.select flags clauses) ->
  Listing.params b = Listing.select flags values ->
  Listing.paramIndex b = S (length (Listing.select flags clauses)) ->
  length (Listing.select flags clauses) = length (Listing.select flags values) ->
  let b' := Listing.when x clause value b in
  let flags' := flags ++ [Listing.truthy x] in
  let clauses' := clauses ++ [clause] in
  let values' := values ++ [value (default "" x)] in
  Listing.whereClause b' = Listing.render (Listing.select flags' clauses') /\
  Listing.params b' = Listing.select flags' values' /\
  Listing.paramIndex b' = S (length (Listing.select flags' clauses')) /\
  length (Listing.select flags' clauses') = length (Listing.select flags' values').
Proof.
  intros Hc Hv Hwhere Hparams Hindex Hlen. cbv zeta.
  rewrite !select_app by assumption.
  unfold Listing.when, Listing.truthy.
  destruct x as [s|]; [destruct (String.eqb s "")|]; cbn [negb Listing.select default
    from_option id].
  - rewrite !app_nil_r. auto.
  - unfold Listing.push. cbn [Listing.whereClause Listing.params Listing.paramIndex].
    rewrite render_snoc, Hwhere, Hparams, Hindex, !length_app, Hlen. cbn.
    repeat split; try reflexivity; lia.
  - rewrite !app_nil_r. auto.
Qed.

Lemma finish_in_order valid page limit sortBy sortOrder b flags clauses values :
  Listing.whereClause b = Listing.render (Listing.select flags clauses) ->
  Listing.params b = Listing.select flags values ->
  Listing.paramIndex b = S (length (Listing.select flags clauses)) ->
  length (Listing.select flags clauses) = length (Listing.select flags values) ->
  Listing.binds_in_order (Listing.finish valid page limit sortBy sortOrder b)
    flags clauses values page limit.
Proof.
  intros Hwhere Hparams Hindex Hlen. unfold Listing.binds_in_order, Listing.finish.
  cbn. rewrite Hwhere, Hparams, Hindex, Hlen. repeat split; lia.
Qed.

Ltac next_filter H :=
  match type of H with
  | _ /\ _ /\ _ /\ _ =>
      let Hw := fresh "Hw" in let Hp := fresh "Hp" in
      let Hi := fresh "Hi" in let Hl := fresh "Hl" in
      destruct H as (Hw & Hp & Hi & Hl);
      match goal with
      | |- context [Listing.when ?x ?clause ?value ?b] =>
          match type of Hw with
          | Listing.whereClause b = Listing.render (Listing.select ?fl ?cl) =>
              match type of Hp with
              | _ = Listing.select _ ?vl =>
                  pose proof (when_in_order x clause value b fl cl vl
                                eq_refl eq_refl Hw Hp Hi Hl) as H;
                  cbv zeta in H; cbn [app] in H; clear Hw Hp Hi Hl
              end
          end
      end
  end.

Lemma start_in_order :
  Listing.whereClause Listing.start = Listing.render (Listing.select [] []) /\
  Listing.params Listing.start = Listing.select [] [] /\
  Listing.paramIndex Listing.start
    = S (length (Listing.select [] (@nil (string -> string)))) /\
  length (Listing.select [] (@nil (string -> string)))
    = length (Listing.select [] (@nil Listing.param)).
Proof. repeat split. Qed.

Lemma getPlayers_in_order q :
  Listing.binds_in_order (Listing.getPlayers q) (Listing.players_filters q)
    Listing.players_clauses (Listing.players_values q)
    (Listing.page q) (Listing.limit q).
Proof.
  unfold Listing.getPlayers. cbv zeta.
  pose proof start_in_order as H.
  do 5 next_filter H.
  destruct H as (Hw & Hp & Hi & Hl).
  exact (finish_in_order _ _ _ _ _ _ _ _ _ Hw Hp Hi Hl).
Qed.

Lemma discoverPlayers_in_order q :
  Listing.binds_in_order (Listing.discoverPlayers q) (Listing.discover_filters q)
    Listing.discover_clauses (Listing.discover_values q)
    (Listing.d_page q) (Listing.d_limit q).
Proof.
  unfold Listing.discoverPlayers. cbv zeta.
  pose proof start_in_order as H.
  do 10 next_filter H.
  destruct H as (Hw & Hp & Hi & Hl).
  exact (finish_in_order _ _ _ _ _ _ _ _ _ Hw Hp Hi Hl).
Qed.

(** X20. In both listings the placeholders are bound in order: the WHERE
    clause consists of the public-visibility condition followed by the
    conjuncts of exactly the filters that are set (present and not empty),
    the i-th written with [$i] and the i-th value of the count query being
    that filter's value; LIMIT and OFFSET use the next two placeholders, and
    the page query gets the same values followed by the limit and the
    offset, so that every placeholder has its value. *)
Theorem listings_bind_in_order :
  (forall q,
     let l := Listing.getPlayers q in
     Listing.binds_in_order l (Listing.players_filters q)
       Listing.players_clauses (Listing.players_values q)
       (Listing.page q) (Listing.limit q) /\
     Listing.l_params_bound l) /\
  (forall q,
     let l := Listing.discoverPlayers q in
     Listing.binds_in_order l (Listing.discover_filters q)
       Listing.discover_clauses (Listing.discover_values q)
       (Listing.d_page q) (Listing.d_limit q) /\
     Listing.l_params_bound l).
Proof.
  assert (Hbound : forall l flags clauses values page limit,
            Listing.binds_in_order l flags clauses values page limit ->
            Listing.l_params_bound l).
  { intros l flags clauses values page limit (_ & _ & _ & Hlimit & Hoffset & Hparams).
    unfold Listing.l_params_bound. rewrite Hparams, Hlimit, Hoffset, length_app. cbn [length].
    generalize (Listing.l_count_params l). intros params.
    split; [lia|]. split.
    - exists limit. rewrite lookup_app_r by lia.
      replace (S (length params) - 1 - length params)%nat with 0%nat by lia.
      reflexivity.
    - exists page, limit. rewrite lookup_app_r by lia.
      replace (S (S (length params)) - 1 - length params)%nat with 1%nat by lia.
      reflexivity. }
  split; intros q; cbv zeta.
  - pose proof (getPlayers_in_order q) as H. split; [exact H|]. eapply Hbound, H.
  - pose proof (discoverPlayers_in_order q) as H. split; [exact H|]. eapply Hbound, H.
Qed.




(** ** What the two handlers leave alone (playersController.js) *)

Lemma touches_only_refl id key w : touches_only id key w w.
Proof.
  repeat split; try reflexivity. exists []. rewrite app_nil_r. split; [reflexivity|constructor].
Qed.

Lemma touches_only_trans id key w1 w2 w3 :
  touches_only id key w1 w2 -> touches_only id key w2 w3 -> touches_only id key w1 w3.
Proof.
  intros (Hp & Hc & Hm & Hus & Ha & Hr & Hu & Hn & Ht & Ho & l1 & Hl1 & Hs1)
         (Hp' & Hc' & Hm' & Hus' & Ha' & Hr' & Hu' & Hn' & Ht' & Ho' & l2 & Hl2 & Hs2).
  repeat split; try congruence.
  - intros k Hk. rewrite Ha', Ha by exact Hk. reflexivity.
  - intros k Hk. rewrite Hr', Hr by exact Hk. reflexivity.
  - exists (l1 ++ l2). rewrite Hl2, Hl1, app_assoc. split; [reflexivity|].
    apply Forall_app. split; assumption.
Qed.

Lemma keeps_ret {A} id key (a : A) : keeps id key (mret a : async A).
Proof. intros w. apply touches_only_refl. Qed.

Lemma keeps_throw {A} id key e : keeps id key (throw e : async A).
Proof. intros w. apply touches_only_refl. Qed.

Lemma keeps_bind {A B} id key (m : async A) (k : A -> async B) :
  keeps id key m -> (forall a, keeps id key (k a)) -> keeps id key (m ≫= k).
Proof.
  intros Hm Hk w. specialize (Hm w). unfold mbind, async_bind.
  destruct (m w) as [[a|e] w1]; cbn [snd] in *; [|exact Hm].
  eapply touches_only_trans; [exact Hm|apply Hk].
Qed.

Lemma keeps_select {A} id key s (rows : database -> A) :
  s ∈ statements_of id -> keeps id key (select s rows).
Proof.
  intros Hs w. unfold select, query.
  destruct (outage w (length (issued w))); cbn;
    (repeat split; try reflexivity; exists [s]; split; [reflexivity|]);
    constructor; try assumption; constructor.
Qed.

Lemma keeps_cache_get id key : keeps id key (cache_get key).
Proof. intros w. rewrite cache_get_total. apply touches_only_refl. Qed.

Lemma keeps_cache_set id key value ttl : keeps id key (cache_set key value ttl).
Proof.
  intros w. destruct (cache_up w) eqn:Hup.
  - destruct (Z.leb_spec ttl 0) as [Httl|Httl];
      [rewrite cache_set_refused by exact Httl; apply touches_only_refl|].
    destruct (cache_up_client w Hup) as (client & Hc & Hconn & _).
    rewrite (cache_set_up key value ttl w client Hc Hup Httl). cbn [snd].
    repeat split; try reflexivity.
    + intros k Hk. unfold redis_entry. rewrite Hc. cbn.
      apply lookup_insert_ne. congruence.
    + rewrite Hup. unfold cache_up. cbn. rewrite Hconn. reflexivity.
    + exists []. rewrite app_nil_r. split; [reflexivity|constructor].
  - rewrite cache_set_down by exact Hup. apply touches_only_refl.
Qed.

Lemma keeps_calculate id key player : keeps id key (calculatePlayerAnalytics id player).
Proof.
  intros w. destruct (outage w (length (issued w))) as [sqlstate|] eqn:E.
  - rewrite (calculate_fail _ _ _ _ E). cbn.
    repeat split; try reflexivity. exists [UpsertAnalytics id]. split; [reflexivity|].
    repeat constructor.
  - rewrite (calculate_ok _ _ _ E). cbn.
    repeat split; try reflexivity.
    + intros k Hk. apply lookup_insert_ne. congruence.
    + exists [UpsertAnalytics id]. split; [reflexivity|]. repeat constructor.
Qed.

Lemma cache_lookup_entry w key :
  cache_lookup w key =
  if cache_up w
  then match redis_entry w key with
       | Some (JsonText a, expiry) => if now w <? expiry then Some a else None
       | _ => None
       end
  else None.
Proof.
  destruct (cache_up w) eqn:Hup; [|apply cache_lookup_down; exact Hup].
  destruct (cache_up_client w Hup) as (client & Hc & _ & _).
  rewrite (cache_lookup_up w client key Hc Hup). unfold redis_entry. rewrite Hc.
  reflexivity.
Qed.

Lemma analytics_key_inj id1 id2 : analytics_key id1 = analytics_key id2 -> id1 = id2.
Proof.
  unfold analytics_key. rewrite !append_cons, !append_nil_l. congruence.
Qed.

Lemma getPlayerAnalytics_keeps id : keeps id (analytics_key id) (getPlayerAnalytics id).
Proof.
  unfold getPlayerAnalytics.
  apply keeps_bind; [apply keeps_select; set_solver|].
  intros [|player rest]; [apply keeps_throw|].
  cbv zeta. apply keeps_bind; [apply keeps_cache_get|].
  intros cached. apply keeps_bind.
  - destruct cached as [a|]; [apply keeps_ret|].
    apply keeps_bind; [apply keeps_select; set_solver|].
    intros rows. apply keeps_bind.
    + destruct rows; [apply keeps_calculate|apply keeps_ret].
    + intros a. apply keeps_bind; [apply keeps_cache_set|].
      intros _. apply keeps_ret.
  - intros analytics.
    apply keeps_bind; [apply keeps_select; set_solver|].
    intros matches. apply keeps_ret.
Qed.

(** X22. A request for a player's analytics touches nothing but that player:
    whatever path it takes and however it ends, the player, comparison,
    match and user tables, the stored analytics of every other player, the Redis
    entry of every other key, the connection flag and the clock are as
    before, and every statement it sends is one of the four about this
    player; so what the fast cache answers for any other player is what it
    answered before. *)
Theorem analytics_touches_only_its_player id w :
  let w' := (asyncHandler (getPlayerAnalytics id) w).2 in
  touches_only id (analytics_key id) w w' /\
  forall other, other <> id ->
    cache_lookup w' (analytics_key other) = cache_lookup w (analytics_key other).
Proof.
  cbv zeta.
  assert (Hkeeps : touches_only id (analytics_key id) w
                     (asyncHandler (getPlayerAnalytics id) w).2).
  { pose proof (getPlayerAnalytics_keeps id w) as Hkeeps. unfold asyncHandler.
    destruct (getPlayerAnalytics id w) as [[data|e] w']; exact Hkeeps. }
  split; [exact Hkeeps|]. intros other Hother.
  destruct Hkeeps as (_ & _ & _ & _ & _ & Hentry & Hup & _ & Hnow & _).
  rewrite !cache_lookup_entry, Hup, Hnow, Hentry; [reflexivity|].
  intros Hkey. apply Hother, analytics_key_inj. exact Hkey.
Qed.

(** ** The unknown player *)










(** ** The comparison reads only *)



Lemma find_fetched d rows player :
  player ∈ rows ->
  exists a,
    List.find (fun a => String.eqb (Compare.playerId a) (Compare.id player))
      (map (fetched_from d) rows) = Some a /\
    Compare.analytics a = agent_analytics_cache d !! Compare.id player.
Proof.
  induction rows as [|row rows IH]; intros Hin; [apply elem_of_nil in Hin; contradiction|].
  cbn. destruct (String.eqb_spec (Compare.id row) (Compare.id player)) as [Heq|Hne].
  - eexists. split; [reflexivity|]. cbn. rewrite Heq. reflexivity.
  - apply elem_of_cons in Hin. destruct Hin as [->|Hin]; [contradiction|].
    apply IH. exact Hin.
Qed.

(** X25. In a successful comparison the three ratings of every view are
    those of the record the store holds for that player, and all three are
    null when it holds none: the comparison neither derives analytics nor
    asks the fast cache. *)
Theorem compare_ratings_from_store body w data w' :
  comparePlayers body w = (Ok data, w') ->
  forall v, v ∈ Compare.players data ->
    (Compare.consistency v, Compare.workRate v, Compare.risk v)
    = ratings_of (agent_analytics_cache (db w) !! Compare.v_id v).
Proof.
  intros Hrun v Hv.
  destruct (compare_success _ _ _ _ Hrun) as (ids & _ & _ & _ & Hplayers & _).
  rewrite Hplayers in Hv. unfold views_of in Hv.
  apply list_elem_of_fmap in Hv. destruct Hv as (player & -> & Hin).
  destruct (find_fetched (db w) _ _ Hin) as (a & Hfind & Ha).
  unfold Compare.format. cbn. rewrite Hfind, Ha.
  destruct (agent_analytics_cache (db w) !! Compare.id player); reflexivity.
Qed.

Lemma compare_ratings_from_store_degraded :
  exists data w',
    comparePlayers (Array ["alice"; "bob"]) degraded_world = (Ok data, w') /\
    forall v, v ∈ Compare.players data ->
      (Compare.consistency v, Compare.workRate v, Compare.risk v)
      = ratings_of (agent_analytics_cache (db degraded_world) !! Compare.v_id v).
Proof.
  destruct (compare_runs ["alice"; "bob"] degraded_world) as [w' Hrun];
    [intros n; reflexivity | cbn; lia | vm_compute; lia |].
  eexists _, w'. split; [exact Hrun|].
  exact (compare_ratings_from_store _ _ _ _ Hrun).
Defined.

(** ** The fields derived from the nova score *)

(** X26. For a nova score of n tenths, n in 0..1000 (a DECIMAL(4,1) value
    from 0.0 to 100.0, handed over as text or as the number it denotes), the
    consistency score is the integer
    floor((9n + 50) / 100), that is 0.9 times the score rounded half up, and
    lies in 0..90; the consistency level is high from 80.0, medium from 60.0
    and low below; and the consistency risk factor is low from 70.0 and
    medium below. *)
Theorem consistency_from_nova p date n :
  0 <= n <= 1000 ->
  JS.numeric_value (Profile.nova_score p) = JS.of_tenths n ->
  let a := Analytics.literal p date in
  JS.to_Z (Analytics.consistency_score a) = Some ((9 * n + 50) / 100) /\
  0 <= (9 * n + 50) / 100 <= 90 /\
  Analytics.consistency_level a
    = (if 800 <=? n then "high" else if 600 <=? n then "medium" else "low") /\
  Analytics.consistency (Analytics.risk_factors a)
    = (if 700 <=? n then "low" else "medium").
Proof.
  intros Hn Hp a.
  assert (H : all_between 0 1000 (fun n =>
    let c := Analytics.literal (scores_of "" n 0) (DateObj 0) in
    bool_decide (JS.to_Z (Analytics.consistency_score c) = Some ((9 * n + 50) / 100)) &&
    bool_decide (Analytics.consistency_level c =
                 if 800 <=? n then "high" else if 600 <=? n then "medium" else "low") &&
    bool_decide (Analytics.consistency (Analytics.risk_factors c) =
                 if 700 <=? n then "low" else "medium")) = true)
    by (vm_compute; reflexivity).
  apply all_between_spec with (z := n) in H; [|exact Hn].
  cbv zeta in H. apply andb_prop in H. destruct H as [H H3].
  apply andb_prop in H. destruct H as [H1 H2].
  apply bool_decide_eq_true_1 in H1, H2, H3.
  subst a. unfold Analytics.literal in *.
  cbn [Analytics.consistency_score Analytics.consistency_level Analytics.risk_factors
       Analytics.consistency Profile.nova_score scores_of JS.numeric_value] in *.
  rewrite Hp. split; [exact H1|]. split; [|split; [exact H2|exact H3]].
  split.
  - apply Z.div_pos; lia.
  - assert ((9 * n + 50) / 100 < 91) by (apply Z.div_lt_upper_bound; lia). lia.
Qed.

Lemma consistency_from_nova_bob :
  let a := Analytics.literal bob (DateObj 0) in
  JS.to_Z (Analytics.consistency_score a) = Some 65 /\
  Analytics.consistency_level a = "medium" /\
  Analytics.consistency (Analytics.risk_factors a) = "low".
Proof.
  assert (Hn : 0 <= 725 <= 1000) by lia.
  destruct (consistency_from_nova bob (DateObj 0) 725 Hn eq_refl)
    as (Hscore & _ & Hlevel & Hfactor).
  repeat split; assumption.
Defined.
